(** * otk: view linter and view-extension merge engine

    A shallow embedding of [otk/commands/lint.py], [otk/commands/extend.py]
    and [otk/commands/add_xml.py], with the properties of the classifier,
    the convention rules, the schema cache, the schema validator adapter
    and the merge engine.

    Conventions of the embedding:
    - Python [str] is [string]; the string methods the code calls
      ([in], [replace], [join], [split], [endswith]) are in module [Py].
    - An lxml element is an [Element]: tag, attributes, text, source line
      and children.  The element references that lxml hands out are
      [Node]s: an element together with its position in the tree, so that
      "the same element" and in-place mutation have a meaning.
    - The libraries the code calls but does not contain (the XML parser
      and serialiser, the RelaxNG compiler, HTTP, the user at the prompt)
      and the Jinja templates, which are not part of the sources, are
      section variables.
    - Global state ([_schema_cache], the network, the file system) is
      threaded explicitly. *)

From Stdlib Require Import Ascii.
From stdpp Require Import base option list strings gmap pretty sorting.

(** ** Python string primitives *)

Module Py.

(** [s.startswith(p)] *)
Fixpoint startswith (p s : string) : bool :=
  match p, s with
  | EmptyString, _ => true
  | String _ _, EmptyString => false
  | String a p', String b s' =>
      if decide (a = b) then startswith p' s' else false
  end.

(** [sub in s] *)
Fixpoint contains (sub s : string) : bool :=
  startswith sub s ||
  match s with
  | EmptyString => false
  | String _ s' => contains sub s'
  end.

(** [s.endswith(p)] *)
Definition endswith (p s : string) : bool :=
  startswith (String.rev p) (String.rev s).

(** The scan of [s.replace(old, new)] for a non-empty [old]: left to
    right, replacing every occurrence that does not overlap an earlier
    one.  [skip] counts the characters of a replaced occurrence that
    are still to be dropped. *)
Fixpoint replace_go (old new : string) (skip : nat) (s : string) : string :=
  match s with
  | EmptyString => EmptyString
  | String c s' =>
      match skip with
      | S k => replace_go old new k s'
      | O =>
          if startswith old s
          then new +:+ replace_go old new (String.length old - 1) s'
          else String c (replace_go old new 0 s')
      end
  end.

(** [s.replace("", new)] puts [new] before every character and at the
    end. *)
Fixpoint intersperse (new s : string) : string :=
  match s with
  | EmptyString => new
  | String c s' => new +:+ String c (intersperse new s')
  end.

(** [s.replace(old, new)] *)
Definition replace (old new s : string) : string :=
  match old with
  | EmptyString => intersperse new s
  | String _ _ => replace_go old new 0 s
  end.

(** [sep.join(l)] *)
Fixpoint join (sep : string) (l : list string) : string :=
  match l with
  | [] => EmptyString
  | [x] => x
  | x :: l' => x +:+ sep +:+ join sep l'
  end.

(** [c in s] for a single character *)
Fixpoint has_char (c : ascii) (s : string) : bool :=
  match s with
  | EmptyString => false
  | String a s' => bool_decide (a = c) || has_char c s'
  end.

(** [s.split(c)[-1]] for a one-character separator: what follows the
    last [c], or all of [s] when there is none. *)
Fixpoint split_last (c : ascii) (s : string) : string :=
  match s with
  | EmptyString => EmptyString
  | String a s' =>
      if has_char c s' then split_last c s'
      else if decide (a = c) then s' else s
  end.

(** Truth value of an [Optional[str]]: [None] and [""] are false. *)
Definition truthy (o : option string) : bool :=
  match o with
  | None | Some EmptyString => false
  | Some (String _ _) => true
  end.

(** Number of positions of [s] at which [sub] occurs. *)
Fixpoint occurrences (sub s : string) : nat :=
  (if startswith sub s then 1 else 0) +
  match s with
  | EmptyString => 0
  | String _ s' => occurrences sub s'
  end.

(** What a file opened in text mode gives when it is read: every
    carriage return, with the line feed that follows it if there is
    one, is read as one line feed.  [after_cr] says that the character
    before was a carriage return. *)
Fixpoint newlines_go (after_cr : bool) (s : string) : string :=
  match s with
  | EmptyString => EmptyString
  | String c s' =>
      if decide (c = "013"%char) then String "010" (newlines_go true s')
      else if after_cr && bool_decide (c = "010"%char)
      then newlines_go false s'
      else String c (newlines_go false s')
  end.

Definition universal_newlines (s : string) : string := newlines_go false s.

End Py.

(** ** Text helpers *)

Module PyText.

(** [s.split(c)] for a one-character separator. *)
Fixpoint split (c : ascii) (s : string) : list string :=
  match s with
  | EmptyString => [EmptyString]
  | String a s' =>
      if decide (a = c) then EmptyString :: split c s'
      else match split c s' with
           | seg :: segs => String a seg :: segs
           | [] => [String a EmptyString]
           end
  end.

(** [c.upper()] and [c.lower()] on ASCII text. *)
Definition upper (a : ascii) : ascii :=
  let n := nat_of_ascii a in
  if bool_decide (97 ≤ n ≤ 122) then ascii_of_nat (n - 32) else a.

Definition lower (a : ascii) : ascii :=
  let n := nat_of_ascii a in
  if bool_decide (65 ≤ n ≤ 90) then ascii_of_nat (n + 32) else a.

Fixpoint lower_all (s : string) : string :=
  match s with
  | EmptyString => EmptyString
  | String a s' => String (lower a) (lower_all s')
  end.

(** [s.capitalize()] on ASCII text. *)
Definition capitalize (s : string) : string :=
  match s with
  | EmptyString => EmptyString
  | String a s' => String (upper a) (lower_all s')
  end.

End PyText.

(** ** pathlib

    Pure paths as on a POSIX system. *)

Module PyPath.

(** A [PurePosixPath]: its root, which is [""] for a relative path,
    ["/"], or ["//"] for a text that starts with exactly two slashes,
    and its parts below the root. *)
Definition PurePath : Type := string * list string.

Fixpoint leading_slashes (s : string) : nat :=
  match s with
  | String "/" s' => S (leading_slashes s')
  | _ => 0
  end.

Definition root_of (s : string) : string :=
  match leading_slashes s with
  | 0 => ""
  | 2 => "//"
  | _ => "/"
  end.

(** Empty components and [.] are dropped; [..] is kept. *)
Definition parts_of (s : string) : list string :=
  filter (λ part, part ≠ "" ∧ part ≠ ".") (PyText.split "/" s).

(** [PurePosixPath(s)] *)
Definition parse (s : string) : PurePath := (root_of s, parts_of s).

(** [p / s]: a text with a root replaces [p]. *)
Definition join (p : PurePath) (s : string) : PurePath :=
  if decide (root_of s = "") then (p.1, p.2 ++ parts_of s) else parse s.

(** [p.name] *)
Definition name (p : PurePath) : string := default "" (last p.2).

(** [p.relative_to(other)]; [None] stands for the [ValueError]. *)
Definition relative_to (p other : PurePath) : option (list string) :=
  if decide (p.1 = other.1) then
    if decide (other.2 `prefix_of` p.2)
    then Some (drop (length other.2) p.2)
    else None
  else None.

End PyPath.

(** ** XML trees *)

(** An lxml [_Element].  [sourceline] is [None] when the parser kept no
    position.  Comments and processing instructions are not elements and
    are left out. *)
#[warnings="-register-all"]
Inductive Element : Type :=
  Elem {
    tag : string;
    attrib : list (string * string);
    text : option string;
    sourceline : option nat;
    children : list Element
  }.

(** [element.get(name)] *)
Fixpoint assoc (name : string) (l : list (string * string)) : option string :=
  match l with
  | [] => None
  | (k, v) :: l' => if decide (k = name) then Some v else assoc name l'
  end.

Definition get (e : Element) (name : string) : option string :=
  assoc name (attrib e).

(** The position of an element below the root: the child indices on the
    way down. *)
Definition Path := list nat.

(** An element reference: the element and where it sits. *)
Definition Node : Type := Path * Element.

Section Located.
Variable below : Path → Element → list Node.
Variable p : Path.

Fixpoint located_children (i : nat) (cs : list Element) : list Node :=
  match cs with
  | [] => []
  | c :: cs' =>
      ((p ++ [i], c) :: below (p ++ [i]) c) ++ located_children (S i) cs'
  end.
End Located.

(** The proper descendants of the element at [p], in document order:
    the node set of the XPath step [.//*]. *)
Fixpoint descendants_from (p : Path) (e : Element) {struct e} : list Node :=
  located_children descendants_from p 0 (children e).

Definition descendants (n : Node) : list Node :=
  descendants_from n.1 n.2.

(** The node set of [//*] for the document whose root element is
    [root]. *)
Definition all_elements (root : Element) : list Node :=
  ([], root) :: descendants ([], root).

(** The element at a position, if there is one. *)
Fixpoint subtree (p : Path) (e : Element) : option Element :=
  match p with
  | [] => Some e
  | i :: p' => children e !! i ≫= subtree p'
  end.

(** [element.append(x)] on the element at [p], seen from the root. *)
Fixpoint append_at (p : Path) (x : Element) (e : Element) : Element :=
  match p with
  | [] =>
      Elem (tag e) (attrib e) (text e) (sourceline e) (children e ++ [x])
  | i :: p' =>
      Elem (tag e) (attrib e) (text e) (sourceline e)
           (alter (append_at p' x) i (children e))
  end.

(** What a library call that can raise gives back: a value, or the text
    of the exception. *)
Inductive result (A : Type) : Type :=
  | Ok (a : A)
  | Raise (msg : string).
Arguments Ok {A} a.
Arguments Raise {A} msg.

(** The double quote, for the string constants that contain one. *)
Definition dq : string := String "034"%char EmptyString.

(** ** XPath node sets used by the code *)

Definition has_tag (t : string) (n : Node) : bool :=
  bool_decide (tag n.2 = t).

Definition attr_is (name value : string) (n : Node) : bool :=
  bool_decide (get n.2 name = Some value).

(** [record[@model='ir.ui.view']] *)
Definition is_view_record (n : Node) : bool :=
  has_tag "record" n && attr_is "model" "ir.ui.view" n.

(** [field[@name='...']] *)
Definition is_field_named (name : string) (n : Node) : bool :=
  has_tag "field" n && attr_is "name" name n.

(** [root.xpath("//record[@model='ir.ui.view']")] *)
Definition view_records (root : Element) : list Node :=
  filter (λ n, is_view_record n) (all_elements root).

(** [n.xpath(".//field[@name='...']")] *)
Definition fields_named (name : string) (n : Node) : list Node :=
  filter (λ m, is_field_named name m) (descendants n).

(** [n.xpath(f".//{view_type}")] *)
Definition elements_below (view_type : string) (n : Node) : list Node :=
  filter (λ m, has_tag view_type m) (descendants n).

(** ** lint.py *)

(** The entries of the list that [lint_xml_file] returns.  The code
    builds each entry as a formatted string; [render] gives that string,
    so the Python list is [render <$> findings]. *)
Inductive Finding : Type :=
  | UnescapedAmp (line : option nat) (tg : string)
  | DeprecatedTree (line : option nat)
  | DeprecatedAttrs (line : option nat) (tg suggestion : string)
  | DeprecatedStates (line : option nat) (tg states_value : string)
  | MissingId (line : option nat)
  | MissingField (line : option nat) (record_id : option string)
                 (field_name : string)
  | MissingString (line : option nat) (tg : string)
  | FieldMissingName (line : option nat)
  | RngSkipped (view_type : string)
  | RngError (line : option nat) (message : string)
  | RngFailed (exn : string)
  | XmlSyntaxError (exn : string).

(** [str(x)] for a source line and for an attribute value that may be
    [None]. *)
Definition str_line (line : option nat) : string :=
  match line with
  | Some n => pretty n
  | None => "None"
  end.

Definition str_opt (o : option string) : string :=
  match o with
  | Some s => s
  | None => "None"
  end.

Definition render (f : Finding) : string :=
  match f with
  | UnescapedAmp l t =>
      "L" +:+ str_line l +:+ ": Unescaped '&' found in element <" +:+ t
      +:+ ">. Use '&amp;' instead."
  | DeprecatedTree l =>
      "L" +:+ str_line l +:+ ": Deprecated '<tree>' element found. "
      +:+ "Use '<list>' instead for modern Odoo versions."
  | DeprecatedAttrs l t s =>
      "L" +:+ str_line l +:+ ": Deprecated 'attrs' attribute found in <"
      +:+ t +:+ ">. Since Odoo 17+, use direct attributes instead. "
      +:+ "Suggestion: " +:+ s
  | DeprecatedStates l t v =>
      "L" +:+ str_line l +:+ ": Deprecated 'states' attribute found in <"
      +:+ t +:+ ">. Since Odoo 17+, use direct attributes like 'readonly', "
      +:+ "'invisible', etc. instead of states='" +:+ v +:+ "'"
  | MissingId l =>
      "L" +:+ str_line l +:+ ": View record missing required 'id' attribute"
  | MissingField l r f =>
      "L" +:+ str_line l +:+ ": View record '" +:+ str_opt r
      +:+ "' missing required field '" +:+ f +:+ "'"
  | MissingString l t =>
      "L" +:+ str_line l +:+ ": <" +:+ t
      +:+ "> element should have a 'string' attribute for better UX"
  | FieldMissingName l =>
      "L" +:+ str_line l +:+ ": <field> element missing required 'name' attribute"
  | RngSkipped vt =>
      "Could not download RNG schemas for " +:+ vt +:+ " view validation"
  | RngError l m =>
      "RNG Validation Error (Line " +:+ str_line l +:+ "): " +:+ m
  | RngFailed e => "RNG validation failed: " +:+ e
  | XmlSyntaxError e => "XML Syntax Error: " +:+ e
  end.

Definition odoo_rng (file : string) : string :=
  "https://raw.githubusercontent.com/odoo/odoo/"
  +:+ "ba15d2f79b5762b280a7a74d7e4cb202543e2898/odoo/addons/base/rng/"
  +:+ file.

Definition RNG_SCHEMA_URLS : gmap string string :=
  list_to_map
    [ ("common", odoo_rng "common.rng");
      ("list", odoo_rng "list_view.rng");
      ("search", odoo_rng "search_view.rng");
      ("graph", odoo_rng "graph_view.rng");
      ("pivot", odoo_rng "pivot_view.rng");
      ("calendar", odoo_rng "calendar_view.rng");
      ("activity", odoo_rng "activity_view.rng") ].

(** The process-wide state of the linter: the module-level dictionary
    [_schema_cache] and the GET requests issued so far. *)
Record World : Type := mkWorld {
  schema_cache : gmap string string;
  requests : list string
}.

(** The view tags, in the order the classifier tries them. *)
Definition VIEW_TYPES : list string :=
  ["list"; "tree"; "form"; "search"; "kanban"; "graph"; "pivot";
   "calendar"; "activity"].

(** ['list' if view_type == 'tree' else view_type] *)
Definition normalize (view_type : string) : string :=
  if decide (view_type = "tree") then "list" else view_type.

(** The inner [for view_type in [...]] loop of the classifier on one
    scope: the first tag of the list with an element below [scope]. *)
Fixpoint first_view_tag (scope : Node) (tags : list string) : option string :=
  match tags with
  | [] => None
  | t :: tags' =>
      match elements_below t scope with
      | _ :: _ => Some (normalize t)
      | [] => first_view_tag scope tags'
      end
  end.

(** The [for record in ...] loop of the classifier. *)
Fixpoint scan_records (records : list Node) : option string :=
  match records with
  | [] => None
  | record :: records' =>
      match fields_named "arch" record with
      | arch_content :: _ =>
          match first_view_tag arch_content VIEW_TYPES with
          | Some vt => Some vt
          | None => scan_records records'
          end
      | [] => scan_records records'
      end
  end.

Definition get_view_type_from_xml (root : Element) : option string :=
  match scan_records (view_records root) with
  | Some vt => Some vt
  | None => first_view_tag ([], root) VIEW_TYPES
  end.

(** The first loop of [extract_view_elements_for_rng]. *)
Fixpoint extract_from_records (records : list Node) (view_type : string)
  : list Node :=
  match records with
  | [] => []
  | record :: records' =>
      match fields_named "arch" record with
      | arch_content :: _ =>
          elements_below view_type arch_content
          ++ extract_from_records records' view_type
      | [] => extract_from_records records' view_type
      end
  end.

Definition extract_view_elements_for_rng (root : Element) (view_type : string)
  : list Node :=
  extract_from_records (view_records root) view_type
  ++ elements_below view_type ([], root).

(** [name="value"] with its double quotes. *)
Definition direct_attr (name value : string) : string :=
  name +:+ "=" +:+ dq +:+ value +:+ dq.

(** The three [if "..." in attrs_value] blocks of
    [get_attrs_replacement_suggestion]; each gives what it appends to
    [suggestions]. *)
Definition invisible_block (attrs_value : string) : list string :=
  if Py.contains "invisible" attrs_value then
    if Py.contains "'invisible': 1" attrs_value
       || Py.contains "'invisible': True" attrs_value
    then [direct_attr "invisible" "True"]
    else if Py.contains "'invisible': 0" attrs_value
            || Py.contains "'invisible': False" attrs_value
    then [direct_attr "invisible" "False"]
    else if Py.contains "[(" attrs_value then
      if Py.contains "state" attrs_value && Py.contains "=" attrs_value
      then [direct_attr "invisible" "state == 'value'"]
      else [direct_attr "invisible" "condition"]
    else []
  else [].

Definition readonly_block (attrs_value : string) : list string :=
  if Py.contains "readonly" attrs_value then
    if Py.contains "'readonly': 1" attrs_value
       || Py.contains "'readonly': True" attrs_value
    then [direct_attr "readonly" "True"]
    else if Py.contains "'readonly': 0" attrs_value
            || Py.contains "'readonly': False" attrs_value
    then [direct_attr "readonly" "False"]
    else if Py.contains "[(" attrs_value then
      if Py.contains "state" attrs_value && Py.contains "!=" attrs_value
      then [direct_attr "readonly" "state != 'draft'"]
      else if Py.contains "state" attrs_value && Py.contains "=" attrs_value
      then [direct_attr "readonly" "state == 'value'"]
      else [direct_attr "readonly" "condition"]
    else []
  else [].

Definition required_block (attrs_value : string) : list string :=
  if Py.contains "required" attrs_value then
    if Py.contains "'required': 1" attrs_value
       || Py.contains "'required': True" attrs_value
    then [direct_attr "required" "True"]
    else if Py.contains "'required': 0" attrs_value
            || Py.contains "'required': False" attrs_value
    then [direct_attr "required" "False"]
    else if Py.contains "[(" attrs_value
    then [direct_attr "required" "condition"]
    else []
  else [].

Definition NOTE_OR : string := "(Note: Use 'or' for '|' operators)".
Definition NOTE_AND : string := "(Note: Use 'and' for '&' operators)".
Definition GENERIC_SUGGESTION : string :=
  "Use direct attributes (invisible, readonly, required, column_invisible)".

(** [if mark in attrs_value: if suggestions: suggestions.append(note)] *)
Definition add_note (mark note attrs_value : string)
    (suggestions : list string) : list string :=
  if Py.contains mark attrs_value then
    match suggestions with
    | [] => suggestions
    | _ :: _ => suggestions ++ [note]
    end
  else suggestions.

Definition get_attrs_replacement_suggestion (attrs_value : string) : string :=
  let suggestions :=
    invisible_block attrs_value ++ readonly_block attrs_value
    ++ required_block attrs_value in
  let suggestions := add_note "|" NOTE_OR attrs_value suggestions in
  let suggestions := add_note "&" NOTE_AND attrs_value suggestions in
  match suggestions with
  | [] => GENERIC_SUGGESTION
  | _ :: _ => Py.join " " suggestions
  end.

(** [//*[@attrs or @states]] *)
Definition has_attrs_or_states (n : Node) : bool :=
  bool_decide (is_Some (get n.2 "attrs"))
  || bool_decide (is_Some (get n.2 "states")).

(** The body of the loop over [//*[@attrs or @states]]. *)
Definition check_attrs_states (n : Node) : list Finding :=
  let line := sourceline n.2 in
  let element_tag := tag n.2 in
  (if Py.truthy (get n.2 "attrs")
   then [DeprecatedAttrs line element_tag
           (get_attrs_replacement_suggestion (default "" (get n.2 "attrs")))]
   else [])
  ++
  (if Py.truthy (get n.2 "states")
   then [DeprecatedStates line element_tag (default "" (get n.2 "states"))]
   else []).

Definition REQUIRED_FIELDS : list string := ["name"; "model"; "arch"].

(** The inner loop over [required_fields] for one record. *)
Definition check_required_fields (record : Node) : list Finding :=
  flat_map
    (λ field_name,
       match fields_named field_name record with
       | [] => [MissingField (sourceline record.2) (get record.2 "id")
                  field_name]
       | _ :: _ => []
       end)
    REQUIRED_FIELDS.

(** The body of the loop over the view records. *)
Definition check_record (record : Node) : list Finding :=
  (if Py.truthy (get record.2 "id") then []
   else [MissingId (sourceline record.2)])
  ++ check_required_fields record.

(** [//list | //tree | ... | //activity]: a union, in document order. *)
Definition is_view_element (n : Node) : bool :=
  bool_decide (tag n.2 ∈ VIEW_TYPES).

Definition check_string (n : Node) : list Finding :=
  if negb (Py.truthy (get n.2 "string"))
     && negb (bool_decide (tag n.2 ∈ ["search"]))
  then [MissingString (sourceline n.2) (tag n.2)]
  else [].

Definition check_field_name (n : Node) : list Finding :=
  if Py.truthy (get n.2 "name") then []
  else [FieldMissingName (sourceline n.2)].

Definition validate_odoo_view_conventions (root : Element)
    (view_type : string) : list Finding :=
  (if decide (view_type = "list")
   then (λ n : Node, DeprecatedTree (sourceline n.2))
          <$> filter (λ n, has_tag "tree" n) (all_elements root)
   else [])
  ++ flat_map check_attrs_states
       (filter (λ n, has_attrs_or_states n) (all_elements root))
  ++ flat_map check_record (view_records root)
  ++ flat_map check_string
       (filter (λ n, is_view_element n) (all_elements root))
  ++ flat_map check_field_name
       (filter (λ n, has_tag "field" n) (all_elements root)).

(** A compiled RelaxNG validator: [rng.validate(element)] and the
    messages of [rng.error_log] after the call. *)
Definition Validator : Type := Element → bool * list string.

Section Lint.

(** [requests.get(url, timeout=10)] followed by [raise_for_status()]
    and [.text]: the body, or the exception.  The answer may depend on
    the requests made before. *)
Variable http_get : list string → string → result string.

(** [etree.parse(path, XMLParser(resolve_entities=False))] on the text
    of the file, [etree.fromstring] and [etree.tostring]. *)
Variable etree_parse : string → result Element.
Variable etree_fromstring : string → result Element.
Variable etree_tostring : Element → string.

(** The name of the temporary file that receives the common schema. *)
Variable common_schema_path : string.

(** [etree.RelaxNG(etree.parse(view_schema_path))], from the text of
    the common schema, written at [common_schema_path], and the
    patched text of the view schema. *)
Variable RelaxNG : string → string → result Validator.

Definition download_rng_schema (schema_type : string) (w : World)
  : option string * World :=
  match schema_cache w !! schema_type with
  | Some cached => (Some cached, w)
  | None =>
      match RNG_SCHEMA_URLS !! schema_type with
      | None => (None, w)
      | Some url =>
          match http_get (requests w) url with
          | Ok schema_content =>
              (Some schema_content,
               mkWorld (<[schema_type := schema_content]> (schema_cache w))
                       (requests w ++ [url]))
          | Raise _ =>
              (None, mkWorld (schema_cache w) (requests w ++ [url]))
          end
      end
  end.

(** The body of [for view_element in view_elements]. *)
Definition validate_element (rng : Validator) (view_element : Node)
  : list Finding :=
  let '(valid, error_log) := rng view_element.2 in
  if valid then []
  else RngError (sourceline view_element.2) <$> error_log.

Definition validate_view_with_rng (xml_content view_type : string)
    (w : World) : list Finding * World :=
  let '(common_schema, w) := download_rng_schema "common" w in
  let '(view_schema, w) := download_rng_schema view_type w in
  if negb (Py.truthy common_schema) || negb (Py.truthy view_schema)
  then ([RngSkipped view_type], w)
  else
    (match etree_fromstring xml_content with
     | Raise e => [RngFailed e]
     | Ok root =>
         let view_elements := extract_view_elements_for_rng root view_type in
         match view_elements with
         | [] => []
         | _ :: _ =>
             let view_schema_content :=
               Py.replace
                 ("include href=" +:+ dq +:+ "common.rng" +:+ dq)
                 ("include href=" +:+ dq +:+ common_schema_path +:+ dq)
                 (default "" view_schema) in
             match RelaxNG (default "" common_schema) view_schema_content with
             | Raise e => [RngFailed e]
             | Ok rng => flat_map (validate_element rng) view_elements
             end
         end
     end, w).

(** The check for unescaped ampersands, for one element of
    [root.iter()]. *)
Definition check_ampersand (n : Node) : list Finding :=
  match text n.2 with
  | Some t =>
      if Py.truthy (Some t) && Py.contains "&" t
         && negb (Py.contains "&amp;" t)
      then [UnescapedAmp (sourceline n.2) (tag n.2)]
      else []
  | None => []
  end.

(** Takes the text of the file at [file_path].  The classifier returns
    [None] or one of the non-empty tags, so [if view_type:] is the test
    for [Some]. *)
Definition lint_xml_file (file_text : string)
    (validate_views skip_rng : bool) (w : World)
  : list Finding * World :=
  match etree_parse file_text with
  | Raise e => ([XmlSyntaxError e], w)
  | Ok root =>
      let errors := flat_map check_ampersand (all_elements root) in
      if validate_views then
        match get_view_type_from_xml root with
        | Some view_type =>
            let errors :=
              errors ++ validate_odoo_view_conventions root view_type in
            if negb skip_rng
               && bool_decide (is_Some (RNG_SCHEMA_URLS !! view_type))
            then
              let xml_content := etree_tostring root in
              let '(rng_errors, w) :=
                validate_view_with_rng xml_content view_type w in
              (errors ++ rng_errors, w)
            else (errors, w)
        | None => (errors, w)
        end
      else (errors, w)
  end.

(** A run of fetches, one after the other. *)
Fixpoint download_all (keys : list string) (w : World) : World :=
  match keys with
  | [] => w
  | k :: keys' => download_all keys' (download_rng_schema k w).2
  end.

End Lint.

(** ** add_xml.py *)

(** The line feed. *)
Definition nl : string := String "010"%char EmptyString.

Definition EMPTY_WRAPPER : string := "<odoo>" +:+ nl +:+ nl +:+ "</odoo>" +:+ nl.

(** What there is at [file_path]: nothing, with what creating a file
    there gives (it raises a [FileNotFoundError] when the parent
    directory is missing, a [NotADirectoryError] when something on the
    way is not a directory); a directory, with the size that [stat]
    reports for it; or a regular file, with its text as it is stored. *)
Inductive FileState : Type :=
  | Missing (creating : result ())
  | IsDirectory (st_size : nat)
  | Regular (stored : string).

(** [file_path.exists()] and [file_path.stat().st_size], the latter for
    a path that exists. *)
Definition exists_ (st : FileState) : bool :=
  match st with
  | Missing _ => false
  | IsDirectory _ | Regular _ => true
  end.

Definition st_size_of (st : FileState) : nat :=
  match st with
  | Missing _ => 0
  | IsDirectory size => size
  | Regular stored => String.length stored
  end.

(** [file_path.write_text(data, encoding='utf-8')], on a system where
    the line separator is the line feed. *)
Definition write_text (data : string) (st : FileState) : result FileState :=
  match st with
  | Missing (Ok _) => Ok (Regular data)
  | Missing (Raise e) => Raise e
  | IsDirectory _ => Raise "IsADirectoryError"
  | Regular _ => Ok (Regular data)
  end.

(** [file_path.read_text(encoding='utf-8')] *)
Definition read_text (st : FileState) : result string :=
  match st with
  | Missing _ => Raise "FileNotFoundError"
  | IsDirectory _ => Raise "IsADirectoryError"
  | Regular stored => Ok (Py.universal_newlines stored)
  end.

(** Takes the state of [file_path] and gives the state afterwards, or
    the exception that leaves the function. *)
Definition _ensure_xml_data_wrapper (st : FileState) : result FileState :=
  if negb (exists_ st) || bool_decide (st_size_of st = 0)
  then write_text EMPTY_WRAPPER st
  else Ok st.

Definition _append_xml_to_file (xml_content : string) (st : FileState)
  : result FileState :=
  match _ensure_xml_data_wrapper st with
  | Raise e => Raise e
  | Ok st =>
      match read_text st with
      | Raise e => Raise e
      | Ok content =>
          let marker := "</odoo>" in
          let content :=
            if Py.contains marker content
            then Py.replace marker (xml_content +:+ nl +:+ marker) content
            else content +:+ xml_content in
          write_text content st
      end
  end.

(** ** extend.py *)

(** A [views] directory: its entries, name and text, in the order in
    which the directory is listed. *)
Abbreviation ViewsDir := (list (string * string)).

(** [path.write_text] / [open(path, 'w')] in a directory. *)
Fixpoint write_file (name content : string) (dir : ViewsDir) : ViewsDir :=
  match dir with
  | [] => [(name, content)]
  | (n, c) :: dir' =>
      if decide (n = name) then (n, content) :: dir'
      else (n, c) :: write_file name content dir'
  end.

(** [views_path.glob('*.xml')] *)
Definition glob_xml (dir : ViewsDir) : ViewsDir :=
  filter (λ f, Py.endswith ".xml" f.1) dir.

(** An addons path [p]: the path of the directory, and for each text
    [module] such that [p / module] is a directory the state of its
    [views] sub-directory ([None]: there is none).  The entries of a
    [views] directory are regular files that can be read and written.
    Two texts, or two addons paths, that name one and the same directory
    are not modelled: each entry stands for a directory of its own. *)
Definition AddonsPath : Type := string * gmap string (option ViewsDir).

(** How a command ends: in success, with an exit status, aborted at a
    prompt, or by an exception that nothing catches; [env] is the state
    of the files then.  [Beyond]: the command goes on to create
    [output_path], a path that is not a file directly in the [views]
    directory, with the text [rendered]; what [env] describes ends
    there. *)
Inductive Outcome : Type :=
  | Success (env : list AddonsPath)
  | Exit (code : nat)
  | Abort
  | Raised (exception : string) (env : list AddonsPath)
  | Beyond (output_path : PyPath.PurePath) (rendered : string).

(** What [etree.fromstring] makes of a text: the element, the
    [etree.XMLSyntaxError] of a text that is not well-formed, or another
    exception, such as the [ValueError] for a str that declares an
    encoding. *)
Inductive Fragment : Type :=
  | Parsed (element : Element)
  | SyntaxError (msg : string)
  | OtherError (msg : string).

(** The children of an element, as references. *)
Definition child_nodes (n : Node) : list Node :=
  imap (λ i c, (n.1 ++ [i], c)) (children n.2).

(** [record.find("field[@name='inherit_id']")] is there and its [ref] is
    [view_id]. *)
Definition inherits_from (view_id : string) (record : Node) : bool :=
  match filter (λ c, is_field_named "inherit_id" c) (child_nodes record) with
  | inherit_field :: _ => bool_decide (get inherit_field.2 "ref" = Some view_id)
  | [] => false
  end.

(** The [for record in root.findall(...)] loop with its [break] and
    [else]. *)
Definition find_match (view_id : string) (root : Element) : option Node :=
  head (filter (λ r, inherits_from view_id r)
          (filter (λ n, is_view_record n) (descendants ([], root)))).

Section Extend.

(** [etree.parse(path, XMLParser(remove_blank_text=True))] on the text
    of the file, where [Raise] is an [etree.XMLSyntaxError];
    [etree.fromstring]; and the text that [tree.write(path,
    pretty_print=True, xml_declaration=True, encoding='utf-8')] leaves
    in the file. *)
Variable etree_parse : string → result Element.
Variable etree_fromstring : string → Fragment.
Variable tree_write : Element → string.

(** The templates [view/xpath_field.xml.j2], applied to [xpath_expr],
    [position] and [field_name], and [view/inherited_view.xml.j2],
    applied to [view_id], [inherit_view_id], [module_name],
    [model_name] and [xpath_snippet]. *)
Variable xpath_field_template : string → string → string → string.
Variable inherited_view_template :
  string → string → string → string → string → string.

(** The user at the prompt: the text typed for a question with a
    default, and the index of the entry chosen in a list. *)
Variable user_text : string → option string → string.
Variable user_pick : string → list string → nat.

(** The body of the [try] for one file: the text to write back when
    the file is the one to update, [None] when the loop goes on, and
    [Raise] for an exception other than the [etree.XMLSyntaxError] that
    the [except] clause catches. *)
Definition try_file (view_id new_xpath_str file_text : string)
  : result (option string) :=
  match etree_parse file_text with
  | Raise _ => Ok None
  | Ok root =>
      match find_match view_id root with
      | None => Ok None
      | Some match_ =>
          match fields_named "arch" match_ with
          | [] => Ok None
          | arch_field :: _ =>
              match etree_fromstring new_xpath_str with
              | SyntaxError _ => Ok None
              | OtherError e => Raise e
              | Parsed new_xpath_element =>
                  Ok (Some (tree_write
                              (append_at arch_field.1 new_xpath_element
                                 root)))
              end
          end
      end
  end.

(** The [for xml_file in views_path.glob('*.xml')] loop: the file
    written and its new text, if the loop returns [True]. *)
Fixpoint update_first (view_id new_xpath_str : string) (files : ViewsDir)
  : result (option (string * string)) :=
  match files with
  | [] => Ok None
  | (name, file_text) :: files' =>
      match try_file view_id new_xpath_str file_text with
      | Raise e => Raise e
      | Ok (Some new_text) => Ok (Some (name, new_text))
      | Ok None => update_first view_id new_xpath_str files'
      end
  end.

(** Takes the state of [module_path / 'views'] and gives the returned
    flag and the state afterwards, or the exception that leaves the
    function, which has written nothing then. *)
Definition _find_and_update_view_file (views : option ViewsDir)
    (view_id new_xpath_str : string) : result (bool * option ViewsDir) :=
  match views with
  | None => Ok (false, views)
  | Some dir =>
      match update_first view_id new_xpath_str (glob_xml dir) with
      | Raise e => Raise e
      | Ok (Some (name, new_text)) =>
          Ok (true, Some (write_file name new_text dir))
      | Ok None => Ok (false, views)
      end
  end.

(** interactive.py *)
Definition prompt_for_choice (prompt_text : string) (choices : list string)
  : option string :=
  match choices with
  | [] => None
  | c :: _ => Some (default c (choices !! user_pick prompt_text choices))
  end.

Definition prompt_for_text (prompt_text : string) (default : option string)
  : string :=
  user_text prompt_text default.

Definition POSITIONS : list string := ["after"; "before"; "inside"; "replace"].

(** [next((p / module for p in all_addons_paths if (p / module).is_dir()),
    None)]: the index of the addons path and the [views] directory of
    the module. *)
Fixpoint find_module (module : string) (i : nat) (env : list AddonsPath)
  : option (nat * option ViewsDir) :=
  match env with
  | [] => None
  | (_, dirs) :: env' =>
      match dirs !! module with
      | Some views => Some (i, views)
      | None => find_module module (S i) env'
      end
  end.

Definition set_views (i : nat) (module : string) (views : option ViewsDir)
    (env : list AddonsPath) : list AddonsPath :=
  alter (λ ap : AddonsPath, (ap.1, <[module := views]> ap.2)) i env.

(** The addons path at an index of [all_addons_paths]. *)
Definition addons_path_at (i : nat) (env : list AddonsPath)
  : PyPath.PurePath :=
  PyPath.parse (default "" (fst <$> env !! i)).

(** [module_path / 'views' / new_file_name] for the module [module] of
    the addons path at index [i]. *)
Definition output_path_of (i : nat) (module new_file_name : string)
    (env : list AddonsPath) : PyPath.PurePath :=
  PyPath.join (PyPath.join (PyPath.join (addons_path_at i env) module) "views")
    new_file_name.

(** [view] from the point where the six options have their values.
    [env] is [all_addons_paths] with what each of them holds.  A new
    file name without a slash names a file directly in the [views]
    directory, which [render_template] creates when it is missing. *)
Definition extend_view (module view_id model_name field xpath_expr
    position : string) (project_root : string) (env : list AddonsPath)
  : Outcome :=
  match find_module module 0 env with
  | None => Exit 1
  | Some (i, views) =>
      let xpath_str := xpath_field_template xpath_expr position field in
      match _find_and_update_view_file views view_id xpath_str with
      | Raise e => Raised e env
      | Ok (true, views) => Success (set_views i module views env)
      | Ok (false, views) =>
          let module_path := PyPath.join (addons_path_at i env) module in
          let view_name_part := Py.split_last "." view_id in
          let inherit_view_id :=
            module +:+ "." +:+ view_name_part +:+ "_inherit_"
            +:+ PyPath.name module_path in
          let new_file_name := view_name_part +:+ "_inherited_views.xml" in
          let output_path := output_path_of i module new_file_name env in
          let rendered :=
            inherited_view_template view_id inherit_view_id module model_name
              xpath_str in
          if Py.has_char "/" new_file_name then Beyond output_path rendered
          else
            let env :=
              set_views i module
                (Some (write_file new_file_name rendered (default [] views)))
                env in
            match
              PyPath.relative_to output_path (PyPath.parse project_root)
            with
            | Some _ => Success env
            | None => Raised "ValueError" env
            end
      end
  end.

(** [value] when it is given and not empty, else what the prompt
    returns. *)
Definition or_prompt (value : option string) (prompt : option string)
  : option string :=
  if Py.truthy value then value else prompt.

(** [project_root] and [env] are what [view] computes from the
    [--addons-path] option before it looks at the others. *)
Definition view (module view_id model_name field xpath_expr position
    : option string) (project_root : string) (env : list AddonsPath)
  : Outcome :=
  let all_modules :=
    (λ ap : AddonsPath, PyPath.name (PyPath.parse ap.1)) <$> env in
  match
    or_prompt module
      (prompt_for_choice
         "In which module should this view extension be created?"
         all_modules)
  with
  | None => Abort
  | Some module =>
      let view_id :=
        if Py.truthy view_id then default "" view_id
        else prompt_for_text
               "What is the External XML ID of the view to extend?"
               (Some "base.view_partner_form") in
      let model_name :=
        if Py.truthy model_name then default "" model_name
        else prompt_for_text "What is the technical name of the model?"
               (Some "res.partner") in
      let field :=
        if Py.truthy field then default "" field
        else prompt_for_text "What is the name of the new field to add?"
               None in
      let xpath_expr :=
        if Py.truthy xpath_expr then default "" xpath_expr
        else prompt_for_text
               "Enter the XPath expression to target an element"
               (Some "//field[@name='vat']") in
      match
        or_prompt position
          (prompt_for_choice "Select a position for the new field" POSITIONS)
      with
      | None => Abort
      | Some position =>
          extend_view module view_id model_name field xpath_expr position
            project_root env
      end
  end.

End Extend.

(** ** Vocabulary of the properties *)

(** The findings of the two structural rules on view records. *)
Definition is_missing_id (f : Finding) : bool :=
  match f with MissingId _ => true | _ => false end.

Definition is_missing_field (f : Finding) : bool :=
  match f with MissingField _ _ _ => true | _ => false end.

(** Neither of the two structural findings. *)
Definition other_finding (f : Finding) : Prop :=
  ¬ is_missing_id f ∧ ¬ is_missing_field f.

(** The arch field of a record, as the code takes it: the first
    [field] named [arch] below the record. *)
Definition arch_of (record : Node) : option Node :=
  head (fields_named "arch" record).

(** The classifier's search as the specification words it: [t] is the
    first tag, in the priority order, with an element below [scope]. *)
Definition first_match (scope : Node) (t : string) : Prop :=
  ∃ i, VIEW_TYPES !! i = Some t
       ∧ elements_below t scope ≠ []
       ∧ ∀ j t', j < i → VIEW_TYPES !! j = Some t' →
                 elements_below t' scope = [].

Definition no_match (scope : Node) : Prop :=
  ∀ t, t ∈ VIEW_TYPES → elements_below t scope = [].

Definition record_match (record : Node) (t : string) : Prop :=
  ∃ arch_content, arch_of record = Some arch_content
                  ∧ first_match arch_content t.

Definition record_no_match (record : Node) : Prop :=
  ∀ arch_content, arch_of record = Some arch_content → no_match arch_content.

(** The classifier as the claim words it, on the positions of the
    document and on nothing else of the code.

    Document order on positions: an element comes before the elements
    below it, and before its later siblings and what is below them. *)
Fixpoint path_before (p q : Path) : bool :=
  match p, q with
  | [], [] => false
  | [], _ :: _ => true
  | _ :: _, [] => false
  | i :: p', j :: q' =>
      if decide (i = j) then path_before p' q' else bool_decide (i < j)
  end.

(** Document order on element references. *)
Definition comes_before (a b : Node) : Prop := path_before a.1 b.1 = true.

(** There is an element at [p], and it satisfies [P]. *)
Definition element_at (root : Element) (p : Path) (P : Element → Prop)
  : Prop :=
  ∃ e, subtree p root = Some e ∧ P e.

Definition strictly_below (p q : Path) : Prop := ∃ r, r ≠ [] ∧ q = p ++ r.

(** The view tags in their priority order. *)
Definition PRIORITY_ORDER : list string :=
  ["list"; "tree"; "form"; "search"; "kanban"; "graph"; "pivot";
   "calendar"; "activity"].

Definition view_record_at (root : Element) (p : Path) : Prop :=
  element_at root p
    (λ e, tag e = "record" ∧ get e "model" = Some "ir.ui.view").

Definition arch_field_at (root : Element) (a : Path) : Prop :=
  element_at root a (λ e, tag e = "field" ∧ get e "name" = Some "arch").

(** [a] is the arch field of the record at [p]: the first field named
    [arch] below it. *)
Definition arch_of_record (root : Element) (p a : Path) : Prop :=
  strictly_below p a ∧ arch_field_at root a
  ∧ ∀ a', strictly_below p a' → arch_field_at root a' →
          a' = a ∨ path_before a a' = true.

(** Some element strictly below [scope] has the tag [t]. *)
Definition tag_below (root : Element) (scope : Path) (t : string) : Prop :=
  ∃ q, strictly_below scope q ∧ element_at root q (λ e, tag e = t).

(** [t] is the first tag of the priority order with an element
    strictly below [scope]. *)
Definition first_tag_below (root : Element) (scope : Path) (t : string)
  : Prop :=
  ∃ i, PRIORITY_ORDER !! i = Some t
       ∧ tag_below root scope t
       ∧ ∀ j t', j < i → PRIORITY_ORDER !! j = Some t' →
                 ¬ tag_below root scope t'.

(** The record at [p] gives the tag [t]: the search below its arch
    field finds [t] first. *)
Definition record_gives (root : Element) (p : Path) (t : string) : Prop :=
  view_record_at root p
  ∧ ∃ a, arch_of_record root p a ∧ first_tag_below root a t.

(** [tree] read as [list]. *)
Definition as_list (t : string) : string :=
  if decide (t = "tree") then "list" else t.

(** How many times the element at position [p] is in a list of element
    references. *)
Definition times_in (p : Path) (l : list Node) : nat :=
  length (filter (λ n : Node, n.1 = p) l).

(** [p] lies strictly below the arch field of [record]. *)
Definition arch_encloses (p : Path) (record : Node) : bool :=
  match arch_of record with
  | Some arch_content =>
      bool_decide (arch_content.1 `prefix_of` p)
      && bool_decide (arch_content.1 ≠ p)
  | None => false
  end.

(** The file is one that [extend] updates: it parses and the first
    record inheriting from [view_id] in it has an arch field.  Gives the
    root, the record and the arch field. *)
Definition update_target (etree_parse : string → result Element)
    (view_id file_text : string) : option (Element * Node * Node) :=
  match etree_parse file_text with
  | Raise _ => None
  | Ok root =>
      match find_match view_id root with
      | None => None
      | Some match_ =>
          match arch_of match_ with
          | None => None
          | Some arch_field => Some (root, match_, arch_field)
          end
      end
  end.

(** The text of a file of a directory. *)
Definition read_file (name : string) (dir : ViewsDir) : option string :=
  snd <$> head (filter (λ f, f.1 = name) dir).

(** ** Sample inputs

    Small documents, and stand-ins for the libraries and templates, on
    which the definitions above are run. *)

Module Sample.

Definition el (t : string) (a : list (string * string)) (cs : list Element)
  : Element :=
  Elem t a None None cs.

Definition arch_field (cs : list Element) : Element :=
  el "field" [("name", "arch")] cs.

Definition view_record (a : list (string * string)) (cs : list Element)
  : Element :=
  el "record" (("model", "ir.ui.view") :: a) cs.

Definition inherit_id (ref : string) : Element :=
  el "field" [("name", "inherit_id"); ("ref", ref)] [].

(** The fragment a request for field [f] at [x], [p] stands for. *)
Definition xpath_element (x p f : string) : Element :=
  el "xpath" [("expr", x); ("position", p)] [el "field" [("name", f)] []].

(** A view inheriting from [base.view_partner_form], with one xpath
    already in its arch. *)
Definition inheriting_doc : Element :=
  el "odoo" []
    [view_record [("id", "view_partner_form_inherit_sale_ext")]
       [inherit_id "base.view_partner_form";
        arch_field [xpath_element "//field[@name='vat']" "after" "x_code"]]].

(** The same record without its arch field. *)
Definition no_arch_doc : Element :=
  el "odoo" []
    [view_record [("id", "view_partner_form_inherit_sale_ext")]
       [inherit_id "base.view_partner_form"]].

(** [<odoo><record model="ir.ui.view"><field name="arch"><tree/></field>
    </record></odoo>] *)
Definition tree_doc : Element :=
  el "odoo" [] [view_record [] [arch_field [el "tree" [] []]]].

(** A view record whose arch holds another view record, with a [list]
    in the arch of the inner one. *)
Definition nested_doc : Element :=
  el "odoo" []
    [view_record [("id", "outer")]
       [arch_field
          [view_record [("id", "inner")] [arch_field [el "list" [] []]]]]].

(** A [list] in a record and another one outside any record. *)
Definition mixed_doc : Element :=
  el "odoo" []
    [view_record [("id", "v")] [arch_field [el "list" [] []]];
     el "list" [] []].

(** A view record with nothing in it: no id, no field, no view
    element. *)
Definition bare_record_doc : Element :=
  el "odoo" [] [view_record [] []].

(** A document that is a view element and nothing else. *)
Definition bare_form_doc : Element := el "form" [("string", "Partner")] [].

(** A [form] outside the records, a record whose arch holds a [graph],
    and a record whose arch holds a [kanban] and a [list]. *)
Definition two_records_doc : Element :=
  el "odoo" []
    [el "form" [] [];
     view_record [("id", "first")]
       [arch_field [el "graph" [] []]];
     view_record [("id", "second")]
       [arch_field [el "kanban" [] []; el "list" [] []]]].

(** A record whose arch holds a [kanban] and then a [tree]. *)
Definition kanban_tree_doc : Element :=
  el "odoo" []
    [view_record [("id", "v")]
       [arch_field [el "kanban" [] []; el "tree" [] []]]].

(** A [search] and then a [form], in no record. *)
Definition search_form_doc : Element :=
  el "data" [] [el "search" [] []; el "form" [] []].

(** A view record whose [id] is there and empty, with its three
    fields. *)
Definition empty_id_doc : Element :=
  el "odoo" []
    [view_record [("id", "")]
       [el "field" [("name", "name")] [];
        el "field" [("name", "model")] [];
        arch_field [el "form" [("string", "Partner")] []]]].

(** A view record with no child field named [name]: the only field of
    that name is a field of the form, inside the arch. *)
Definition masked_name_doc : Element :=
  el "odoo" []
    [view_record [("id", "view_partner_form")]
       [el "field" [("name", "model")] [];
        arch_field
          [el "form" [("string", "Partner")]
             [el "field" [("name", "name")] []]]]].

Fixpoint write_attrs (a : list (string * string)) : string :=
  match a with
  | [] => EmptyString
  | (k, v) :: a' => " " +:+ k +:+ "=" +:+ dq +:+ v +:+ dq +:+ write_attrs a'
  end.

(** A serialiser. *)
Fixpoint write (e : Element) : string :=
  "<" +:+ tag e +:+ write_attrs (attrib e) +:+ ">"
  +:+ default "" (text e)
  +:+ (fix go (cs : list Element) : string :=
         match cs with
         | [] => EmptyString
         | c :: cs' => write c +:+ go cs'
         end) (children e)
  +:+ "</" +:+ tag e +:+ ">".

(** A parser that knows the texts of a few documents. *)
Definition parse_known (known : list Element) (s : string) : result Element :=
  match filter (λ e, write e = s) known with
  | e :: _ => Ok e
  | [] => Raise "XMLSyntaxError"
  end.

Definition parse : string → result Element :=
  parse_known
    [inheriting_doc; no_arch_doc; tree_doc; nested_doc; mixed_doc;
     bare_record_doc; bare_form_doc; empty_id_doc; masked_name_doc].

Definition fromstring : string → result Element :=
  parse_known
    [xpath_element "//field[@name='vat']" "after" "x_ref";
     xpath_element "//field[@name='vat']" "sideways" "x_ref";
     tree_doc; nested_doc; mixed_doc].

(** [view/xpath_field.xml.j2] *)
Definition xpath_field (xpath_expr position field_name : string) : string :=
  write (xpath_element xpath_expr position field_name).

(** A fragment template that leaves its element open. *)
Definition broken_xpath_field (xpath_expr position field_name : string)
  : string :=
  "<xpath expr=" +:+ dq +:+ xpath_expr +:+ dq +:+ ">".

(** [view/inherited_view.xml.j2] *)
Definition inherited_view
    (view_id inherit_view_id module_name model_name xpath_snippet : string)
  : string :=
  "<odoo><record id=" +:+ dq +:+ inherit_view_id +:+ dq
  +:+ " model=" +:+ dq +:+ "ir.ui.view" +:+ dq +:+ ">"
  +:+ "<field name=" +:+ dq +:+ "model" +:+ dq +:+ ">" +:+ model_name
  +:+ "</field>"
  +:+ "<field name=" +:+ dq +:+ "inherit_id" +:+ dq
  +:+ " ref=" +:+ dq +:+ view_id +:+ dq +:+ "/>"
  +:+ "<field name=" +:+ dq +:+ "arch" +:+ dq +:+ ">" +:+ xpath_snippet
  +:+ "</field></record></odoo>".

(** A user who accepts every default and takes the first choice. *)
Definition user_text (prompt_text : string) (default_answer : option string)
  : string :=
  default "" default_answer.

Definition user_pick (prompt_text : string) (choices : list string) : nat := 0.

(** [etree.fromstring] for the merge engine: a str that declares an
    encoding is refused with a [ValueError]. *)
Definition fragment (s : string) : Fragment :=
  if Py.startswith "<?xml" s && Py.contains "encoding=" s
  then OtherError
         "Unicode strings with encoding declaration are not supported."
  else match fromstring s with
       | Ok e => Parsed e
       | Raise msg => SyntaxError msg
       end.

(** A project [/home/dev/project] whose addons path
    [/home/dev/project/addons] has the module [sale_ext], with the given
    files in its [views] directory. *)
Definition project_root : string := "/home/dev/project".

Definition addons_with (dir : ViewsDir) : list AddonsPath :=
  [("/home/dev/project/addons", {["sale_ext" := Some dir]})].

(** A network that is down, and one that serves a fixed text. *)
Definition http_down (history : list string) (url : string) : result string :=
  Raise "ConnectionError".

Definition http_up (history : list string) (url : string) : result string :=
  Ok "<grammar/>".

(** A network that fails once and works from then on. *)
Definition http_flaky (history : list string) (url : string) : result string :=
  match history with
  | [] => Raise "Timeout"
  | _ :: _ => Ok "<grammar/>"
  end.

(** A validator that finds one violation in every element. *)
Definition relaxng (common_schema view_schema : string) : result Validator :=
  Ok (λ _, (false, ["Element not expected"])).

Definition empty_world : World := mkWorld ∅ [].

End Sample.

(** ** Class names *)

(** [_to_class_name] of add_xml.py and add.py. *)
Definition _to_class_name (name : string) : string :=
  Py.join "" (PyText.capitalize <$> PyText.split "." name).

(** ** discovery.py *)

(** A directory: the names of its files and its sub-directories, in the
    order in which they are listed. *)
#[warnings="-register-all"]
Inductive Dir : Type :=
  MkDir {
    dir_files : list string;
    dir_subdirs : list (string * Dir)
  }.

(** The first sub-directory with a name. *)
Fixpoint subdir (name : string) (subdirs : list (string * Dir)) : option Dir :=
  match subdirs with
  | [] => None
  | (n, d) :: subdirs' =>
      if decide (n = name) then Some d else subdir name subdirs'
  end.

(** The directory at an absolute path, given as its components from
    the root [fs] of the file system down. *)
Fixpoint dir_at (fs : Dir) (path : list string) : option Dir :=
  match path with
  | [] => Some fs
  | name :: path' => subdir name (dir_subdirs fs) ≫= λ d, dir_at d path'
  end.

(** [(path / '.git').is_dir() or (path / 'odoo.conf').is_file()] *)
Definition is_project_root (fs : Dir) (path : list string) : bool :=
  match dir_at fs path with
  | Some d =>
      bool_decide (is_Some (subdir ".git" (dir_subdirs d)))
      || bool_decide ("odoo.conf" ∈ dir_files d)
  | None => false
  end.

(** The [while path.parent != path] loop, on the components of the path
    from the last one up: the loop stops, without a test, at the root,
    which has no component. *)
Fixpoint find_project_root_up (fs : Dir) (components_up : list string)
  : option (list string) :=
  match components_up with
  | [] => None
  | _ :: parent_up =>
      if is_project_root fs (reverse components_up)
      then Some (reverse components_up)
      else find_project_root_up fs parent_up
  end.

(** Takes the resolved, absolute [start_path]. *)
Definition find_project_root (fs : Dir) (start_path : list string)
  : option (list string) :=
  find_project_root_up fs (reverse start_path).

Section Walk.
Variable walk : list string → Dir → list (list string * Dir).

Fixpoint walk_subdirs (path : list string) (subdirs : list (string * Dir))
  : list (list string * Dir) :=
  match subdirs with
  | [] => []
  | (name, d) :: subdirs' =>
      walk (path ++ [name]) d ++ walk_subdirs path subdirs'
  end.
End Walk.

(** [os.walk(path)], top down: the directory, then what is below each
    of its sub-directories. *)
Fixpoint os_walk (path : list string) (d : Dir) {struct d}
  : list (list string * Dir) :=
  (path, d) :: walk_subdirs os_walk path (dir_subdirs d).

(** [Path(root).parent]: the root is its own parent. *)
Definition parent (path : list string) : list string := removelast path.

(** The body of the loop of [find_addons_paths]. *)
Definition add_addons_path (addons_paths : list (list string))
    (visited : list string * Dir) : list (list string) :=
  if bool_decide ("__manifest__.py" ∈ dir_files visited.2) then
    let addons_path := parent visited.1 in
    if bool_decide (addons_path ∈ addons_paths) then addons_paths
    else addons_paths ++ [addons_path]
  else addons_paths.

Definition find_addons_paths (fs : Dir) (project_root : list string)
  : list (list string) :=
  match dir_at fs project_root with
  | Some d => foldl add_addons_path [] (os_walk project_root d)
  | None => []
  end.

(** ** lint.py: the loop of the [views] and [xml] commands *)

Section LintRun.

Variable http_get : list string → string → result string.
Variable etree_parse : string → result Element.
Variable etree_fromstring : string → result Element.
Variable etree_tostring : Element → string.
Variable common_schema_path : string.
Variable RelaxNG : string → string → result Validator.

(** The [for xml_file in files_to_lint] loop, on the texts of the
    files: the two counters and the state at the end. *)
Fixpoint lint_loop (files_to_lint : list string)
    (validate_views skip_rng : bool) (total_errors files_with_errors : nat)
    (w : World) : nat * nat * World :=
  match files_to_lint with
  | [] => (total_errors, files_with_errors, w)
  | xml_file :: files' =>
      let '(errors, w) :=
        lint_xml_file http_get etree_parse etree_fromstring etree_tostring
          common_schema_path RelaxNG xml_file validate_views skip_rng w in
      match errors with
      | [] =>
          lint_loop files' validate_views skip_rng total_errors
            files_with_errors w
      | _ :: _ =>
          lint_loop files' validate_views skip_rng
            (total_errors + length errors) (files_with_errors + 1) w
      end
  end.

(** The exit status of [views] and [xml] once [files_to_lint] is
    known: 1 when [total_errors > 0]. *)
Definition lint_exit_status (files_to_lint : list string)
    (validate_views skip_rng : bool) (w : World) : nat * World :=
  let '(total_errors, _, w) :=
    lint_loop files_to_lint validate_views skip_rng 0 0 w in
  (if bool_decide (0 < total_errors) then 1 else 0, w).

(** The findings of each file of a run, in order, for the statements
    about the loop. *)
Fixpoint lint_each (files_to_lint : list string)
    (validate_views skip_rng : bool) (w : World)
  : list (list Finding) * World :=
  match files_to_lint with
  | [] => ([], w)
  | xml_file :: files' =>
      let '(errors, w) :=
        lint_xml_file http_get etree_parse etree_fromstring etree_tostring
          common_schema_path RelaxNG xml_file validate_views skip_rng w in
      let '(rest, w) := lint_each files' validate_views skip_rng w in
      (errors :: rest, w)
  end.

End LintRun.

(** ** add_xml.py: several fragments for one file *)

(** [_append_xml_to_file] called on the same path once for each
    fragment, in order, as [action] and [menu] do for
    [views/actions_and_menus.xml]; the first exception ends the run. *)
Fixpoint append_all (fragments : list string) (st : FileState)
  : result FileState :=
  match fragments with
  | [] => Ok st
  | xml_content :: fragments' =>
      match _append_xml_to_file xml_content st with
      | Raise e => Raise e
      | Ok st => append_all fragments' st
      end
  end.

(** Each fragment followed by a line feed. *)
Fixpoint fragment_lines (fragments : list string) : string :=
  match fragments with
  | [] => EmptyString
  | x :: fragments' => x +:+ nl +:+ fragment_lines fragments'
  end.

(** Number of occurrences of a character. *)
Fixpoint count_char (c : ascii) (s : string) : nat :=
  match s with
  | EmptyString => 0
  | String a s' => (if decide (a = c) then 1 else 0) + count_char c s'
  end.

(** ** More vocabulary *)

Definition is_deprecated_tree (f : Finding) : bool :=
  match f with DeprecatedTree _ => true | _ => false end.

Definition is_deprecated_states (f : Finding) : bool :=
  match f with DeprecatedStates _ _ _ => true | _ => false end.

Definition is_deprecated_attrs (f : Finding) : bool :=
  match f with DeprecatedAttrs _ _ _ => true | _ => false end.

Definition is_missing_string (f : Finding) : bool :=
  match f with MissingString _ _ => true | _ => false end.

(** The eight view types. *)
Definition KNOWN_VIEW_TYPES : list string :=
  ["list"; "form"; "search"; "kanban"; "graph"; "pivot"; "calendar";
   "activity"].

(** Every request went to the address of a cached key, and no address
    was asked twice. *)
Definition fetched_once (w : World) : Prop :=
  NoDup (requests w)
  ∧ ∀ url, url ∈ requests w →
           ∃ k, RNG_SCHEMA_URLS !! k = Some url
                ∧ is_Some (schema_cache w !! k).

(** A network on which every request succeeds. *)
Definition reliable (http_get : list string → string → result string)
  : Prop :=
  ∀ history url, ∃ body, http_get history url = Ok body.

(** More sample inputs. *)
Module Fixture.

(** [/home/dev/project] with [.git], an [addons] directory with the
    modules [sale_ext] and [stock_ext], and a stray [odoo.conf] next to
    [/etc]. *)
Definition module_dir : Dir := MkDir ["__manifest__.py"; "__init__.py"] [].

Definition project : Dir :=
  MkDir ["README.md"]
    [(".git", MkDir [] []);
     ("addons", MkDir [] [("sale_ext", module_dir); ("stock_ext", module_dir)]);
     ("extra", MkDir [] [("crm_ext", module_dir)])].

Definition disk : Dir :=
  MkDir ["odoo.conf"]
    [("etc", MkDir [] []);
     ("home", MkDir [] [("dev", MkDir [] [("project", project)])])].

(** The text [Sample.inherited_view] writes for [x_code] after [vat] in
    the module [sale_ext], and the document it is. *)
Definition created_text : string :=
  Sample.inherited_view "base.view_partner_form"
    "sale_ext.view_partner_form_inherit_sale_ext" "sale_ext" "res.partner"
    (Sample.xpath_field "//field[@name='vat']" "after" "x_code").

Definition created_doc : Element :=
  Sample.el "odoo" []
    [Sample.el "record"
       [("id", "sale_ext.view_partner_form_inherit_sale_ext");
        ("model", "ir.ui.view")]
       [Elem "field" [("name", "model")] (Some "res.partner") None [];
        Sample.inherit_id "base.view_partner_form";
        Sample.arch_field
          [Sample.xpath_element "//field[@name='vat']" "after" "x_code"]]].

(** [Sample.parse], which also reads [created_text]. *)
Definition parse (s : string) : result Element :=
  if decide (s = created_text) then Ok created_doc else Sample.parse s.

End Fixture.

(** * Properties *)

(** ** Strings *)

#[local] Arguments String.append !_ _ / : simpl nomatch.

Lemma app_assoc_s (a b c : string) : (a +:+ b) +:+ c = a +:+ b +:+ c.
Proof. induction a as [|x a IH]; simpl; [done|]. by f_equal. Qed.

Lemma app_empty_r_s (a : string) : a +:+ "" = a.
Proof. induction a as [|x a IH]; simpl; [done|]. by f_equal. Qed.

Lemma startswith_app (sub b : string) : Py.startswith sub (sub +:+ b) = true.
Proof.
  induction sub as [|x sub IH]; simpl; [done|].
  by rewrite decide_True.
Qed.

Lemma startswith_weaken (sub a b : string) :
  Py.startswith sub a = true → Py.startswith sub (a +:+ b) = true.
Proof.
  revert a. induction sub as [|x sub IH]; intros [|y a]; simpl; try done.
  case_decide; [apply IH|done].
Qed.

(** A prefix of [a +:+ s] is a prefix of [a], or [a] and then a
    non-empty prefix of [s]. *)
Lemma startswith_app_inv (m a s : string) :
  Py.startswith m (a +:+ s) = true →
  Py.startswith m a = true
  ∨ ∃ m2, m = a +:+ m2 ∧ m2 ≠ "" ∧ Py.startswith m2 s = true.
Proof.
  revert m. induction a as [|y a IH]; intros m H.
  - destruct m as [|x m]; [by left|].
    right. exists (String x m). by simpl in *.
  - destruct m as [|x m]; [by left|].
    simpl in *. case_decide as Hxy; [|done]. subst y.
    destruct (IH m H) as [Hl|(m2 & -> & Hne & Hs)]; [by left|].
    right. by exists m2.
Qed.

Lemma contains_here (sub s : string) :
  Py.startswith sub s = true → Py.contains sub s = true.
Proof. intros H. destruct s; simpl in *; by rewrite H. Qed.

Lemma contains_cons (sub : string) (c : ascii) (s : string) :
  Py.contains sub s = true → Py.contains sub (String c s) = true.
Proof. intros H. simpl. rewrite H. apply orb_true_r. Qed.

Lemma contains_app (sub a b : string) :
  Py.contains sub (a +:+ sub +:+ b) = true.
Proof.
  induction a as [|x a IH]; simpl.
  - apply contains_here, startswith_app.
  - fold (Py.contains sub (a +:+ sub +:+ b)). rewrite IH. apply orb_true_r.
Qed.

Lemma contains_false_cons (sub : string) (c : ascii) (s : string) :
  Py.contains sub (String c s) = false →
  Py.startswith sub (String c s) = false ∧ Py.contains sub s = false.
Proof. simpl. intros H. by apply orb_false_elim in H. Qed.

Lemma join_elem (sep : string) (l : list string) (x : string) :
  x ∈ l → ∃ a b, Py.join sep l = a +:+ x +:+ b.
Proof.
  induction l as [|y l IH]; [by intros ?%elem_of_nil|].
  intros [->|Hx]%elem_of_cons.
  - destruct l as [|z l].
    + exists "", "". simpl. by rewrite app_empty_r_s.
    + exists "", (sep +:+ Py.join sep (z :: l)). done.
  - destruct (IH Hx) as (a & b & Hab). destruct l as [|z l].
    + by apply elem_of_nil in Hx.
    + exists (y +:+ sep +:+ a), b.
      change (Py.join sep (y :: z :: l))
        with (y +:+ sep +:+ Py.join sep (z :: l)).
      by rewrite Hab, !app_assoc_s.
Qed.

Lemma join_contains (sep : string) (l : list string) (x : string) :
  x ∈ l → Py.contains x (Py.join sep l) = true.
Proof.
  intros (a & b & ->)%(join_elem sep). apply contains_app.
Qed.

(** [replace_go] drops the rest of an occurrence it has replaced. *)
Lemma replace_go_skip (old new a s : string) :
  Py.replace_go old new (String.length a) (a +:+ s)
  = Py.replace_go old new 0 s.
Proof. induction a as [|x a IH]; simpl; [by destruct s|done]. Qed.

Lemma replace_go_absent (old new s : string) :
  Py.contains old s = false → Py.replace_go old new 0 s = s.
Proof.
  induction s as [|c s IH]; [done|].
  intros [Hs Hc]%contains_false_cons.
  cbn [Py.replace_go]. rewrite Hs. by rewrite IH.
Qed.

(** The closing tag of the wrapper cannot start inside a text and end
    inside a closing tag that follows it. *)
Lemma marker_no_straddle (a s : string) :
  a ≠ "" →
  Py.startswith "</odoo>" (a +:+ "</odoo>" +:+ s) = true →
  Py.startswith "</odoo>" a = true.
Proof.
  intros Ha H. apply startswith_app_inv in H as [H|(m2 & Hm & Hne & Hs)];
    [done|].
  exfalso.
  repeat (destruct a as [|? a]; simpl in Hm;
          [first [done | subst m2; simpl in Hs; by repeat case_decide]
          |injection Hm as <- Hm]).
  destruct a; [|done]. simpl in Hm. by subst m2.
Qed.

Lemma replace_go_here (c : ascii) (old' new s : string) :
  Py.replace_go (String c old') new 0 (String c old' +:+ s)
  = new +:+ Py.replace_go (String c old') new 0 s.
Proof.
  change (String c old' +:+ s) with (String c (old' +:+ s)).
  cbn [Py.replace_go].
  change (String c (old' +:+ s)) with (String c old' +:+ s).
  rewrite startswith_app. f_equal.
  replace (String.length (String c old') - 1) with (String.length old')
    by (simpl; lia).
  apply replace_go_skip.
Qed.

(** [replace] on a text with exactly one closing tag. *)
Lemma replace_marker_once (new pre post : string) :
  Py.contains "</odoo>" pre = false →
  Py.contains "</odoo>" post = false →
  Py.replace "</odoo>" new (pre +:+ "</odoo>" +:+ post) = pre +:+ new +:+ post.
Proof.
  intros Hpre Hpost.
  change (Py.replace "</odoo>" new (pre +:+ "</odoo>" +:+ post))
    with (Py.replace_go "</odoo>" new 0 (pre +:+ "</odoo>" +:+ post)).
  induction pre as [|x pre IH].
  - change ("" +:+ "</odoo>" +:+ post) with ("</odoo>" +:+ post).
    rewrite replace_go_here. by rewrite replace_go_absent.
  - apply contains_false_cons in Hpre as [Hs Hc].
    change (String x pre +:+ "</odoo>" +:+ post)
      with (String x (pre +:+ "</odoo>" +:+ post)).
    cbn [Py.replace_go].
    destruct (Py.startswith "</odoo>" (String x (pre +:+ "</odoo>" +:+ post)))
      eqn:Hst.
    + apply (marker_no_straddle (String x pre)) in Hst; [congruence|done].
    + rewrite (IH Hc). done.
Qed.

Lemma startswith_sep (m : string) (c : ascii) (a b : string) :
  Py.has_char c m = false →
  Py.startswith m (a +:+ String c b) = Py.startswith m a.
Proof.
  revert a. induction m as [|x m IH]; intros a Hc; [by destruct a|].
  simpl in Hc. apply orb_false_elim in Hc as [Hx Hm].
  apply bool_decide_eq_false in Hx.
  destruct a as [|y a]; simpl.
  - by rewrite decide_False.
  - case_decide; [by apply IH|done].
Qed.

Lemma occurrences_absent (sub s : string) :
  Py.contains sub s = false → Py.occurrences sub s = 0.
Proof.
  induction s as [|c s IH].
  - simpl. intros H. apply orb_false_elim in H as [-> _]. done.
  - intros [Hs Hc]%contains_false_cons.
    cbn [Py.occurrences]. rewrite Hs, (IH Hc). done.
Qed.

(** A character that is not in [m] separates the occurrences of [m]. *)
Lemma occurrences_sep (m : string) (c : ascii) (a b : string) :
  m ≠ "" → Py.has_char c m = false →
  Py.occurrences m (a +:+ String c b)
  = Py.occurrences m a + Py.occurrences m b.
Proof.
  intros Hm Hc. induction a as [|y a IH].
  - change ("" +:+ String c b) with (String c b).
    cbn [Py.occurrences].
    rewrite <- (startswith_sep m c "" b Hc).
    change ("" +:+ String c b) with (String c b).
    destruct m; [done|]. simpl. lia.
  - change (String y a +:+ String c b) with (String y (a +:+ String c b)).
    cbn [Py.occurrences].
    change (String y (a +:+ String c b)) with (String y a +:+ String c b).
    rewrite (startswith_sep m c (String y a) b Hc), IH. lia.
Qed.

Lemma occurrences_marker_head (post : string) :
  Py.occurrences "</odoo>" ("</odoo>" +:+ post)
  = 1 + Py.occurrences "</odoo>" post.
Proof.
  simpl. repeat (rewrite decide_True by done).
  repeat (rewrite decide_False by done). simpl. done.
Qed.

(** ** C3: the wrapper of the documents written by [_append_xml_to_file] *)

(** C3.  The code on a file that is not empty and has no closing tag of
    the wrapper: the new content is appended after the text of the
    file, and the text written has no wrapper at all, neither an opening
    nor a closing tag, where the function is documented as appending
    inside the [<odoo>] tag. *)
Lemma append_to_unwrapped_file_has_no_wrapper :
  _ensure_xml_data_wrapper (Regular "<data></data>")
  = Ok (Regular "<data></data>")
  ∧ _append_xml_to_file "<record/>" (Regular "<data></data>")
    = Ok (Regular "<data></data><record/>")
  ∧ Py.occurrences "</odoo>" "<data></data><record/>" = 0
  ∧ Py.occurrences "<odoo" "<data></data><record/>" = 0.
Proof. vm_compute. done. Qed.

(** ** C7: the notes on [|] and [&] in the suggestion for [attrs] *)

(** C7, as stated, fails: a value with [|] (or [&]) in which none of
    [invisible], [readonly], [required] is recognised gets the generic
    suggestion, which carries no note. *)
Lemma attrs_note_counterexample :
  Py.contains "|" "['|', ('a', '=', 1), ('b', '=', 2)]" = true
  ∧ get_attrs_replacement_suggestion "['|', ('a', '=', 1), ('b', '=', 2)]"
    = GENERIC_SUGGESTION
  ∧ Py.contains NOTE_OR GENERIC_SUGGESTION = false
  ∧ Py.contains "&" "{'invisible': ['&', ['a', '=', 1], ['b', '=', 2]]}" = true
  ∧ get_attrs_replacement_suggestion
      "{'invisible': ['&', ['a', '=', 1], ['b', '=', 2]]}"
    = GENERIC_SUGGESTION
  ∧ Py.contains NOTE_AND GENERIC_SUGGESTION = false.
Proof. vm_compute. done. Qed.

Lemma add_note_keeps (mark note v : string) (l : list string) (x : string) :
  x ∈ l → x ∈ add_note mark note v l.
Proof.
  intros Hx. unfold add_note. destruct (Py.contains mark v); [|done].
  destruct l; [done|]. apply elem_of_app. by left.
Qed.

Lemma add_note_adds (mark note v : string) (l : list string) :
  Py.contains mark v = true → l ≠ [] → note ∈ add_note mark note v l.
Proof.
  intros Hm Hl. unfold add_note. rewrite Hm.
  destruct l; [done|]. apply elem_of_app. right. apply list_elem_of_singleton.
  done.
Qed.

Lemma add_note_nil (mark note v : string) (l : list string) :
  add_note mark note v l = [] ↔ l = [].
Proof.
  unfold add_note. destruct (Py.contains mark v); [|done].
  destruct l; [done|]. split; [|done].
  intros H. by apply app_nil in H as [? _].
Qed.

(** C7, amended.  When at least one direct-attribute replacement was
    recognised in the value, a value with [|] gets the note on [or] and
    a value with [&] the note on [and]; when none was recognised the
    suggestion is the generic one, with no note. *)
Theorem attrs_suggestion_notes (attrs_value : string) :
  let direct :=
    invisible_block attrs_value ++ readonly_block attrs_value
    ++ required_block attrs_value in
  (direct ≠ [] →
   (Py.contains "|" attrs_value = true →
    Py.contains NOTE_OR (get_attrs_replacement_suggestion attrs_value) = true)
   ∧ (Py.contains "&" attrs_value = true →
      Py.contains NOTE_AND (get_attrs_replacement_suggestion attrs_value)
      = true))
  ∧ (direct = [] →
     get_attrs_replacement_suggestion attrs_value = GENERIC_SUGGESTION).
Proof.
  intros direct. unfold get_attrs_replacement_suggestion. fold direct.
  split.
  - intros Hd.
    assert (add_note "|" NOTE_OR attrs_value direct ≠ []) as Hd1
      by (by rewrite add_note_nil).
    assert (add_note "&" NOTE_AND attrs_value
              (add_note "|" NOTE_OR attrs_value direct) ≠ []) as Hd2
      by (by rewrite add_note_nil).
    destruct (add_note "&" NOTE_AND attrs_value
                (add_note "|" NOTE_OR attrs_value direct))
      as [|s l] eqn:Hl; [done|].
    rewrite <- Hl. split; intros Hm; apply join_contains.
    + apply add_note_keeps. by apply add_note_adds.
    + by apply add_note_adds.
  - intros ->. unfold add_note.
    by destruct (Py.contains "|" attrs_value), (Py.contains "&" attrs_value).
Qed.

Lemma attrs_suggestion_notes_witness :
  Py.contains NOTE_OR
    (get_attrs_replacement_suggestion
       "{'invisible': [('state', '=', 'done')], 'required': ['|', ('a', '=', 1), ('b', '=', 2)]}")
  = true
  ∧ Py.contains NOTE_AND
      (get_attrs_replacement_suggestion
         "{'readonly': 1, 'required': ['&', ('a', '=', 1), ('b', '=', 2)]}")
    = true
  ∧ get_attrs_replacement_suggestion "{'column_width': 3}" = GENERIC_SUGGESTION.
Proof.
  split; [|split].
  - apply (attrs_suggestion_notes
             "{'invisible': [('state', '=', 'done')], 'required': ['|', ('a', '=', 1), ('b', '=', 2)]}");
      [vm_compute; intros Hnil; discriminate Hnil|reflexivity].
  - apply (attrs_suggestion_notes
             "{'readonly': 1, 'required': ['&', ('a', '=', 1), ('b', '=', 2)]}");
      [vm_compute; intros Hnil; discriminate Hnil|reflexivity].
  - apply (attrs_suggestion_notes "{'column_width': 3}"). reflexivity.
Defined.

(** ** The schema cache and the fetch of a schema *)

Section LintFacts.

Variable http_get : list string → string → result string.
Variable etree_parse : string → result Element.
Variable etree_fromstring : string → result Element.
Variable etree_tostring : Element → string.
Variable common_schema_path : string.
Variable RelaxNG : string → string → result Validator.

#[local] Abbreviation download := (download_rng_schema http_get).
#[local] Abbreviation validate :=
  (validate_view_with_rng http_get etree_fromstring common_schema_path RelaxNG).
#[local] Abbreviation lint :=
  (lint_xml_file http_get etree_parse etree_fromstring etree_tostring
     common_schema_path RelaxNG).

Lemma download_hit (k text : string) (w : World) :
  schema_cache w !! k = Some text → download k w = (Some text, w).
Proof. intros H. unfold download_rng_schema. by rewrite H. Qed.

Lemma download_unknown (k : string) (w : World) :
  schema_cache w !! k = None → RNG_SCHEMA_URLS !! k = None →
  download k w = (None, w).
Proof. intros H1 H2. unfold download_rng_schema. by rewrite H1, H2. Qed.

Lemma download_failure (k url e : string) (w : World) :
  schema_cache w !! k = None → RNG_SCHEMA_URLS !! k = Some url →
  http_get (requests w) url = Raise e →
  download k w = (None, mkWorld (schema_cache w) (requests w ++ [url])).
Proof. intros H1 H2 H3. unfold download_rng_schema. by rewrite H1, H2, H3. Qed.

(** A fetch that returns a text leaves it in the cache. *)
Lemma download_some_cached (k text : string) (w : World) :
  (download k w).1 = Some text →
  schema_cache (download k w).2 !! k = Some text.
Proof.
  unfold download_rng_schema.
  destruct (schema_cache w !! k) as [cached|] eqn:Hc.
  - simpl. by intros [= <-].
  - destruct (RNG_SCHEMA_URLS !! k) as [url|]; [|done].
    destruct (http_get (requests w) url) as [body|e]; [|done].
    simpl. intros [= <-]. apply lookup_insert_eq.
Qed.

(** No fetch changes an entry of the cache. *)
Lemma download_keeps_entry (k k' text : string) (w : World) :
  schema_cache w !! k = Some text →
  schema_cache (download k' w).2 !! k = Some text.
Proof.
  intros Hk. unfold download_rng_schema.
  destruct (schema_cache w !! k') as [cached|] eqn:Hc; [done|].
  destruct (RNG_SCHEMA_URLS !! k') as [url|]; [|done].
  destruct (http_get (requests w) url) as [body|e]; [|done].
  simpl. rewrite lookup_insert_ne; [done|]. intros ->. congruence.
Qed.

Lemma download_all_keeps_entry (keys : list string) (k text : string)
    (w : World) :
  schema_cache w !! k = Some text →
  schema_cache (download_all http_get keys w) !! k = Some text.
Proof.
  revert w. induction keys as [|k' keys IH]; intros w Hk; [done|].
  simpl. apply IH. by apply download_keeps_entry.
Qed.

(** C10.  A fetch of an unknown key, and a download that fails, leave
    the cache as it was: after a failed download the next fetch of the
    key goes to the network again.  Once a fetch has returned a text,
    every later fetch of the key, whatever was fetched in between,
    returns that text and changes neither the cache nor the list of
    requests. *)
Theorem schema_cache_memoizes_success_only :
  (∀ k w,
     schema_cache w !! k = None → RNG_SCHEMA_URLS !! k = None →
     download k w = (None, w))
  ∧ (∀ k url e w,
       schema_cache w !! k = None → RNG_SCHEMA_URLS !! k = Some url →
       http_get (requests w) url = Raise e →
       let w' := (download k w).2 in
       (download k w).1 = None
       ∧ schema_cache w' = schema_cache w
       ∧ requests w' = requests w ++ [url]
       ∧ requests (download k w').2 = requests w' ++ [url])
  ∧ (∀ k text w,
       (download k w).1 = Some text →
       ∀ keys,
         let w' := download_all http_get keys (download k w).2 in
         download k w' = (Some text, w')).
Proof.
  split; [|split].
  - apply download_unknown.
  - intros k url e w Hc Hu He w'.
    unfold w'. rewrite (download_failure k url e w Hc Hu He). simpl.
    split; [done|]. split; [done|]. split; [done|].
    unfold download_rng_schema. simpl. rewrite Hc, Hu.
    by destruct (http_get (requests w ++ [url]) url).
  - intros k text w Hsome keys w'. apply download_hit.
    unfold w'. apply download_all_keeps_entry. by apply download_some_cached.
Qed.

(** ** C5: a schema that cannot be fetched *)

Lemma validate_skips (xml_content view_type : string) (w : World) :
  (download "common" w).1 = None
  ∨ (download view_type (download "common" w).2).1 = None →
  (validate xml_content view_type w).1 = [RngSkipped view_type].
Proof.
  unfold validate_view_with_rng. intros H.
  destruct (download "common" w) as [common_schema w1].
  cbn [fst snd] in H.
  destruct (download view_type w1) as [view_schema w2].
  cbn [fst snd] in H. destruct H as [->| ->]; simpl; [done|].
  by rewrite orb_true_r.
Qed.

(** C5.  For every key, a download that fails gives [None] (the
    exception stays inside [download_rng_schema]); when the fetch of the
    common schema or of the schema of the view type gives [None], the
    validation yields the one finding that says it was skipped; and the
    findings of the lint of the file are then the ampersand findings,
    the convention findings and that one finding. *)
Theorem schema_fetch_failure_is_recoverable :
  (∀ k url e w,
     schema_cache w !! k = None → RNG_SCHEMA_URLS !! k = Some url →
     http_get (requests w) url = Raise e →
     (download k w).1 = None)
  ∧ (∀ xml_content view_type w,
       (download "common" w).1 = None
       ∨ (download view_type (download "common" w).2).1 = None →
       (validate xml_content view_type w).1 = [RngSkipped view_type])
  ∧ (∀ file_text root view_type w,
       etree_parse file_text = Ok root →
       get_view_type_from_xml root = Some view_type →
       is_Some (RNG_SCHEMA_URLS !! view_type) →
       (download "common" w).1 = None
       ∨ (download view_type (download "common" w).2).1 = None →
       (lint file_text true false w).1
       = flat_map check_ampersand (all_elements root)
         ++ validate_odoo_view_conventions root view_type
         ++ [RngSkipped view_type]).
Proof.
  split; [|split].
  - intros k url e w Hc Hu He. by rewrite (download_failure k url e w Hc Hu He).
  - apply validate_skips.
  - intros file_text root view_type w Hparse Hvt Hknown Hfail.
    unfold lint_xml_file. rewrite Hparse, Hvt.
    rewrite bool_decide_eq_true_2 by done. cbn [negb andb].
    pose proof (validate_skips (etree_tostring root) view_type w Hfail) as Hv.
    destruct (validate (etree_tostring root) view_type w) as [rng_errors w'].
    simpl in Hv. subst rng_errors. simpl. by rewrite <- app_assoc.
Qed.

(** ** C4: the findings on the identifier and the fields of a record *)

Lemma filter_none {A} (P : A → Prop) `{∀ x, Decision (P x)} (l : list A) :
  Forall (λ x, ¬ P x) l → filter P l = [].
Proof.
  induction 1 as [|x l Hx Hl IH]; [done|].
  by rewrite filter_cons_False.
Qed.

Lemma flat_map_Forall {A B} (Q : B → Prop) (f : A → list B) (l : list A) :
  (∀ x, Forall Q (f x)) → Forall Q (flat_map f l).
Proof.
  intros Hf. induction l as [|x l IH]; simpl; [done|].
  apply Forall_app. split; [apply Hf|done].
Qed.

Lemma filter_flat_map {A B} (P : B → Prop) `{∀ x, Decision (P x)}
    (f : A → list B) (l : list A) :
  filter P (flat_map f l) = flat_map (λ x, filter P (f x)) l.
Proof.
  induction l as [|x l IH]; simpl; [done|].
  by rewrite filter_app, IH.
Qed.

Lemma other_findings_filter (l : list Finding) :
  Forall other_finding l →
  filter (λ f, is_missing_id f) l = []
  ∧ filter (λ f, is_missing_field f) l = [].
Proof.
  intros Hl. split; apply filter_none;
    (eapply Forall_impl; [exact Hl|]); by intros f [??].
Qed.

Ltac other_findings :=
  repeat lazymatch goal with
    | |- Forall _ [] => constructor
    | |- Forall _ (_ :: _) => constructor
    | |- other_finding _ => split; intros []
    end.

Lemma check_ampersand_other (n : Node) : Forall other_finding (check_ampersand n).
Proof.
  unfold check_ampersand. repeat case_match; other_findings.
Qed.

Lemma check_attrs_states_other (n : Node) :
  Forall other_finding (check_attrs_states n).
Proof.
  unfold check_attrs_states. apply Forall_app. split.
  - destruct (Py.truthy _); [|done]. other_findings.
  - destruct (Py.truthy _); [|done]. other_findings.
Qed.

Lemma check_string_other (n : Node) : Forall other_finding (check_string n).
Proof.
  unfold check_string. repeat case_match; other_findings.
Qed.

Lemma check_field_name_other (n : Node) :
  Forall other_finding (check_field_name n).
Proof.
  unfold check_field_name. destruct (Py.truthy _); [done|].
  other_findings.
Qed.

Lemma validate_element_other (rng : Validator) (n : Node) :
  Forall other_finding (validate_element rng n).
Proof.
  unfold validate_element.
  destruct (rng n.2) as [[|] error_log]; [constructor|].
  apply Forall_fmap, Forall_true. intros m. split; intros [].
Qed.

Lemma validate_other (xml_content view_type : string) (w : World) :
  Forall other_finding (validate xml_content view_type w).1.
Proof.
  unfold validate_view_with_rng.
  destruct (download "common" w) as [common_schema w1].
  destruct (download view_type w1) as [view_schema w2].
  destruct (_ || _); simpl; [other_findings|].
  destruct (etree_fromstring xml_content) as [root|e];
    [|other_findings].
  destruct (extract_view_elements_for_rng root view_type) as [|n l] eqn:Hl;
    [constructor|].
  destruct (RelaxNG _ _) as [rng|e]; [|other_findings].
  apply flat_map_Forall, validate_element_other.
Qed.

(** What the loop over the required fields reports for one record. *)
Lemma missing_fields_of_record (record : Node) (names : list string) :
  let report name :=
    match fields_named name record with
    | [] => [MissingField (sourceline record.2) (get record.2 "id") name]
    | _ :: _ => []
    end in
  flat_map report names
  = MissingField (sourceline record.2) (get record.2 "id")
    <$> filter (λ name, length (fields_named name record) = 0) names.
Proof.
  intros report. induction names as [|name names IH]; [done|].
  simpl. rewrite IH. unfold report at 1.
  destruct (fields_named name record) as [|m l] eqn:Hm.
  - rewrite filter_cons_True by (by rewrite Hm). done.
  - rewrite filter_cons_False by (by rewrite Hm). done.
Qed.

Lemma check_record_missing_id (record : Node) :
  filter (λ f, is_missing_id f) (check_record record)
  = if Py.truthy (get record.2 "id") then []
    else [MissingId (sourceline record.2)].
Proof.
  unfold check_record, check_required_fields.
  rewrite filter_app, missing_fields_of_record.
  rewrite (filter_none _ (_ <$> _)).
  - rewrite app_nil_r. by destruct (Py.truthy _).
  - apply Forall_fmap, Forall_true. intros name [].
Qed.

Lemma check_record_missing_field (record : Node) :
  filter (λ f, is_missing_field f) (check_record record)
  = MissingField (sourceline record.2) (get record.2 "id")
    <$> filter (λ name, length (fields_named name record) = 0)
          REQUIRED_FIELDS.
Proof.
  unfold check_record, check_required_fields.
  rewrite filter_app, missing_fields_of_record.
  assert (filter (λ f, is_missing_field f)
            (if Py.truthy (get record.2 "id") then []
             else [MissingId (sourceline record.2)]) = []) as ->.
  { destruct (Py.truthy _); [done|]. rewrite filter_cons_False; [done|].
    intros []. }
  simpl. induction (filter _ REQUIRED_FIELDS) as [|name l IH]; [done|].
  rewrite fmap_cons, filter_cons_True by done. by rewrite IH.
Qed.

Lemma missing_ids_of_records (records : list Node) :
  flat_map (λ r : Node, if Py.truthy (get r.2 "id") then []
                        else [MissingId (sourceline r.2)]) records
  = (λ r : Node, MissingId (sourceline r.2))
    <$> filter (λ r : Node, ¬ Py.truthy (get r.2 "id")) records.
Proof.
  induction records as [|r records IH]; [done|].
  simpl. rewrite IH. destruct (Py.truthy (get r.2 "id")) eqn:Hid.
  - rewrite filter_cons_False; [done|]. rewrite Hid. by intros H.
  - rewrite filter_cons_True; [done|]. rewrite Hid. intros [].
Qed.

Lemma conventions_filter (P : Finding → Prop) `{∀ f, Decision (P f)}
    (root : Element) (view_type : string) :
  (∀ f, other_finding f → ¬ P f) →
  filter P (validate_odoo_view_conventions root view_type)
  = filter P (flat_map check_record (view_records root)).
Proof.
  intros HP.
  assert (∀ l, Forall other_finding l → filter P l = []) as Hn.
  { intros l Hl. apply filter_none. eapply Forall_impl; [exact Hl|done]. }
  unfold validate_odoo_view_conventions. rewrite !filter_app.
  rewrite Hn.
  2:{ case_decide; [|constructor]. apply Forall_fmap, Forall_true.
      intros n. split; intros []. }
  rewrite (Hn (flat_map check_attrs_states _))
    by apply flat_map_Forall, check_attrs_states_other.
  rewrite (Hn (flat_map check_string _))
    by apply flat_map_Forall, check_string_other.
  rewrite (Hn (flat_map check_field_name _))
    by apply flat_map_Forall, check_field_name_other.
  by rewrite app_nil_r.
Qed.

Lemma conventions_missing_id (root : Element) (view_type : string) :
  filter (λ f, is_missing_id f) (validate_odoo_view_conventions root view_type)
  = (λ r : Node, MissingId (sourceline r.2))
    <$> filter (λ r : Node, ¬ Py.truthy (get r.2 "id")) (view_records root).
Proof.
  rewrite conventions_filter by (by intros f [??]).
  rewrite filter_flat_map, <- missing_ids_of_records.
  apply flat_map_ext. intros r. apply check_record_missing_id.
Qed.

Lemma conventions_missing_field (root : Element) (view_type : string) :
  filter (λ f, is_missing_field f)
    (validate_odoo_view_conventions root view_type)
  = flat_map
      (λ r : Node,
         MissingField (sourceline r.2) (get r.2 "id")
         <$> filter (λ name, length (fields_named name r) = 0)
               REQUIRED_FIELDS)
      (view_records root).
Proof.
  rewrite conventions_filter by (by intros f [??]).
  rewrite filter_flat_map.
  apply flat_map_ext. intros r. apply check_record_missing_field.
Qed.

(** C4, amended.  For a document that parses and to which the classifier
    gives a view type, the lint with view validation on reports one
    missing-id finding for each view record whose [id] is absent or
    empty, in document order, and for each view record one finding for
    each of [name], [model], [arch] of which the record has no [field]
    anywhere below it; it reports no other finding of these two kinds.
    For a document without a view type it reports none of them. *)
Theorem lint_record_structure_findings (file_text : string) (root : Element)
    (skip_rng : bool) (w : World) :
  etree_parse file_text = Ok root →
  let findings := (lint file_text true skip_rng w).1 in
  (∀ view_type,
     get_view_type_from_xml root = Some view_type →
     filter (λ f, is_missing_id f) findings
     = (λ r : Node, MissingId (sourceline r.2))
       <$> filter (λ r : Node, ¬ Py.truthy (get r.2 "id")) (view_records root)
     ∧ filter (λ f, is_missing_field f) findings
       = flat_map
           (λ r : Node,
              MissingField (sourceline r.2) (get r.2 "id")
              <$> filter (λ name, length (fields_named name r) = 0)
                    REQUIRED_FIELDS)
           (view_records root))
  ∧ (get_view_type_from_xml root = None →
     filter (λ f, is_missing_id f) findings = []
     ∧ filter (λ f, is_missing_field f) findings = []).
Proof.
  intros Hparse findings.
  pose proof (other_findings_filter
                (flat_map check_ampersand (all_elements root))
                (flat_map_Forall _ _ _ check_ampersand_other)) as [Ha1 Ha2].
  split.
  - intros view_type Hvt.
    assert (∃ rng_errors,
              Forall other_finding rng_errors
              ∧ findings
                = flat_map check_ampersand (all_elements root)
                  ++ validate_odoo_view_conventions root view_type
                  ++ rng_errors) as (rng_errors & Hrng & ->).
    { unfold findings, lint_xml_file. rewrite Hparse, Hvt.
      destruct (negb skip_rng && _).
      - pose proof (validate_other (etree_tostring root) view_type w) as Hv.
        destruct (validate (etree_tostring root) view_type w) as [errs w'].
        exists errs. split; [done|]. simpl. by rewrite <- app_assoc.
      - exists []. split; [constructor|]. simpl. by rewrite app_nil_r. }
    apply other_findings_filter in Hrng as [Hr1 Hr2].
    rewrite !filter_app, Ha1, Ha2, Hr1, Hr2, !app_nil_r. simpl.
    split; [apply conventions_missing_id|apply conventions_missing_field].
  - intros Hnone. unfold findings, lint_xml_file. rewrite Hparse, Hnone.
    simpl. done.
Qed.

End LintFacts.

(** C4, as stated, fails, in three ways.  A view record without id in
    a document with no view element: the classifier gives no type, the
    convention rules are not run, and the lint has no finding at all.
    A view record whose [id] is there and empty: it gets the missing-id
    finding.  A view record with no child field named [name], in a
    document where a field of that name lies deeper, inside the arch:
    it gets no finding for [name]. *)
Lemma lint_record_structure_counterexample :
  let lint doc :=
    (lint_xml_file Sample.http_up Sample.parse Sample.fromstring
       Sample.write "/tmp/common.rng" Sample.relaxng (Sample.write doc) true
       true Sample.empty_world).1 in
  (Sample.parse (Sample.write Sample.bare_record_doc)
   = Ok Sample.bare_record_doc
   ∧ length (filter (λ r : Node, get r.2 "id" = None)
               (view_records Sample.bare_record_doc)) = 1
   ∧ lint Sample.bare_record_doc = [])
  ∧ (Sample.parse (Sample.write Sample.empty_id_doc) = Ok Sample.empty_id_doc
     ∧ (λ r : Node, get r.2 "id") <$> view_records Sample.empty_id_doc
       = [Some ""]
     ∧ filter (λ f, is_missing_id f) (lint Sample.empty_id_doc)
       = [MissingId None])
  ∧ (Sample.parse (Sample.write Sample.masked_name_doc)
     = Ok Sample.masked_name_doc
     ∧ (λ r : Node,
          filter (λ c, is_field_named "name" c) (child_nodes r))
       <$> view_records Sample.masked_name_doc
       = [[]]
     ∧ get_view_type_from_xml Sample.masked_name_doc = Some "form"
     ∧ filter (λ f, is_missing_field f) (lint Sample.masked_name_doc) = []).
Proof. vm_compute. done. Qed.

Lemma lint_record_structure_findings_witness :
  let lint doc :=
    (lint_xml_file Sample.http_up Sample.parse Sample.fromstring
       Sample.write "/tmp/common.rng" Sample.relaxng (Sample.write doc) true
       true Sample.empty_world).1 in
  (filter (λ f, is_missing_id f) (lint Sample.tree_doc) = [MissingId None]
   ∧ filter (λ f, is_missing_field f) (lint Sample.tree_doc)
     = [MissingField None None "name"; MissingField None None "model"])
  ∧ filter (λ f, is_missing_field f) (lint Sample.masked_name_doc) = []
  ∧ filter (λ f, is_missing_id f) (lint Sample.bare_record_doc) = [].
Proof.
  intros lint.
  pose proof (λ doc,
                lint_record_structure_findings Sample.http_up Sample.parse
                  Sample.fromstring Sample.write "/tmp/common.rng"
                  Sample.relaxng (Sample.write doc) doc true
                  Sample.empty_world) as Hlint.
  cbn zeta in Hlint. split; [|split].
  - destruct (Hlint Sample.tree_doc) as [Hsome _];
      [vm_compute; reflexivity|].
    destruct (Hsome "list") as [Hid Hfield]; [vm_compute; reflexivity|].
    split.
    + etransitivity; [exact Hid|]. vm_compute. reflexivity.
    + etransitivity; [exact Hfield|]. vm_compute. reflexivity.
  - destruct (Hlint Sample.masked_name_doc) as [Hsome _];
      [vm_compute; reflexivity|].
    destruct (Hsome "form") as [_ Hfield]; [vm_compute; reflexivity|].
    etransitivity; [exact Hfield|]. vm_compute. reflexivity.
  - destruct (Hlint Sample.bare_record_doc) as [_ Hnone];
      [vm_compute; reflexivity|].
    apply Hnone. vm_compute. reflexivity.
Defined.

Lemma schema_cache_memoizes_success_only_witness :
  let failed := download_rng_schema Sample.http_flaky "list" Sample.empty_world in
  let fetched := download_rng_schema Sample.http_flaky "list" failed.2 in
  let later :=
    download_all Sample.http_flaky ["common"; "form"; "list"] fetched.2 in
  download_rng_schema Sample.http_flaky "form" Sample.empty_world
  = (None, Sample.empty_world)
  ∧ (failed.1 = None
     ∧ schema_cache failed.2 = ∅
     ∧ requests failed.2 = [odoo_rng "list_view.rng"]
     ∧ requests fetched.2 = [odoo_rng "list_view.rng"; odoo_rng "list_view.rng"])
  ∧ download_rng_schema Sample.http_flaky "list" later
    = (Some "<grammar/>", later).
Proof.
  intros failed fetched later.
  destruct (schema_cache_memoizes_success_only Sample.http_flaky)
    as (Hunknown & Hfailure & Hsuccess).
  split; [|split].
  - apply Hunknown; reflexivity.
  - apply (Hfailure "list" (odoo_rng "list_view.rng") "Timeout"
             Sample.empty_world); reflexivity.
  - apply (Hsuccess "list" "<grammar/>" failed.2). vm_compute. reflexivity.
Defined.

Lemma schema_fetch_failure_is_recoverable_witness :
  (download_rng_schema Sample.http_down "list" Sample.empty_world).1 = None
  ∧ (validate_view_with_rng Sample.http_down Sample.fromstring
       "/tmp/common.rng" Sample.relaxng (Sample.write Sample.tree_doc) "list"
       Sample.empty_world).1 = [RngSkipped "list"]
  ∧ (lint_xml_file Sample.http_down Sample.parse Sample.fromstring
       Sample.write "/tmp/common.rng" Sample.relaxng
       (Sample.write Sample.tree_doc) true false Sample.empty_world).1
    = [DeprecatedTree None; MissingId None; MissingField None None "name";
       MissingField None None "model"; MissingString None "tree";
       RngSkipped "list"].
Proof.
  destruct (schema_fetch_failure_is_recoverable Sample.http_down Sample.parse
              Sample.fromstring Sample.write "/tmp/common.rng" Sample.relaxng)
    as (Hfetch & Hskip & Hlint).
  split; [|split].
  - apply (Hfetch "list" (odoo_rng "list_view.rng") "ConnectionError");
      reflexivity.
  - apply Hskip. left. reflexivity.
  - etransitivity.
    + apply (Hlint (Sample.write Sample.tree_doc) Sample.tree_doc "list").
      * vm_compute. reflexivity.
      * vm_compute. reflexivity.
      * exists (odoo_rng "list_view.rng"). reflexivity.
      * left. reflexivity.
    + vm_compute. reflexivity.
Defined.

(** ** C6: the classifier *)

Lemma first_view_tag_found (scope : Node) (tags : list string) (i : nat)
    (t : string) :
  tags !! i = Some t →
  elements_below t scope ≠ [] →
  (∀ j t', j < i → tags !! j = Some t' → elements_below t' scope = []) →
  first_view_tag scope tags = Some (normalize t).
Proof.
  revert i. induction tags as [|t0 tags IH]; intros i Hi Ht Hbefore; [done|].
  destruct i as [|i]; simpl in *.
  - injection Hi as ->. by destruct (elements_below t scope).
  - rewrite (Hbefore 0 t0) by (done || lia).
    apply (IH i); [done..|].
    intros j t' Hj Hl. apply (Hbefore (S j) t'); [lia|done].
Qed.

Lemma first_view_tag_none (scope : Node) (tags : list string) :
  first_view_tag scope tags = None
  ↔ ∀ t, t ∈ tags → elements_below t scope = [].
Proof.
  induction tags as [|t0 tags IH]; simpl.
  - split; [|done]. by intros _ t ?%elem_of_nil.
  - destruct (elements_below t0 scope) as [|n l] eqn:Ht0.
    + rewrite IH. split.
      * intros H t [->|Ht]%elem_of_cons; [done|by apply H].
      * intros H t Ht. apply H. by right.
    + split; [done|]. intros H. specialize (H t0). rewrite Ht0 in H.
      discriminate H. by left.
Qed.

Lemma scan_records_skip (pre rest : list Node) :
  Forall record_no_match pre → scan_records (pre ++ rest) = scan_records rest.
Proof.
  induction 1 as [|r pre Hr Hpre IH]; [done|].
  cbn [scan_records app]. unfold record_no_match, arch_of in Hr.
  destruct (fields_named "arch" r) as [|a l]; [done|].
  specialize (Hr a eq_refl).
  apply (proj2 (first_view_tag_none a VIEW_TYPES)) in Hr. by rewrite Hr.
Qed.

Lemma scan_records_hit (r : Node) (rest : list Node) (t : string) :
  record_match r t → scan_records (r :: rest) = Some (normalize t).
Proof.
  intros (a & Ha & i & Hi & Ht & Hbefore). cbn [scan_records]. unfold arch_of in Ha.
  destruct (fields_named "arch" r) as [|a' l]; [done|].
  injection Ha as ->.
  by rewrite (first_view_tag_found a VIEW_TYPES i t).
Qed.

Lemma scan_records_none (records : list Node) :
  scan_records records = None ↔ Forall record_no_match records.
Proof.
  induction records as [|r records IH]; cbn [scan_records]; [done|].
  rewrite Forall_cons. unfold record_no_match at 1, arch_of.
  destruct (fields_named "arch" r) as [|a l]; cbn [head].
  - rewrite IH. split; [|by intros [_ ?]]. intros H. split; [|done].
    intros a Ha. discriminate Ha.
  - destruct (first_view_tag a VIEW_TYPES) as [vt|] eqn:Hf.
    + split; [done|]. intros [H _]. specialize (H a eq_refl).
      apply (proj2 (first_view_tag_none a VIEW_TYPES)) in H. congruence.
    + rewrite IH. pose proof (proj1 (first_view_tag_none a VIEW_TYPES) Hf).
      split; [|by intros [_ ?]]. intros Hr. split; [|done].
      by intros ? [= <-].
Qed.

(** ** Positions in a tree *)

Lemma Element_induction (P : Element → Prop) :
  (∀ t a x l cs, Forall P cs → P (Elem t a x l cs)) → ∀ e, P e.
Proof.
  intros step. fix IH 1. intros [t a x l cs]. apply step.
  induction cs as [|c cs IHcs]; constructor; [apply IH|exact IHcs].
Qed.

Lemma subtree_app (p r : Path) (e : Element) :
  subtree (p ++ r) e = subtree p e ≫= subtree r.
Proof.
  revert e. induction p as [|i p IH]; intros e; simpl; [done|].
  destruct (children e !! i) as [c|]; simpl; [apply IH|done].
Qed.

(** The references given for the children [cs], numbered from [i], of
    the element at [p]. *)
Lemma elem_of_located_children (below : Path → Element → list Node)
    (p : Path) (i : nat) (cs : list Element) (n : Node) :
  n ∈ located_children below p i cs
  ↔ ∃ k c, cs !! k = Some c
           ∧ (n = (p ++ [i + k], c) ∨ n ∈ below (p ++ [i + k]) c).
Proof.
  revert i. induction cs as [|c0 cs IH]; intros i; simpl.
  - split; [by intros ?%elem_of_nil|]. by intros (k & c & Hk & _).
  - rewrite elem_of_cons, elem_of_app, IH. split.
    + intros [->|[Hn|(k & c & Hk & Hn)]].
      * exists 0, c0. rewrite Nat.add_0_r. split; [done|by left].
      * exists 0, c0. rewrite Nat.add_0_r. split; [done|by right].
      * exists (S k), c. rewrite Nat.add_succ_r. done.
    + intros (k & c & Hk & Hn). destruct k as [|k]; simpl in Hk.
      * injection Hk as ->. rewrite Nat.add_0_r in Hn.
        destruct Hn as [->|Hn]; [by left|by right; left].
      * right. right. exists k, c. rewrite Nat.add_succ_r in Hn. done.
Qed.

(** The descendants of the element at [p] are the elements at the
    positions strictly below [p]. *)
Lemma elem_of_descendants_from (e : Element) :
  ∀ (p q : Path) (d : Element),
    (q, d) ∈ descendants_from p e
    ↔ ∃ r, r ≠ [] ∧ q = p ++ r ∧ subtree r e = Some d.
Proof.
  induction e as [t a x l cs IH] using Element_induction.
  intros p q d.
  change (descendants_from p (Elem t a x l cs))
    with (located_children descendants_from p 0 cs).
  rewrite elem_of_located_children. split.
  - intros (k & c & Hk & Hn). simpl in Hn. destruct Hn as [[= -> ->]|Hn].
    + exists [k]. split; [done|]. split; [done|]. simpl. by rewrite Hk.
    + rewrite Forall_lookup in IH. apply (IH k c Hk) in Hn
        as (r & Hr & -> & Hd).
      exists (k :: r). split; [done|]. split; [by rewrite <- app_assoc|].
      simpl. by rewrite Hk.
  - intros (r & Hr & -> & Hd). destruct r as [|k r]; [done|].
    simpl in Hd. destruct (cs !! k) as [c|] eqn:Hk; [|done]. simpl in Hd.
    exists k, c. split; [done|]. simpl. destruct r as [|k' r].
    + left. simpl in Hd. by injection Hd as ->.
    + right. rewrite Forall_lookup in IH. apply (IH k c Hk).
      exists (k' :: r). split; [done|]. split; [|done].
      by rewrite <- app_assoc.
Qed.

Lemma located_children_paths (below : Path → Element → list Node)
    (p : Path) (i : nat) (cs : list Element) (q : Path) :
  (∀ j c n, n ∈ below (p ++ [j]) c → ∃ r, n.1 = (p ++ [j]) ++ r) →
  q ∈ (located_children below p i cs).*1 →
  ∃ j r, i ≤ j ∧ q = (p ++ [j]) ++ r.
Proof.
  intros Hbelow (n & -> & Hn)%list_elem_of_fmap.
  apply elem_of_located_children in Hn as (k & c & Hk & [->|Hn]).
  - exists (i + k), []. split; [lia|]. by rewrite app_nil_r.
  - apply Hbelow in Hn as (r & Hr). exists (i + k), r. split; [lia|done].
Qed.

Lemma descendants_from_NoDup (e : Element) :
  ∀ p, NoDup (descendants_from p e).*1.
Proof.
  induction e as [t a x l cs IH] using Element_induction. intros p.
  change (descendants_from p (Elem t a x l cs))
    with (located_children descendants_from p 0 cs).
  generalize 0. induction cs as [|c cs IHcs]; intros i; simpl.
  - constructor.
  - apply Forall_cons in IH as [Hc Hcs].
    assert (∀ q, q ∈ (descendants_from (p ++ [i]) c).*1 →
                 ∃ r, r ≠ [] ∧ q = (p ++ [i]) ++ r) as Hdeep.
    { intros q ([q' d] & -> & Hn)%list_elem_of_fmap.
      apply elem_of_descendants_from in Hn as (r & Hr & -> & _). eauto. }
    assert (∀ q, q ∈ (located_children descendants_from p (S i) cs).*1 →
                 ∃ j r, S i ≤ j ∧ q = (p ++ [j]) ++ r) as Hright.
    { intros q. apply located_children_paths. intros j c' [q' d] Hn.
      apply elem_of_descendants_from in Hn as (r & _ & -> & _). eauto. }
    rewrite fmap_app. constructor.
    + rewrite elem_of_app. intros [Hin|Hin].
      * apply Hdeep in Hin as (r & Hr & Heq). apply Hr.
        apply (inj (app (p ++ [i]))). by rewrite app_nil_r.
      * apply Hright in Hin as (j & r & Hj & Heq).
        rewrite <- !app_assoc in Heq. apply (inj (app p)) in Heq.
        simpl in Heq. injection Heq as -> _. lia.
    + apply NoDup_app. split; [apply Hc|]. split; [|by apply IHcs].
      intros q Hq1 Hq2. apply Hdeep in Hq1 as (r & _ & ->).
      apply Hright in Hq2 as (j & r' & Hj & Heq).
      rewrite <- !app_assoc in Heq. apply (inj (app p)) in Heq.
      simpl in Heq. injection Heq as -> _. lia.
Qed.

(** Every reference of [//*] points at its element. *)
Lemma all_elements_valid (root : Element) (n : Node) :
  n ∈ all_elements root → subtree n.1 root = Some n.2.
Proof.
  unfold all_elements, descendants. intros [->|Hn]%elem_of_cons; [done|].
  destruct n as [q d]. simpl in Hn.
  by apply elem_of_descendants_from in Hn as (r & _ & -> & Hd).
Qed.

Lemma descendants_valid (root : Element) (n m : Node) :
  subtree n.1 root = Some n.2 → m ∈ descendants n →
  ∃ r, r ≠ [] ∧ m.1 = n.1 ++ r ∧ subtree m.1 root = Some m.2.
Proof.
  intros Hn Hm. destruct m as [q d]. unfold descendants in Hm.
  apply elem_of_descendants_from in Hm as (r & Hr & -> & Hd).
  exists r. split; [done|]. split; [done|].
  simpl. by rewrite subtree_app, Hn.
Qed.


(** ** C6: the classifier, on the positions of the document *)

Lemma path_before_irrefl (p : Path) : path_before p p = false.
Proof. induction p as [|i p IH]; [done|]. simpl. by rewrite decide_True. Qed.

Lemma path_before_asym (p q : Path) :
  path_before p q = true → path_before q p = false.
Proof.
  revert q. induction p as [|i p IH]; intros [|j q]; simpl; try done.
  destruct (decide (i = j)) as [->|Hne].
  - rewrite decide_True by done. apply IH.
  - rewrite decide_False by done. intros Hlt%bool_decide_eq_true.
    apply bool_decide_eq_false. lia.
Qed.

Lemma path_before_app (p a b : Path) :
  path_before (p ++ a) (p ++ b) = path_before a b.
Proof. induction p as [|i p IH]; [done|]. simpl. by rewrite decide_True. Qed.

Lemma path_before_below (p q : Path) :
  strictly_below p q → path_before p q = true.
Proof.
  intros (r & Hr & ->). rewrite <- (app_nil_r p) at 1.
  rewrite path_before_app. by destruct r.
Qed.

Lemma filter_sorted {A} (R : relation A) (P : A → Prop)
    `{∀ x, Decision (P x)} (l : list A) :
  StronglySorted R l → StronglySorted R (filter P l).
Proof.
  induction 1 as [|x l Hl IH Hx]; [constructor|].
  destruct (decide (P x)).
  - rewrite filter_cons_True by done. constructor; [done|].
    apply Forall_forall. intros y [_ Hy]%list_elem_of_filter.
    rewrite Forall_forall in Hx. by apply Hx.
  - by rewrite filter_cons_False.
Qed.

Lemma sorted_split {A} (R : relation A) (pre post : list A) (x : A) :
  StronglySorted R (pre ++ x :: post) →
  (∀ y, y ∈ pre → R y x) ∧ (∀ y, y ∈ post → R x y).
Proof.
  intros (Hcross & _ & Hright)%StronglySorted_app.
  apply StronglySorted_cons in Hright as [Hpost _]. split.
  - intros y Hy. apply Hcross; [done|by left].
  - intros y Hy. rewrite Forall_forall in Hpost. by apply Hpost.
Qed.

Lemma descendants_from_sorted (e : Element) :
  ∀ p, StronglySorted comes_before (descendants_from p e).
Proof.
  induction e as [t a x l cs IH] using Element_induction. intros p.
  change (descendants_from p (Elem t a x l cs))
    with (located_children descendants_from p 0 cs).
  generalize 0. induction cs as [|c cs IHcs]; intros i; simpl.
  - constructor.
  - apply Forall_cons in IH as [Hc Hcs].
    change ((p ++ [i], c)
            :: descendants_from (p ++ [i]) c
               ++ located_children descendants_from p (S i) cs)
      with (((p ++ [i], c) :: descendants_from (p ++ [i]) c)
            ++ located_children descendants_from p (S i) cs).
    apply StronglySorted_app. split; [|split].
    + intros n1 n2 Hn1 Hn2.
      assert (∃ r, n1.1 = (p ++ [i]) ++ r) as (r1 & Hr1).
      { apply elem_of_cons in Hn1 as [->|Hn1]; [exists []; by rewrite app_nil_r|].
        destruct n1 as [q d].
        apply elem_of_descendants_from in Hn1 as (r & _ & -> & _). by exists r. }
      assert (∃ j r, S i ≤ j ∧ n2.1 = (p ++ [j]) ++ r) as (j & r2 & Hj & Hr2).
      { apply (located_children_paths descendants_from p (S i) cs).
        - intros k c' [q d] Hn.
          apply elem_of_descendants_from in Hn as (r & _ & -> & _). eauto.
        - apply list_elem_of_fmap. by exists n2. }
      unfold comes_before. rewrite Hr1, Hr2, <- !app_assoc, path_before_app.
      simpl. rewrite decide_False by lia. apply bool_decide_eq_true. lia.
    + apply StronglySorted_cons. split; [|apply Hc].
      apply Forall_forall. intros [q d] Hn. unfold comes_before. simpl.
      apply path_before_below.
      apply elem_of_descendants_from in Hn as (r & Hr & -> & _). by exists r.
    + by apply IHcs.
Qed.

Lemma all_elements_sorted (root : Element) :
  StronglySorted comes_before (all_elements root).
Proof.
  unfold all_elements. constructor; [apply descendants_from_sorted|].
  apply Forall_forall. intros n Hn. unfold comes_before.
  apply path_before_below. destruct n as [q d]. unfold descendants in Hn.
  apply elem_of_descendants_from in Hn as (r & Hr & -> & _). by exists r.
Qed.

Lemma elem_of_all_elements (root : Element) (p : Path) (e : Element) :
  (p, e) ∈ all_elements root ↔ subtree p root = Some e.
Proof.
  split; [apply (all_elements_valid root (p, e))|].
  intros Hp. unfold all_elements, descendants. destruct p as [|i p].
  - simpl in Hp. injection Hp as ->. by left.
  - right. apply elem_of_descendants_from. by exists (i :: p).
Qed.

Lemma elem_of_descendants (root : Element) (n : Node) (q : Path)
    (d : Element) :
  subtree n.1 root = Some n.2 →
  (q, d) ∈ descendants n ↔ strictly_below n.1 q ∧ subtree q root = Some d.
Proof.
  intros Hn. unfold descendants. rewrite elem_of_descendants_from. split.
  - intros (r & Hr & -> & Hd). split; [by exists r|].
    by rewrite subtree_app, Hn.
  - intros [(r & Hr & ->) Hd]. exists r. split; [done|]. split; [done|].
    by rewrite subtree_app, Hn in Hd.
Qed.

Lemma elem_of_view_records (root : Element) (p : Path) (e : Element) :
  (p, e) ∈ view_records root
  ↔ subtree p root = Some e
    ∧ tag e = "record" ∧ get e "model" = Some "ir.ui.view".
Proof.
  unfold view_records. rewrite list_elem_of_filter, elem_of_all_elements.
  unfold is_view_record, has_tag, attr_is. simpl.
  rewrite andb_True, !bool_decide_spec. tauto.
Qed.

Lemma elements_below_tag (root : Element) (n : Node) (t : string) :
  subtree n.1 root = Some n.2 →
  elements_below t n ≠ [] ↔ tag_below root n.1 t.
Proof.
  intros Hn. unfold elements_below, tag_below, element_at. split.
  - destruct (filter _ (descendants n)) as [|[q d] l] eqn:Hf; [done|].
    intros _. assert ((q, d) ∈ filter (λ m, has_tag t m) (descendants n))
      as [Ht Hin]%list_elem_of_filter by (rewrite Hf; by left).
    apply (elem_of_descendants root n q d Hn) in Hin as [Hbelow Hq].
    exists q. split; [done|]. exists d. split; [done|].
    unfold has_tag in Ht. by apply bool_decide_unpack in Ht.
  - intros (q & Hbelow & d & Hq & Ht) Hnone.
    assert ((q, d) ∈ filter (λ m, has_tag t m) (descendants n)) as Hin.
    { apply list_elem_of_filter. split.
      - unfold has_tag. by apply bool_decide_pack.
      - by apply (elem_of_descendants root n q d Hn). }
    rewrite Hnone in Hin. by apply elem_of_nil in Hin.
Qed.

Lemma elements_below_no_tag (root : Element) (n : Node) (t : string) :
  subtree n.1 root = Some n.2 →
  elements_below t n = [] ↔ ¬ tag_below root n.1 t.
Proof.
  intros Hn. rewrite <- (elements_below_tag root n t Hn).
  destruct (elements_below t n); [|by split; [|intros []]].
  split; [by intros _ ?|done].
Qed.

Lemma first_match_tag (root : Element) (n : Node) (t : string) :
  subtree n.1 root = Some n.2 →
  first_match n t ↔ first_tag_below root n.1 t.
Proof.
  intros Hn. unfold first_match, first_tag_below.
  change VIEW_TYPES with PRIORITY_ORDER.
  split; intros (i & Hi & Ht & Hbefore); exists i; (split; [done|]).
  - split; [by apply (elements_below_tag root n)|].
    intros j t' Hj Hl. apply (elements_below_no_tag root n t' Hn). eauto.
  - split; [by apply (elements_below_tag root n)|].
    intros j t' Hj Hl. apply (elements_below_no_tag root n t' Hn). eauto.
Qed.

Lemma no_match_tag (root : Element) (n : Node) :
  subtree n.1 root = Some n.2 →
  no_match n ↔ ∀ t, t ∈ PRIORITY_ORDER → ¬ tag_below root n.1 t.
Proof.
  intros Hn. unfold no_match. change VIEW_TYPES with PRIORITY_ORDER.
  split; intros H t Ht; apply (elements_below_no_tag root n t Hn); eauto.
Qed.

Lemma fields_named_sorted (name : string) (n : Node) :
  StronglySorted comes_before (fields_named name n).
Proof. apply filter_sorted, descendants_from_sorted. Qed.

Lemma elem_of_arch_fields (root : Element) (r : Node) (a : Path)
    (d : Element) :
  subtree r.1 root = Some r.2 →
  (a, d) ∈ fields_named "arch" r
  ↔ strictly_below r.1 a ∧ subtree a root = Some d
    ∧ tag d = "field" ∧ get d "name" = Some "arch".
Proof.
  intros Hr. unfold fields_named.
  rewrite list_elem_of_filter, (elem_of_descendants root r a d Hr).
  unfold is_field_named, has_tag, attr_is. simpl.
  rewrite andb_True, !bool_decide_spec. tauto.
Qed.

(** The arch field that the code takes is the arch field of the
    record. *)
Lemma arch_of_position (root : Element) (r a : Node) :
  subtree r.1 root = Some r.2 →
  arch_of r = Some a
  ↔ arch_of_record root r.1 a.1 ∧ subtree a.1 root = Some a.2.
Proof.
  intros Hr. unfold arch_of, arch_of_record, arch_field_at, element_at.
  pose proof (fields_named_sorted "arch" r) as Hsorted.
  destruct a as [a d]. simpl. split.
  - destruct (fields_named "arch" r) as [|h l] eqn:Hf; [done|].
    intros [= ->].
    assert ((a, d) ∈ fields_named "arch" r) as Hin by (rewrite Hf; by left).
    apply (elem_of_arch_fields root r a d Hr) in Hin
      as (Hbelow & Ha & Ht & Hname).
    split; [|done]. split; [done|]. split; [by exists d|].
    intros a' Hbelow' (d' & Ha' & Ht' & Hname').
    assert ((a', d') ∈ fields_named "arch" r) as Hin'
      by (by apply (elem_of_arch_fields root r a' d' Hr)).
    rewrite Hf in Hin'. apply elem_of_cons in Hin' as [[= -> _]|Hin'];
      [by left|].
    right. apply StronglySorted_cons in Hsorted as [Hhead _].
    rewrite Forall_forall in Hhead. by apply (Hhead (a', d')).
  - intros [(Hbelow & (d0 & Ha & Ht & Hname) & Hfirst) Hd].
    assert (d0 = d) as -> by congruence.
    assert ((a, d) ∈ fields_named "arch" r) as Hin
      by (by apply (elem_of_arch_fields root r a d Hr)).
    destruct (fields_named "arch" r) as [|[h dh] l] eqn:Hf;
      [by apply elem_of_nil in Hin|].
    simpl. f_equal.
    assert ((h, dh) ∈ fields_named "arch" r) as Hh by (rewrite Hf; by left).
    apply (elem_of_arch_fields root r h dh Hr) in Hh
      as (Hhbelow & Hhd & Hht & Hhname).
    destruct (Hfirst h Hhbelow) as [->|Hlate]; [by exists dh|congruence|].
    apply elem_of_cons in Hin as [[= -> ->]|Hin]; [done|].
    apply StronglySorted_cons in Hsorted as [Hhead _].
    rewrite Forall_forall in Hhead. specialize (Hhead (a, d) Hin).
    unfold comes_before in Hhead. simpl in Hhead.
    apply path_before_asym in Hhead. congruence.
Qed.

(** What a record gives in the code is what the record at its position
    gives. *)
Lemma record_match_gives (root : Element) (r : Node) (t : string) :
  r ∈ view_records root →
  record_match r t ↔ record_gives root r.1 t.
Proof.
  intros Hin. destruct r as [p e].
  apply elem_of_view_records in Hin as (Hp & Htag & Hmodel).
  unfold record_match, record_gives, view_record_at, element_at. simpl.
  split.
  - intros (a & Ha & Hfirst).
    apply (arch_of_position root (p, e) a Hp) in Ha as [Harch Hav].
    split; [by exists e|]. exists a.1. split; [done|].
    by apply (first_match_tag root a t Hav).
  - intros [_ (a & Harch & Hfirst)].
    pose proof Harch as (_ & (d & Hd & _) & _).
    exists (a, d). split.
    + by apply (arch_of_position root (p, e) (a, d) Hp).
    + by apply (first_match_tag root (a, d) t Hd).
Qed.

Lemma first_view_tag_some (scope : Node) (vt : string) :
  first_view_tag scope VIEW_TYPES = Some vt →
  ∃ t, first_match scope t ∧ vt = normalize t.
Proof.
  unfold first_match. generalize VIEW_TYPES. intros tags.
  induction tags as [|t0 tags IH]; [done|]. cbn [first_view_tag].
  destruct (elements_below t0 scope) as [|m l] eqn:Ht0.
  - intros (t & (i & Hi & Ht & Hbefore) & ->)%IH. exists t. split; [|done].
    exists (S i). split; [done|]. split; [done|].
    intros [|j] t' Hj Hl; simpl in Hl.
    + by injection Hl as <-.
    + apply (Hbefore j); [lia|done].
  - intros [= <-]. exists t0. split; [|done]. exists 0.
    split; [done|]. split; [by rewrite Ht0|]. lia.
Qed.

Lemma record_no_match_gives (root : Element) (r : Node) :
  r ∈ view_records root →
  record_no_match r ↔ ∀ t, ¬ record_gives root r.1 t.
Proof.
  intros Hin. split.
  - intros Hno t (a & Ha & i & Hi & Ht & _)%(record_match_gives root r t Hin).
    apply Ht. apply (Hno a Ha). by apply list_elem_of_lookup_2 in Hi.
  - intros Hnone a Ha.
    destruct (first_view_tag a VIEW_TYPES) as [vt|] eqn:Hf.
    + apply first_view_tag_some in Hf as (t & Hfirst & _).
      destruct (Hnone t). apply (record_match_gives root r t Hin).
      by exists a.
    + exact (proj1 (first_view_tag_none a VIEW_TYPES) Hf).
Qed.

Lemma scan_records_some (records : list Node) (vt : string) :
  scan_records records = Some vt →
  ∃ pre r post t,
    records = pre ++ r :: post ∧ Forall record_no_match pre
    ∧ record_match r t ∧ vt = normalize t.
Proof.
  induction records as [|r records IH]; [done|]. cbn [scan_records].
  assert (scan_records records = Some vt → record_no_match r →
          ∃ pre r' post t,
            r :: records = pre ++ r' :: post ∧ Forall record_no_match pre
            ∧ record_match r' t ∧ vt = normalize t) as Hnext.
  { intros (pre & r' & post & t & -> & Hpre & Hr' & ->)%IH Hr.
    exists (r :: pre), r', post, t. split; [done|].
    split; [by constructor|done]. }
  destruct (fields_named "arch" r) as [|a l] eqn:Harch.
  - intros Hs. apply Hnext; [done|]. intros a Ha. unfold arch_of in Ha.
    by rewrite Harch in Ha.
  - destruct (first_view_tag a VIEW_TYPES) as [vt'|] eqn:Hf.
    + intros [= ->]. apply first_view_tag_some in Hf as (t & Hfirst & ->).
      exists [], r, records, t. split; [done|]. split; [constructor|].
      split; [|done]. exists a. split; [|done]. unfold arch_of.
      by rewrite Harch.
    + intros Hs. apply Hnext; [done|]. intros a' Ha'. unfold arch_of in Ha'.
      rewrite Harch in Ha'. injection Ha' as <-.
      exact (proj1 (first_view_tag_none a VIEW_TYPES) Hf).
Qed.

(** The first record of the scan that gives a tag is the first record
    of the document that gives one. *)
Lemma first_giving_record (root : Element) (pre post : list Node)
    (r : Node) (t : string) :
  view_records root = pre ++ r :: post →
  Forall record_no_match pre →
  record_match r t →
  record_gives root r.1 t
  ∧ ∀ p' t', path_before p' r.1 = true → ¬ record_gives root p' t'.
Proof.
  intros Hsplit Hpre Hr.
  assert (r ∈ view_records root) as Hin
    by (rewrite Hsplit; apply elem_of_app; right; by left).
  split; [by apply (record_match_gives root r t Hin)|].
  intros p' t' Hbefore Hgives.
  pose proof Hgives as [(e' & Hp' & Htag & Hmodel) _].
  assert ((p', e') ∈ view_records root) as Hin'
    by (by apply elem_of_view_records).
  assert (StronglySorted comes_before (pre ++ r :: post)) as Hsorted.
  { rewrite <- Hsplit. apply filter_sorted, all_elements_sorted. }
  apply sorted_split in Hsorted as [_ Hpost].
  pose proof Hin' as Hwhere. rewrite Hsplit in Hwhere.
  apply elem_of_app in Hwhere as [Hwhere|Hwhere].
  - rewrite Forall_forall in Hpre.
    apply (proj1 (record_no_match_gives root (p', e') Hin')
             (Hpre _ Hwhere) t' Hgives).
  - apply elem_of_cons in Hwhere as [<-|Hwhere].
    + simpl in Hbefore. by rewrite path_before_irrefl in Hbefore.
    + specialize (Hpost _ Hwhere). unfold comes_before in Hpost.
      simpl in Hpost. apply path_before_asym in Hpost. congruence.
Qed.

Lemma no_giving_record (root : Element) :
  Forall record_no_match (view_records root)
  ↔ ∀ p t, ¬ record_gives root p t.
Proof.
  rewrite Forall_forall. split.
  - intros Hall p t Hgives.
    pose proof Hgives as [(e & Hp & Htag & Hmodel) _].
    assert ((p, e) ∈ view_records root) as Hin
      by (by apply elem_of_view_records).
    apply (proj1 (record_no_match_gives root (p, e) Hin) (Hall _ Hin)
             t Hgives).
  - intros Hnone r Hin. apply (record_no_match_gives root r Hin).
    intros t. apply Hnone.
Qed.

(** C6, amended.  The classifier takes the view records in document
    order and, in the first one below whose arch field (the first field
    named [arch] below the record) there is a view tag, the first tag
    of the priority order found there, [tree] read as [list]; when no
    record gives a tag it makes the same search strictly below the root
    element, which is not looked at itself; it gives no other answer,
    and it gives [None] exactly when neither search finds a tag. *)
Theorem classifier_priority_order (root : Element) :
  (∀ p t,
     record_gives root p t →
     (∀ p' t', path_before p' p = true → ¬ record_gives root p' t') →
     get_view_type_from_xml root = Some (as_list t))
  ∧ (∀ t,
       (∀ p t', ¬ record_gives root p t') →
       first_tag_below root [] t →
       get_view_type_from_xml root = Some (as_list t))
  ∧ (∀ vt,
       get_view_type_from_xml root = Some vt →
       (∃ p t,
          record_gives root p t
          ∧ (∀ p' t', path_before p' p = true → ¬ record_gives root p' t')
          ∧ vt = as_list t)
       ∨ ((∀ p t, ¬ record_gives root p t)
          ∧ ∃ t, first_tag_below root [] t ∧ vt = as_list t))
  ∧ (get_view_type_from_xml root = None
     ↔ (∀ p t, ¬ record_gives root p t)
       ∧ ∀ t, t ∈ PRIORITY_ORDER → ¬ tag_below root [] t).
Proof.
  unfold get_view_type_from_xml. split; [|split; [|split]].
  - intros p t Hgives Hleast.
    pose proof Hgives as [(e & Hp & Htag & Hmodel) _].
    assert ((p, e) ∈ view_records root) as Hin
      by (by apply elem_of_view_records).
    pose proof Hin as (pre & post & Hsplit)%list_elem_of_split.
    assert (StronglySorted comes_before (pre ++ (p, e) :: post)) as Hsorted.
    { rewrite <- Hsplit. apply filter_sorted, all_elements_sorted. }
    apply sorted_split in Hsorted as [Hpre _].
    assert (Forall record_no_match pre) as Hnone.
    { apply Forall_forall. intros r Hr.
      assert (r ∈ view_records root) as Hrin
        by (rewrite Hsplit; apply elem_of_app; by left).
      apply (record_no_match_gives root r Hrin). intros t'.
      apply Hleast. by apply Hpre. }
    rewrite Hsplit, (scan_records_skip pre _ Hnone).
    by rewrite (scan_records_hit _ _ t
                  (proj2 (record_match_gives root (p, e) t Hin) Hgives)).
  - intros t Hnone (i & Hi & Ht & Hbefore)%(first_match_tag root ([], root)
                                              t eq_refl).
    apply no_giving_record, scan_records_none in Hnone. rewrite Hnone.
    by apply (first_view_tag_found _ _ i).
  - intros vt. destruct (scan_records (view_records root)) as [vt'|] eqn:Hs.
    + intros [= ->]. left.
      apply scan_records_some in Hs
        as (pre & r & post & t & Hsplit & Hpre & Hr & ->).
      destruct (first_giving_record root pre post r t Hsplit Hpre Hr)
        as [Hgives Hleast].
      by exists r.1, t.
    + intros (t & Hfirst & ->)%first_view_tag_some. right.
      split; [by apply no_giving_record, scan_records_none|].
      exists t. split; [|done].
      by apply (first_match_tag root ([], root) t eq_refl).
  - destruct (scan_records (view_records root)) as [vt|] eqn:Hs.
    + split; [done|]. intros [Hnone _].
      apply no_giving_record, scan_records_none in Hnone. congruence.
    + rewrite first_view_tag_none.
      rewrite <- (no_match_tag root ([], root) eq_refl).
      apply (proj1 (scan_records_none _)) in Hs.
      pose proof (proj1 (no_giving_record root) Hs) as Hnone.
      unfold no_match. split; [done|by intros [_ ?]].
Qed.

(** C6, as stated, fails: the document is a [form] element and nothing
    else.  No record gives a tag, the search of the whole document
    meets a [form], the root element, and the classifier gives no
    type. *)
Lemma root_view_element_counterexample :
  view_records Sample.bare_form_doc = []
  ∧ element_at Sample.bare_form_doc [] (λ e, tag e = "form")
  ∧ "form" ∈ PRIORITY_ORDER
  ∧ get_view_type_from_xml Sample.bare_form_doc = None.
Proof.
  split; [done|]. split; [by eexists|]. split; [|done].
  do 2 right. by left.
Qed.

Lemma classifier_priority_order_witness :
  get_view_type_from_xml Sample.two_records_doc = Some "graph"
  ∧ get_view_type_from_xml Sample.kanban_tree_doc = Some "list"
  ∧ get_view_type_from_xml Sample.search_form_doc = Some "form"
  ∧ get_view_type_from_xml Sample.bare_record_doc = None.
Proof.
  split; [|split; [|split]].
  - destruct (classifier_priority_order Sample.two_records_doc) as (Hrecord & _).
    destruct (first_giving_record Sample.two_records_doc
                [] [([2], Sample.view_record [("id", "second")]
                            [Sample.arch_field
                               [Sample.el "kanban" [] [];
                                Sample.el "list" [] []]])]
                ([1], Sample.view_record [("id", "first")]
                        [Sample.arch_field [Sample.el "graph" [] []]])
                "graph") as [Hgives Hleast].
    + reflexivity.
    + constructor.
    + eexists. split; [reflexivity|]. exists 5.
      split; [reflexivity|]. split; [discriminate|].
      intros j t' Hj Hl.
      do 5 (destruct j as [|j]; [by injection Hl as <-|]). lia.
    + exact (Hrecord [1] "graph" Hgives Hleast).
  - destruct (classifier_priority_order Sample.kanban_tree_doc) as (Hrecord & _).
    destruct (first_giving_record Sample.kanban_tree_doc [] []
                ([0], Sample.view_record [("id", "v")]
                        [Sample.arch_field
                           [Sample.el "kanban" [] [];
                            Sample.el "tree" [] []]])
                "tree") as [Hgives Hleast].
    + reflexivity.
    + constructor.
    + eexists. split; [reflexivity|]. exists 1.
      split; [reflexivity|]. split; [discriminate|].
      intros j t' Hj Hl. destruct j as [|j]; [by injection Hl as <-|lia].
    + exact (Hrecord [0] "tree" Hgives Hleast).
  - destruct (classifier_priority_order Sample.search_form_doc)
      as (_ & Hdocument & _).
    apply (Hdocument "form").
    + apply no_giving_record. constructor.
    + apply (first_match_tag Sample.search_form_doc ([], Sample.search_form_doc) "form"
               eq_refl).
      exists 2. split; [reflexivity|]. split; [discriminate|].
      intros j t' Hj Hl.
      do 2 (destruct j as [|j]; [by injection Hl as <-|]). lia.
  - apply (classifier_priority_order Sample.bare_record_doc). split.
    + apply no_giving_record. constructor; [|constructor].
      intros a Ha. discriminate Ha.
    + apply (no_match_tag Sample.bare_record_doc
               ([], Sample.bare_record_doc) eq_refl).
      intros t Ht. unfold VIEW_TYPES in Ht.
      repeat (apply elem_of_cons in Ht as [->|Ht]; [reflexivity|]).
      by apply elem_of_nil in Ht.
Defined.

(** ** C9: how often a view element is extracted and validated *)

Lemma times_in_app (q : Path) (l1 l2 : list Node) :
  times_in q (l1 ++ l2) = times_in q l1 + times_in q l2.
Proof. unfold times_in. by rewrite filter_app, length_app. Qed.

Lemma times_in_absent (P : Node → Prop) `{∀ n, Decision (P n)} (q : Path)
    (l : list Node) :
  q ∉ l.*1 → times_in q (filter P l) = 0.
Proof.
  intros Hq. unfold times_in.
  assert (filter (λ n : Node, n.1 = q) (filter P l) = []) as ->; [|done].
  apply filter_none, Forall_forall.
  intros n [_ Hn]%list_elem_of_filter <-.
  apply Hq, list_elem_of_fmap. by exists n.
Qed.

Lemma times_in_present (P : Node → Prop) `{∀ n, Decision (P n)} (q : Path)
    (d : Element) (l : list Node) :
  NoDup l.*1 → (q, d) ∈ l → P (q, d) → times_in q (filter P l) = 1.
Proof.
  intros Hnd Hin HP. induction l as [|[q0 d0] l IH]; [by apply elem_of_nil in Hin|].
  rewrite fmap_cons in Hnd. apply NoDup_cons in Hnd as [Hq0 Hnd].
  apply elem_of_cons in Hin as [[= <- <-]|Hin].
  - rewrite filter_cons_True by done. unfold times_in.
    rewrite filter_cons_True by done. simpl.
    fold (times_in q (filter P l)). by rewrite times_in_absent.
  - assert (q0 ≠ q) as Hne.
    { intros ->. apply Hq0, list_elem_of_fmap. by exists (q, d). }
    rewrite <- (IH Hnd Hin). unfold times_in.
    destruct (decide (P (q0, d0))).
    + rewrite (filter_cons_True P) by done. by rewrite filter_cons_False.
    + by rewrite (filter_cons_False P).
Qed.

(** The element at [q] is once among the elements of its tag below the
    element at [a.1] when [q] is strictly below, and not at all
    otherwise. *)
Lemma times_in_elements_below (root : Element) (a : Node) (q : Path)
    (e : Element) (view_type : string) :
  subtree a.1 root = Some a.2 → subtree q root = Some e → tag e = view_type →
  times_in q (elements_below view_type a)
  = if bool_decide (a.1 `prefix_of` q) && bool_decide (a.1 ≠ q) then 1 else 0.
Proof.
  intros Ha Hq Ht. unfold elements_below, descendants.
  destruct (bool_decide (a.1 `prefix_of` q) && bool_decide (a.1 ≠ q)) eqn:Hb.
  - apply andb_true_iff in Hb as [[r ->]%bool_decide_eq_true
                                   Hne%bool_decide_eq_true].
    apply (times_in_present _ _ e).
    + apply descendants_from_NoDup.
    + apply elem_of_descendants_from. exists r. split.
      * intros ->. by rewrite app_nil_r in Hne.
      * split; [done|]. rewrite subtree_app, Ha in Hq. done.
    + unfold has_tag. simpl. by apply bool_decide_pack.
  - apply times_in_absent. intros ([q' d] & -> & Hn)%list_elem_of_fmap.
    apply elem_of_descendants_from in Hn as (r & Hr & Heq & _).
    simpl in Hb. apply andb_false_iff in Hb as [Hb|Hb].
    + apply bool_decide_eq_false in Hb. apply Hb. by exists r.
    + apply bool_decide_eq_false in Hb. apply Hb. intros Heq'.
      apply Hr. apply (inj (app a.1)). by rewrite app_nil_r, <- Heq.
Qed.

Lemma times_in_extract_from_records (root : Element) (records : list Node)
    (q : Path) (e : Element) (view_type : string) :
  Forall (λ r : Node, subtree r.1 root = Some r.2) records →
  subtree q root = Some e → tag e = view_type →
  times_in q (extract_from_records records view_type)
  = length (filter (λ r, arch_encloses q r) records).
Proof.
  intros Hvalid Hq Ht.
  induction Hvalid as [|r records Hr Hvalid IH]; [done|].
  cbn [extract_from_records]. unfold arch_encloses at 1, arch_of.
  destruct (fields_named "arch" r) as [|a l] eqn:Harch.
  - rewrite filter_cons_False; [done|].
    unfold arch_encloses, arch_of. rewrite Harch. simpl. by intros [].
  - assert (a ∈ descendants r) as Ha.
    { assert (a ∈ fields_named "arch" r) as Hin by (rewrite Harch; by left).
      by apply list_elem_of_filter in Hin as [_ ?]. }
    apply (descendants_valid root r a Hr) in Ha as (_ & _ & _ & Ha).
    rewrite times_in_app, IH.
    rewrite (times_in_elements_below root a q e view_type Ha Hq Ht).
    destruct (bool_decide (a.1 `prefix_of` q) && bool_decide (a.1 ≠ q)) eqn:Hb.
    + rewrite filter_cons_True; [done|].
      unfold arch_encloses, arch_of. rewrite Harch. simpl. by rewrite Hb.
    + rewrite filter_cons_False; [done|].
      unfold arch_encloses, arch_of. rewrite Harch. simpl. rewrite Hb.
      by intros [].
Qed.

Lemma view_records_valid (root : Element) :
  Forall (λ r : Node, subtree r.1 root = Some r.2) (view_records root).
Proof.
  apply Forall_forall. intros r [_ Hr]%list_elem_of_filter.
  by apply all_elements_valid.
Qed.

Lemma below_is_not_root (a n : Node) : n ∈ descendants a → n.1 ≠ [].
Proof.
  destruct n as [q d]. unfold descendants.
  intros (r & Hr & -> & _)%elem_of_descendants_from Heq.
  by apply app_eq_nil in Heq as [_ ->].
Qed.

Lemma extracted_below_root (root : Element) (view_type : string) (n : Node) :
  n ∈ extract_view_elements_for_rng root view_type → n.1 ≠ [].
Proof.
  unfold extract_view_elements_for_rng. rewrite elem_of_app.
  intros [Hn|Hn].
  - induction (view_records root) as [|r records IH];
      [by apply elem_of_nil in Hn|].
    cbn [extract_from_records] in Hn.
    destruct (fields_named "arch" r) as [|a l]; [by apply IH|].
    apply elem_of_app in Hn as [Hn|Hn]; [|by apply IH].
    apply list_elem_of_filter in Hn as [_ Hn]. by apply (below_is_not_root a).
  - apply list_elem_of_filter in Hn as [_ Hn].
    by apply (below_is_not_root ([], root)).
Qed.

Section Validation.

Variable http_get : list string → string → result string.
Variable etree_fromstring : string → result Element.
Variable common_schema_path : string.
Variable RelaxNG : string → string → result Validator.

(** C9, amended.  An element of the view type that is not the root
    element is extracted once for each view record whose arch field (the
    first [field] named [arch] below the record) encloses it, and once
    more by the scan of the whole document: twice when one record
    encloses it, once when none does.  The root element is never
    extracted.  When both schemas are there and the validator compiles,
    each extracted reference is validated in turn, so the element is
    validated as many times as it was extracted. *)
Theorem view_element_extraction_count (root : Element) (view_type : string) :
  (∀ q e,
     subtree q root = Some e → tag e = view_type → q ≠ [] →
     times_in q (extract_view_elements_for_rng root view_type)
     = length (filter (λ r, arch_encloses q r) (view_records root)) + 1)
  ∧ times_in [] (extract_view_elements_for_rng root view_type) = 0
  ∧ ∀ xml_content w common_schema view_schema rng,
      etree_fromstring xml_content = Ok root →
      (download_rng_schema http_get "common" w).1 = Some common_schema →
      (download_rng_schema http_get view_type
         (download_rng_schema http_get "common" w).2).1 = Some view_schema →
      common_schema ≠ "" → view_schema ≠ "" →
      RelaxNG common_schema
        (Py.replace ("include href=" +:+ dq +:+ "common.rng" +:+ dq)
           ("include href=" +:+ dq +:+ common_schema_path +:+ dq)
           view_schema) = Ok rng →
      (validate_view_with_rng http_get etree_fromstring common_schema_path
         RelaxNG xml_content view_type w).1
      = flat_map (validate_element rng)
          (extract_view_elements_for_rng root view_type).
Proof.
  split; [|split].
  - intros q e Hq Ht Hne.
    unfold extract_view_elements_for_rng. rewrite times_in_app.
    rewrite (times_in_extract_from_records root _ q e view_type
               (view_records_valid root) Hq Ht).
    rewrite (times_in_elements_below root ([], root) q e view_type eq_refl
               Hq Ht).
    cbn [fst].
    rewrite (bool_decide_eq_true_2 ([] `prefix_of` q)) by apply prefix_nil.
    rewrite (bool_decide_eq_true_2 ([] ≠ q)) by (by intros <-).
    done.
  - unfold times_in.
    rewrite (filter_none (λ n : Node, n.1 = [])); [done|].
    apply Forall_forall. intros n Hn. by apply (extracted_below_root root view_type).
  - intros xml_content w common_schema view_schema rng Hparse Hc Hv Hcne Hvne
      Hrng.
    unfold validate_view_with_rng.
    destruct (download_rng_schema http_get "common" w) as [c w1].
    simpl in Hc, Hv. subst c.
    destruct (download_rng_schema http_get view_type w1) as [v w2].
    simpl in Hv. subst v.
    destruct common_schema; [done|]. destruct view_schema; [done|].
    cbn [Py.truthy negb orb fst]. rewrite Hparse.
    destruct (extract_view_elements_for_rng root view_type) as [|n l];
      [done|].
    cbn [default from_option id]. by rewrite Hrng.
Qed.

End Validation.

(** C9, as stated, fails: in a document of type [list] where the arch
    of a view record holds another view record, the [list] in the arch
    of the inner one is extracted three times and validated three
    times; and in a document of type [list] whose root element is a
    [list], that element, which no record wraps, is not extracted at
    all. *)
Lemma nested_records_extraction_counterexample :
  get_view_type_from_xml Sample.nested_doc = Some "list"
  ∧ subtree [0; 0; 0; 0; 0] Sample.nested_doc = Some (Sample.el "list" [] [])
  ∧ times_in [0; 0; 0; 0; 0]
      (extract_view_elements_for_rng Sample.nested_doc "list") = 3
  ∧ (validate_view_with_rng Sample.http_up Sample.fromstring
       "/tmp/common.rng" Sample.relaxng (Sample.write Sample.nested_doc)
       "list" Sample.empty_world).1
    = [RngError None "Element not expected";
       RngError None "Element not expected";
       RngError None "Element not expected"]
  ∧ (let doc := Sample.el "list" [] [Sample.el "list" [] []] in
     get_view_type_from_xml doc = Some "list"
     ∧ tag doc = "list"
     ∧ view_records doc = []
     ∧ times_in [] (extract_view_elements_for_rng doc "list") = 0).
Proof. vm_compute. done. Qed.

Lemma view_element_extraction_count_witness :
  times_in [0; 0; 0] (extract_view_elements_for_rng Sample.mixed_doc "list") = 2
  ∧ times_in [1] (extract_view_elements_for_rng Sample.mixed_doc "list") = 1
  ∧ (validate_view_with_rng Sample.http_up Sample.fromstring
       "/tmp/common.rng" Sample.relaxng (Sample.write Sample.mixed_doc)
       "list" Sample.empty_world).1
    = [RngError None "Element not expected";
       RngError None "Element not expected";
       RngError None "Element not expected"].
Proof.
  destruct (view_element_extraction_count Sample.http_up Sample.fromstring
              "/tmp/common.rng" Sample.relaxng Sample.mixed_doc "list")
    as (Hcount & _ & Hvalidate).
  split; [|split].
  - etransitivity;
      [apply (Hcount [0; 0; 0] (Sample.el "list" [] []));
         [reflexivity|reflexivity|discriminate]|].
    vm_compute. reflexivity.
  - etransitivity;
      [apply (Hcount [1] (Sample.el "list" [] []));
         [reflexivity|reflexivity|discriminate]|].
    vm_compute. reflexivity.
  - etransitivity.
    + apply (Hvalidate (Sample.write Sample.mixed_doc) Sample.empty_world
               "<grammar/>" "<grammar/>" (λ _, (false, ["Element not expected"])));
        first [discriminate | vm_compute; reflexivity].
    + vm_compute. reflexivity.
Defined.

(** ** Files of a directory *)

Lemma write_file_names (name content : string) (dir : ViewsDir) :
  name ∈ dir.*1 → (write_file name content dir).*1 = dir.*1.
Proof.
  induction dir as [|[n c] dir IH]; simpl; [by intros ?%elem_of_nil|].
  intros Hin. case_decide as Hn; simpl; [done|].
  apply elem_of_cons in Hin as [->|Hin]; [done|]. f_equal. by apply IH.
Qed.

Lemma read_write_same (name content : string) (dir : ViewsDir) :
  read_file name (write_file name content dir) = Some content.
Proof.
  unfold read_file. induction dir as [|[n c] dir IH]; cbn [write_file].
  - by rewrite filter_cons_True.
  - case_decide as Hn.
    + by rewrite filter_cons_True.
    + by rewrite filter_cons_False.
Qed.

Lemma read_write_other (other name content : string) (dir : ViewsDir) :
  other ≠ name →
  read_file other (write_file name content dir) = read_file other dir.
Proof.
  intros Hne. unfold read_file.
  induction dir as [|[n c] dir IH]; cbn [write_file].
  - rewrite filter_cons_False by (simpl; congruence). done.
  - case_decide as Hn.
    + subst n. by rewrite !(filter_cons_False _ (name, _)) by (simpl; congruence).
    + destruct (decide (n = other)) as [->|Hno].
      * by rewrite !filter_cons_True.
      * by rewrite !(filter_cons_False _ (n, c)).
Qed.

Lemma glob_xml_subset (dir : ViewsDir) (f : string * string) :
  f ∈ glob_xml dir → f ∈ dir.
Proof. unfold glob_xml. by intros [_ ?]%list_elem_of_filter. Qed.

(** ** The merge engine *)

Section ExtendFacts.

Variable etree_parse : string → result Element.
Variable etree_fromstring : string → Fragment.
Variable tree_write : Element → string.
Variable xpath_field_template : string → string → string → string.
Variable inherited_view_template :
  string → string → string → string → string → string.
Variable user_text : string → option string → string.
Variable user_pick : string → list string → nat.

#[local] Abbreviation find_and_update :=
  (_find_and_update_view_file etree_parse etree_fromstring tree_write).
#[local] Abbreviation extend :=
  (extend_view etree_parse etree_fromstring tree_write xpath_field_template
     inherited_view_template).
#[local] Abbreviation view_command :=
  (view etree_parse etree_fromstring tree_write xpath_field_template
     inherited_view_template user_text user_pick).

Lemma try_file_target (view_id new_xpath_str file_text : string) :
  try_file etree_parse etree_fromstring tree_write view_id new_xpath_str
    file_text
  = match update_target etree_parse view_id file_text with
    | Some (root, _, arch_field) =>
        match etree_fromstring new_xpath_str with
        | Parsed new_xpath_element =>
            Ok (Some (tree_write
                        (append_at arch_field.1 new_xpath_element root)))
        | SyntaxError _ => Ok None
        | OtherError e => Raise e
        end
    | None => Ok None
    end.
Proof.
  unfold try_file, update_target, arch_of.
  destruct (etree_parse file_text) as [root|e]; [|done].
  destruct (find_match view_id root) as [m|]; [|done].
  by destruct (fields_named "arch" m).
Qed.

Lemma update_first_skip (view_id new_xpath_str : string)
    (skipped rest : ViewsDir) :
  Forall (λ f, update_target etree_parse view_id f.2 = None) skipped →
  update_first etree_parse etree_fromstring tree_write view_id new_xpath_str
    (skipped ++ rest)
  = update_first etree_parse etree_fromstring tree_write view_id
      new_xpath_str rest.
Proof.
  induction 1 as [|[n t] skipped Hf Hs IH]; [done|].
  simpl in *. by rewrite try_file_target, Hf.
Qed.

Lemma update_first_malformed (view_id new_xpath_str e : string)
    (files : ViewsDir) :
  etree_fromstring new_xpath_str = SyntaxError e →
  update_first etree_parse etree_fromstring tree_write view_id new_xpath_str
    files = Ok None.
Proof.
  intros He. induction files as [|[n t] files IH]; [done|].
  simpl. rewrite try_file_target, He.
  by destruct (update_target etree_parse view_id t) as [[[??]?]|].
Qed.


(** The command when the search updates no file and raises nothing:
    the new file. *)
Lemma extend_creates (module view_id model_name field xpath_expr position
    project_root : string) (env : list AddonsPath) (i : nat)
    (views : option ViewsDir) :
  find_module module 0 env = Some (i, views) →
  find_and_update views view_id
    (xpath_field_template xpath_expr position field)
  = Ok (false, views) →
  let view_name_part := Py.split_last "." view_id in
  let new_file_name := view_name_part +:+ "_inherited_views.xml" in
  let rendered :=
    inherited_view_template view_id
      (module +:+ "." +:+ view_name_part +:+ "_inherit_"
       +:+ PyPath.name (PyPath.join (addons_path_at i env) module))
      module model_name (xpath_field_template xpath_expr position field) in
  let output_path := output_path_of i module new_file_name env in
  let env' :=
    set_views i module
      (Some (write_file new_file_name rendered (default [] views))) env in
  extend module view_id model_name field xpath_expr position project_root env
  = if Py.has_char "/" new_file_name then Beyond output_path rendered
    else match
           PyPath.relative_to output_path (PyPath.parse project_root)
         with
         | Some _ => Success env'
         | None => Raised "ValueError" env'
         end.
Proof.
  intros Hmod Hsearch. unfold extend_view. by rewrite Hmod, Hsearch.
Qed.

Lemma search_without_target (views : option ViewsDir)
    (view_id new_xpath_str : string) :
  Forall (λ f, update_target etree_parse view_id f.2 = None)
    (glob_xml (default [] views)) →
  find_and_update views view_id new_xpath_str = Ok (false, views).
Proof.
  intros Hnone. unfold _find_and_update_view_file.
  destruct views as [dir|]; [|done]. cbn [default from_option id] in Hnone.
  rewrite <- (app_nil_r (glob_xml dir)).
  by rewrite (update_first_skip _ _ _ [] Hnone).
Qed.


(** C2, amended.  When the fragment is not well-formed, the search for
    an inherited view changes no file and returns [False] (the error of
    the parser is caught with those of the candidate files), and the
    command goes on to write the new file with the text of the fragment
    in it.  When the name of the new file has no slash, the file is
    written in the [views] directory of the module, over a file of that
    name if there is one, and it is the only file written; the command
    then ends in success when the file lies under the project root, and
    with a [ValueError] that nothing catches when it does not.  A name
    with a slash names a file elsewhere. *)
Theorem malformed_fragment_creates_new_file (views : option ViewsDir)
    (view_id new_xpath_str e : string) :
  etree_fromstring new_xpath_str = SyntaxError e →
  find_and_update views view_id new_xpath_str = Ok (false, views)
  ∧ ∀ module model_name field xpath_expr position project_root env i,
      xpath_field_template xpath_expr position field = new_xpath_str →
      find_module module 0 env = Some (i, views) →
      let view_name_part := Py.split_last "." view_id in
      let new_file_name := view_name_part +:+ "_inherited_views.xml" in
      let rendered :=
        inherited_view_template view_id
          (module +:+ "." +:+ view_name_part +:+ "_inherit_"
           +:+ PyPath.name (PyPath.join (addons_path_at i env) module))
          module model_name new_xpath_str in
      let output_path := output_path_of i module new_file_name env in
      let dir' := write_file new_file_name rendered (default [] views) in
      let env' := set_views i module (Some dir') env in
      (Py.has_char "/" new_file_name = false →
       extend module view_id model_name field xpath_expr position
         project_root env
       = match
           PyPath.relative_to output_path (PyPath.parse project_root)
         with
         | Some _ => Success env'
         | None => Raised "ValueError" env'
         end
       ∧ read_file new_file_name dir' = Some rendered
       ∧ ∀ other, other ≠ new_file_name →
                  read_file other dir' = read_file other (default [] views))
      ∧ (Py.has_char "/" new_file_name = true →
         extend module view_id model_name field xpath_expr position
           project_root env
         = Beyond output_path rendered).
Proof.
  intros He.
  assert (find_and_update views view_id new_xpath_str = Ok (false, views))
    as Hsearch.
  { unfold _find_and_update_view_file. destruct views as [dir|]; [|done].
    by rewrite (update_first_malformed _ _ e). }
  split; [done|].
  intros module model_name field xpath_expr position project_root env i Htpl
    Hmod view_name_part new_file_name rendered output_path dir' env'.
  subst new_xpath_str.
  pose proof (extend_creates module view_id model_name field xpath_expr
                position project_root env i views Hmod Hsearch) as Hcreate.
  cbn zeta in Hcreate. fold view_name_part new_file_name in Hcreate.
  split.
  - intros Hplain. rewrite Hplain in Hcreate. split; [exact Hcreate|].
    split; [apply read_write_same|].
    intros other Hother. by apply read_write_other.
  - intros Hslash. by rewrite Hslash in Hcreate.
Qed.

Lemma prompt_for_choice_in (prompt_text : string) (choices : list string)
    (choice : string) :
  prompt_for_choice user_pick prompt_text choices = Some choice →
  choice ∈ choices.
Proof.
  unfold prompt_for_choice. destruct choices as [|c choices]; [done|].
  intros [= <-].
  destruct ((c :: choices) !! user_pick prompt_text (c :: choices))
    as [c'|] eqn:Hc; simpl.
  - by apply list_elem_of_lookup_2 in Hc.
  - by left.
Qed.

(** C8, amended.  The XPath string, the field name and the position
    that the caller supplies, when not empty, are used as they are, and
    an XPath string or a field name that is omitted or empty is
    replaced by what is typed at the prompt, an empty answer included:
    nothing checks them.  A position that is omitted or empty is asked
    at the prompt, and the answer is one of [after], [before],
    [inside], [replace]; a position that is supplied is not checked
    against them.  Whatever the three values are, the command acts on
    them: when the module exists, no file of its [views] directory is
    one to update and the name of the new file has no slash, the new
    file is written with the fragment rendered from these very values
    in it. *)
Theorem view_uses_supplied_values
    (module view_id model_name : string) (field xpath_expr : option string)
    (project_root : string) (env : list AddonsPath) :
  Py.truthy (Some module) = true → Py.truthy (Some view_id) = true →
  Py.truthy (Some model_name) = true →
  let field_used :=
    if Py.truthy field then default "" field
    else user_text "What is the name of the new field to add?" None in
  let xpath_used :=
    if Py.truthy xpath_expr then default "" xpath_expr
    else user_text "Enter the XPath expression to target an element"
           (Some "//field[@name='vat']") in
  (∀ position,
     Py.truthy (Some position) = true →
     view_command (Some module) (Some view_id) (Some model_name) field
       xpath_expr (Some position) project_root env
     = extend module view_id model_name field_used xpath_used position
         project_root env)
  ∧ (∀ position,
       Py.truthy position = false →
       ∃ asked, asked ∈ ["after"; "before"; "inside"; "replace"]
                ∧ view_command (Some module) (Some view_id) (Some model_name)
                    field xpath_expr position project_root env
                  = extend module view_id model_name field_used xpath_used
                      asked project_root env)
  ∧ (∀ position i views,
       find_module module 0 env = Some (i, views) →
       Forall (λ f, update_target etree_parse view_id f.2 = None)
         (glob_xml (default [] views)) →
       let view_name_part := Py.split_last "." view_id in
       let new_file_name := view_name_part +:+ "_inherited_views.xml" in
       let rendered :=
         inherited_view_template view_id
           (module +:+ "." +:+ view_name_part +:+ "_inherit_"
            +:+ PyPath.name (PyPath.join (addons_path_at i env) module))
           module model_name
           (xpath_field_template xpath_used position field_used) in
       let env' :=
         set_views i module
           (Some (write_file new_file_name rendered (default [] views)))
           env in
       Py.has_char "/" new_file_name = false →
       (extend module view_id model_name field_used xpath_used position
          project_root env = Success env'
        ∨ extend module view_id model_name field_used xpath_used position
            project_root env = Raised "ValueError" env')
       ∧ read_file new_file_name
           (write_file new_file_name rendered (default [] views))
         = Some rendered).
Proof.
  intros Hm Hv Hmn field_used xpath_used. split; [|split].
  - intros position Hp. unfold view, or_prompt.
    by rewrite Hm, Hv, Hmn, Hp.
  - intros position Hp. unfold view, or_prompt.
    rewrite Hm, Hv, Hmn, Hp. cbn [default from_option id].
    destruct (prompt_for_choice user_pick
                "Select a position for the new field" POSITIONS)
      as [asked|] eqn:Hasked; [|done].
    exists asked. split; [|done]. by apply prompt_for_choice_in in Hasked.
  - intros position i views Hmod Hnone view_name_part new_file_name rendered
      env' Hplain.
    pose proof (extend_creates module view_id model_name field_used
                  xpath_used position project_root env i views Hmod
                  (search_without_target _ _ _ Hnone)) as Hcreate.
    cbn zeta in Hcreate. fold view_name_part new_file_name in Hcreate.
    rewrite Hplain in Hcreate. split; [|apply read_write_same].
    destruct (PyPath.relative_to _ _); [by left|by right].
Qed.

End ExtendFacts.



(** C2, as stated, fails: with a fragment that is not well-formed the
    call does not fail.  The candidate file that inherits from the
    target view is left as it is, and a new file is created with the
    broken fragment in it. *)
Lemma malformed_fragment_counterexample :
  let fragment :=
    Sample.broken_xpath_field "//field[@name='vat']" "after" "x_ref" in
  let candidate := ("partner.xml", Sample.write Sample.inheriting_doc) in
  Sample.fragment fragment = SyntaxError "XMLSyntaxError"
  ∧ extend_view Sample.parse Sample.fragment Sample.write
      Sample.broken_xpath_field Sample.inherited_view "sale_ext"
      "base.view_partner_form" "res.partner" "x_ref" "//field[@name='vat']"
      "after" Sample.project_root (Sample.addons_with [candidate])
    = Success
        (Sample.addons_with
           [candidate;
            ("view_partner_form_inherited_views.xml",
             Sample.inherited_view "base.view_partner_form"
               "sale_ext.view_partner_form_inherit_sale_ext" "sale_ext"
               "res.partner" fragment)]).
Proof. vm_compute. done. Qed.

Lemma malformed_fragment_creates_new_file_witness :
  let fragment :=
    Sample.broken_xpath_field "//field[@name='vat']" "after" "x_ref" in
  let dir := [("partner.xml", Sample.write Sample.inheriting_doc)] in
  let dir' :=
    dir ++
    [("view_partner_form_inherited_views.xml",
      Sample.inherited_view "base.view_partner_form"
        "sale_ext.view_partner_form_inherit_sale_ext" "sale_ext"
        "res.partner" fragment)] in
  _find_and_update_view_file Sample.parse Sample.fragment Sample.write
    (Some dir) "base.view_partner_form" fragment
  = Ok (false, Some dir)
  ∧ extend_view Sample.parse Sample.fragment Sample.write
      Sample.broken_xpath_field Sample.inherited_view "sale_ext"
      "base.view_partner_form" "res.partner" "x_ref" "//field[@name='vat']"
      "after" Sample.project_root (Sample.addons_with dir)
    = Success (Sample.addons_with dir')
  ∧ extend_view Sample.parse Sample.fragment Sample.write
      Sample.broken_xpath_field Sample.inherited_view "sale_ext"
      "base.view_partner_form" "res.partner" "x_ref" "//field[@name='vat']"
      "after" "/home/dev/other" (Sample.addons_with dir)
    = Raised "ValueError" (Sample.addons_with dir')
  ∧ extend_view Sample.parse Sample.fragment Sample.write
      Sample.broken_xpath_field Sample.inherited_view "sale_ext"
      "base.sub/form" "res.partner" "x_ref" "//field[@name='vat']"
      "after" Sample.project_root (Sample.addons_with dir)
    = Beyond
        ("/", ["home"; "dev"; "project"; "addons"; "sale_ext"; "views";
               "sub"; "form_inherited_views.xml"])
        (Sample.inherited_view "base.sub/form"
           "sale_ext.sub/form_inherit_sale_ext" "sale_ext" "res.partner"
           fragment).
Proof.
  intros fragment dir dir'.
  destruct (malformed_fragment_creates_new_file Sample.parse
              Sample.fragment Sample.write Sample.broken_xpath_field
              Sample.inherited_view (Some dir) "base.view_partner_form"
              fragment "XMLSyntaxError") as [Hsearch Hcommand].
  { vm_compute. reflexivity. }
  destruct (malformed_fragment_creates_new_file Sample.parse
              Sample.fragment Sample.write Sample.broken_xpath_field
              Sample.inherited_view (Some dir) "base.sub/form"
              fragment "XMLSyntaxError") as [_ Hslash].
  { vm_compute. reflexivity. }
  split; [exact Hsearch|]. split; [|split].
  - destruct (Hcommand "sale_ext" "res.partner" "x_ref"
                "//field[@name='vat']" "after" Sample.project_root
                (Sample.addons_with dir) 0) as [Hnew _];
      [reflexivity|vm_compute; reflexivity|].
    destruct Hnew as (Hnew & _ & _); [vm_compute; reflexivity|].
    etransitivity; [exact Hnew|]. vm_compute. reflexivity.
  - destruct (Hcommand "sale_ext" "res.partner" "x_ref"
                "//field[@name='vat']" "after" "/home/dev/other"
                (Sample.addons_with dir) 0) as [Hnew _];
      [reflexivity|vm_compute; reflexivity|].
    destruct Hnew as (Hnew & _ & _); [vm_compute; reflexivity|].
    etransitivity; [exact Hnew|]. vm_compute. reflexivity.
  - destruct (Hslash "sale_ext" "res.partner" "x_ref"
                "//field[@name='vat']" "after" Sample.project_root
                (Sample.addons_with dir) 0) as [_ Hbeyond];
      [reflexivity|vm_compute; reflexivity|].
    etransitivity; [apply Hbeyond; vm_compute; reflexivity|].
    vm_compute. reflexivity.
Defined.

(** C8, as stated, fails: a position outside the four values is acted
    upon, and so is an empty field name given at the prompt. *)
Lemma unchecked_request_counterexample :
  ("sideways" ∉ ["after"; "before"; "inside"; "replace"])
  ∧ view Sample.parse Sample.fragment Sample.write Sample.xpath_field
      Sample.inherited_view Sample.user_text Sample.user_pick
      (Some "sale_ext") (Some "base.view_partner_form") (Some "res.partner")
      (Some "x_ref") (Some "//field[@name='vat']") (Some "sideways")
      Sample.project_root (Sample.addons_with [])
    = Success
        (Sample.addons_with
           [("view_partner_form_inherited_views.xml",
             Sample.inherited_view "base.view_partner_form"
               "sale_ext.view_partner_form_inherit_sale_ext" "sale_ext"
               "res.partner"
               (Sample.xpath_field "//field[@name='vat']" "sideways"
                  "x_ref"))])
  ∧ Sample.user_text "What is the name of the new field to add?" None = ""
  ∧ view Sample.parse Sample.fragment Sample.write Sample.xpath_field
      Sample.inherited_view Sample.user_text Sample.user_pick
      (Some "sale_ext") (Some "base.view_partner_form") (Some "res.partner")
      None (Some "//field[@name='vat']") (Some "after")
      Sample.project_root (Sample.addons_with [])
    = Success
        (Sample.addons_with
           [("view_partner_form_inherited_views.xml",
             Sample.inherited_view "base.view_partner_form"
               "sale_ext.view_partner_form_inherit_sale_ext" "sale_ext"
               "res.partner"
               (Sample.xpath_field "//field[@name='vat']" "after" ""))]).
Proof.
  split; [|split; [|split]].
  - intros H. repeat (apply elem_of_cons in H as [H|H]; [discriminate H|]).
    by apply elem_of_nil in H.
  - vm_compute. reflexivity.
  - reflexivity.
  - vm_compute. reflexivity.
Qed.

Lemma view_uses_supplied_values_witness :
  let written (position field : string) :=
    Success
      (Sample.addons_with
         [("view_partner_form_inherited_views.xml",
           Sample.inherited_view "base.view_partner_form"
             "sale_ext.view_partner_form_inherit_sale_ext" "sale_ext"
             "res.partner"
             (Sample.xpath_field "//field[@name='vat']" position field))]) in
  view Sample.parse Sample.fragment Sample.write Sample.xpath_field
    Sample.inherited_view Sample.user_text Sample.user_pick
    (Some "sale_ext") (Some "base.view_partner_form") (Some "res.partner")
    (Some "x_ref") None (Some "sideways") Sample.project_root
    (Sample.addons_with [])
  = written "sideways" "x_ref"
  ∧ view Sample.parse Sample.fragment Sample.write Sample.xpath_field
      Sample.inherited_view Sample.user_text Sample.user_pick
      (Some "sale_ext") (Some "base.view_partner_form") (Some "res.partner")
      None (Some "//field[@name='vat']") (Some "after") Sample.project_root
      (Sample.addons_with [])
    = written "after" ""
  ∧ (∃ asked,
       asked ∈ ["after"; "before"; "inside"; "replace"]
       ∧ view Sample.parse Sample.fragment Sample.write Sample.xpath_field
           Sample.inherited_view Sample.user_text Sample.user_pick
           (Some "sale_ext") (Some "base.view_partner_form")
           (Some "res.partner") (Some "x_ref") (Some "//field[@name='vat']")
           None Sample.project_root (Sample.addons_with [])
         = extend_view Sample.parse Sample.fragment Sample.write
             Sample.xpath_field Sample.inherited_view "sale_ext"
             "base.view_partner_form" "res.partner" "x_ref"
             "//field[@name='vat']" asked Sample.project_root
             (Sample.addons_with []))
  ∧ read_file "view_partner_form_inherited_views.xml"
      [("view_partner_form_inherited_views.xml",
        Sample.inherited_view "base.view_partner_form"
          "sale_ext.view_partner_form_inherit_sale_ext" "sale_ext"
          "res.partner"
          (Sample.xpath_field "//field[@name='vat']" "sideways" ""))]
    = Some
        (Sample.inherited_view "base.view_partner_form"
           "sale_ext.view_partner_form_inherit_sale_ext" "sale_ext"
           "res.partner"
           (Sample.xpath_field "//field[@name='vat']" "sideways" "")).
Proof.
  intros written.
  pose proof (λ field xpath_expr,
                view_uses_supplied_values Sample.parse Sample.fragment
                  Sample.write Sample.xpath_field Sample.inherited_view
                  Sample.user_text Sample.user_pick "sale_ext"
                  "base.view_partner_form" "res.partner" field xpath_expr
                  Sample.project_root (Sample.addons_with [])
                  eq_refl eq_refl eq_refl) as Hview.
  cbn zeta in Hview.
  split; [|split; [|split]].
  - destruct (Hview (Some "x_ref") None) as (Hgiven & _ & _).
    etransitivity; [apply Hgiven; reflexivity|].
    vm_compute. reflexivity.
  - destruct (Hview None (Some "//field[@name='vat']")) as (Hgiven & _ & _).
    etransitivity; [apply Hgiven; reflexivity|].
    vm_compute. reflexivity.
  - destruct (Hview (Some "x_ref") (Some "//field[@name='vat']"))
      as (_ & Hasked & _).
    apply (Hasked None). reflexivity.
  - destruct (Hview None None) as (_ & _ & Hacted).
    destruct (Hacted "sideways" 0 (Some [])) as [_ Hread];
      [reflexivity|constructor|reflexivity|].
    exact Hread.
Defined.

(** * More properties of the code *)

(** ** The classifier and the extraction of the view elements *)

Lemma descendants_of_valid (root : Element) (a n : Node) :
  subtree a.1 root = Some a.2 → n ∈ descendants a →
  n ∈ descendants ([], root).
Proof.
  intros Ha Hn.
  destruct (descendants_valid root a n Ha Hn) as (r & Hr & Heq & Hsub).
  destruct n as [q d]. simpl in *. unfold descendants. simpl.
  apply elem_of_descendants_from. exists q. split; [|done].
  intros ->. symmetry in Heq. by apply app_eq_nil in Heq as [_ ?].
Qed.

Lemma arch_of_valid (root : Element) (record arch_content : Node) :
  subtree record.1 root = Some record.2 →
  arch_of record = Some arch_content →
  subtree arch_content.1 root = Some arch_content.2.
Proof.
  intros Hr Ha. unfold arch_of in Ha. apply head_Some_elem_of in Ha.
  apply list_elem_of_filter in Ha as [_ Ha].
  by apply (descendants_valid root record arch_content Hr) in Ha
    as (_ & _ & _ & ?).
Qed.

Lemma first_view_tag_source (scope : Node) (tags : list string) (vt : string) :
  first_view_tag scope tags = Some vt →
  ∃ t n, t ∈ tags ∧ normalize t = vt ∧ n ∈ elements_below t scope.
Proof.
  induction tags as [|t0 tags IH]; [done|]. cbn [first_view_tag].
  destruct (elements_below t0 scope) as [|n l] eqn:Hn.
  - intros (t & m & Ht & Hnorm & Hm)%IH. exists t, m. split; [by right|done].
  - intros [= <-]. exists t0, n. split; [by left|]. split; [done|].
    rewrite Hn. by left.
Qed.

Lemma scan_records_source (root : Element) (records : list Node)
    (vt : string) :
  Forall (λ r : Node, subtree r.1 root = Some r.2) records →
  scan_records records = Some vt →
  ∃ t n, t ∈ VIEW_TYPES ∧ normalize t = vt
         ∧ n ∈ elements_below t ([], root).
Proof.
  induction 1 as [|r records Hr Hvalid IH]; [done|]. cbn [scan_records].
  destruct (fields_named "arch" r) as [|a l] eqn:Harch; [done|].
  destruct (first_view_tag a VIEW_TYPES) as [vt'|] eqn:Hf; [|done].
  intros [= <-].
  apply first_view_tag_source in Hf as (t & n & Ht & Hnorm & Hn).
  exists t, n. split; [done|]. split; [done|].
  apply list_elem_of_filter in Hn as [Htag Hn].
  apply list_elem_of_filter. split; [done|].
  apply (descendants_of_valid root a); [|done].
  apply (arch_of_valid root r); [done|]. unfold arch_of. by rewrite Harch.
Qed.

(** X1.  The type the classifier gives is one of the eight view types,
    never [tree], and it is the type of an element that is in the
    document, below the root: a [list] or [tree] element for [list], an
    element of that very tag for the other types. *)
Theorem classifier_result_is_known_type (root : Element) (vt : string) :
  get_view_type_from_xml root = Some vt →
  vt ∈ KNOWN_VIEW_TYPES
  ∧ ∃ t n, t ∈ VIEW_TYPES ∧ normalize t = vt
           ∧ n ∈ descendants ([], root) ∧ tag n.2 = t.
Proof.
  intros Hvt.
  assert (∃ t n, t ∈ VIEW_TYPES ∧ normalize t = vt
                 ∧ n ∈ elements_below t ([], root))
    as (t & n & Ht & Hnorm & Hn).
  { unfold get_view_type_from_xml in Hvt.
    destruct (scan_records (view_records root)) as [vt'|] eqn:Hs.
    - injection Hvt as ->.
      by apply (scan_records_source root _ _ (view_records_valid root)).
    - by apply first_view_tag_source in Hvt. }
  split.
  - subst vt. unfold VIEW_TYPES in Ht.
    repeat (apply elem_of_cons in Ht as [->|Ht];
            [vm_compute; by repeat constructor|]).
    by apply elem_of_nil in Ht.
  - exists t, n. split; [done|]. split; [done|].
    apply list_elem_of_filter in Hn as [Htag Hn]. split; [done|].
    unfold has_tag in Htag. by apply bool_decide_unpack in Htag.
Qed.

Lemma classifier_result_is_known_type_witness :
  "list" ∈ KNOWN_VIEW_TYPES
  ∧ ∃ t n, t ∈ VIEW_TYPES ∧ normalize t = "list"
           ∧ n ∈ descendants ([], Sample.tree_doc) ∧ tag n.2 = t.
Proof.
  apply (classifier_result_is_known_type Sample.tree_doc "list").
  reflexivity.
Defined.

Lemma extract_from_records_elem (root : Element) (records : list Node)
    (view_type : string) (n : Node) :
  Forall (λ r : Node, subtree r.1 root = Some r.2) records →
  n ∈ extract_from_records records view_type →
  n ∈ elements_below view_type ([], root).
Proof.
  induction 1 as [|r records Hr Hvalid IH]; [by intros ?%elem_of_nil|].
  cbn [extract_from_records].
  destruct (fields_named "arch" r) as [|a l] eqn:Harch; [done|].
  intros [Hn|Hn]%elem_of_app; [|by apply IH].
  apply list_elem_of_filter in Hn as [Htag Hn].
  apply list_elem_of_filter. split; [done|].
  apply (descendants_of_valid root a); [|done].
  apply (arch_of_valid root r); [done|]. unfold arch_of. by rewrite Harch.
Qed.

Lemma extract_elem (root : Element) (view_type : string) (n : Node) :
  n ∈ extract_view_elements_for_rng root view_type →
  n ∈ elements_below view_type ([], root).
Proof.
  unfold extract_view_elements_for_rng. intros [Hn|Hn]%elem_of_app; [|done].
  by apply (extract_from_records_elem root _ _ _ (view_records_valid root)).
Qed.

(** X2.  Every reference that the extraction returns points at an
    element of the document, below the root, that has the requested
    tag. *)
Theorem extracted_elements_are_in_document (root : Element)
    (view_type : string) (n : Node) :
  n ∈ extract_view_elements_for_rng root view_type →
  tag n.2 = view_type ∧ n.1 ≠ [] ∧ subtree n.1 root = Some n.2.
Proof.
  intros Hn%extract_elem. apply list_elem_of_filter in Hn as [Htag Hn].
  split; [by apply bool_decide_unpack in Htag|].
  destruct (descendants_valid root ([], root) n eq_refl Hn)
    as (r & Hr & Heq & Hsub).
  split; [|done]. simpl in Heq. by rewrite Heq.
Qed.

Lemma extracted_elements_are_in_document_witness :
  tag (Sample.el "list" [] []) = "list"
  ∧ [0; 0; 0] ≠ []
  ∧ subtree [0; 0; 0] Sample.mixed_doc = Some (Sample.el "list" [] []).
Proof.
  apply (extracted_elements_are_in_document Sample.mixed_doc "list"
           ([0; 0; 0], Sample.el "list" [] [])).
  vm_compute. by left.
Defined.

(** ** The convention rules, one kind of finding at a time *)

Ltac finding_kinds :=
  repeat lazymatch goal with
    | |- Forall _ [] => constructor
    | |- Forall _ (_ :: _) => constructor
    | |- _ ∨ _ => first [by left | by right]
    | |- Is_true _ => exact I
    | |- ∃ _, _ => by eexists
    end.

Lemma check_record_kinds (r : Node) :
  Forall (λ f, is_missing_id f ∨ is_missing_field f) (check_record r).
Proof.
  unfold check_record, check_required_fields. apply Forall_app. split.
  - destruct (Py.truthy _); finding_kinds.
  - apply flat_map_Forall. intros name.
    destruct (fields_named name r); finding_kinds.
Qed.

Lemma check_attrs_states_kinds (n : Node) :
  Forall (λ f, is_deprecated_attrs f ∨ is_deprecated_states f)
    (check_attrs_states n).
Proof.
  unfold check_attrs_states. apply Forall_app.
  split; destruct (Py.truthy _); finding_kinds.
Qed.

Lemma check_string_kinds (n : Node) :
  Forall (λ f, is_missing_string f) (check_string n).
Proof. unfold check_string. destruct (_ && _); finding_kinds. Qed.

Lemma check_field_name_kinds (n : Node) :
  Forall (λ f, ∃ line, f = FieldMissingName line) (check_field_name n).
Proof.
  unfold check_field_name. destruct (Py.truthy _); finding_kinds.
Qed.

Lemma filter_other_kind {A} (P Q : A → Prop) `{∀ x, Decision (P x)}
    (l : list A) :
  Forall Q l → (∀ x, Q x → ¬ P x) → filter P l = [].
Proof.
  intros Hl HQ. apply filter_none. eapply Forall_impl; [exact Hl|exact HQ].
Qed.

Lemma filter_all {A} (P : A → Prop) `{∀ x, Decision (P x)} (l : list A) :
  Forall P l → filter P l = l.
Proof.
  induction 1 as [|x l Hx Hl IH]; [done|].
  by rewrite filter_cons_True, IH.
Qed.

(** X3.  The rule on [tree] elements: when the type is [list] there is
    one finding for each [tree] element of the document, in document
    order, with the line of that element; for any other type there is
    none. *)
Theorem deprecated_tree_findings (root : Element) (view_type : string) :
  filter (λ f, is_deprecated_tree f)
    (validate_odoo_view_conventions root view_type)
  = if decide (view_type = "list")
    then (λ n : Node, DeprecatedTree (sourceline n.2))
           <$> filter (λ n, has_tag "tree" n) (all_elements root)
    else [].
Proof.
  unfold validate_odoo_view_conventions. rewrite !filter_app.
  rewrite (filter_other_kind _ _ (flat_map check_attrs_states _)
             (flat_map_Forall _ _ _ check_attrs_states_kinds))
    by (intros [] [[]|[]] []).
  rewrite (filter_other_kind _ _ (flat_map check_record _)
             (flat_map_Forall _ _ _ check_record_kinds))
    by (intros [] [[]|[]] []).
  rewrite (filter_other_kind _ _ (flat_map check_string _)
             (flat_map_Forall _ _ _ check_string_kinds))
    by (intros [] [] []).
  rewrite (filter_other_kind _ _ (flat_map check_field_name _)
             (flat_map_Forall _ _ _ check_field_name_kinds))
    by (intros f [line ->] []).
  rewrite !app_nil_r. case_decide; [|done].
  apply filter_all, Forall_fmap, Forall_true. by intros n.
Qed.

Lemma filter_cons_bool {A} (p : A → bool) (x : A) (l : list A) :
  filter (λ y, p y) (x :: l)
  = if p x then x :: filter (λ y, p y) l else filter (λ y, p y) l.
Proof.
  destruct (p x) eqn:Hp.
  - rewrite filter_cons_True; [done|]. by rewrite Hp.
  - rewrite filter_cons_False; [done|]. rewrite Hp. by intros [].
Qed.

Lemma attrs_states_of_elements (l : list Node) :
  filter (λ f, is_deprecated_attrs f)
    (flat_map check_attrs_states (filter (λ n, has_attrs_or_states n) l))
  = (λ n : Node,
       DeprecatedAttrs (sourceline n.2) (tag n.2)
         (get_attrs_replacement_suggestion (default "" (get n.2 "attrs"))))
    <$> filter (λ n : Node, Py.truthy (get n.2 "attrs")) l
  ∧ filter (λ f, is_deprecated_states f)
      (flat_map check_attrs_states (filter (λ n, has_attrs_or_states n) l))
    = (λ n : Node,
         DeprecatedStates (sourceline n.2) (tag n.2)
           (default "" (get n.2 "states")))
      <$> filter (λ n : Node, Py.truthy (get n.2 "states")) l.
Proof.
  induction l as [|n l [IHa IHs]]; [done|].
  rewrite !(filter_cons_bool (λ n : Node, Py.truthy (get n.2 "attrs"))).
  rewrite !(filter_cons_bool (λ n : Node, Py.truthy (get n.2 "states"))).
  rewrite !(filter_cons_bool has_attrs_or_states).
  destruct (has_attrs_or_states n) eqn:Hn.
  - cbn [flat_map]. rewrite !filter_app, IHa, IHs. unfold check_attrs_states.
    rewrite !filter_app.
    by destruct (Py.truthy (get n.2 "attrs")),
                (Py.truthy (get n.2 "states")).
  - rewrite IHa, IHs. unfold has_attrs_or_states in Hn.
    apply orb_false_elim in Hn as [Ha Hs].
    apply bool_decide_eq_false in Ha, Hs.
    destruct (get n.2 "attrs"); [by destruct Ha|].
    destruct (get n.2 "states"); [by destruct Hs|]. done.
Qed.

(** X4.  The rule on [attrs] and [states]: there is one finding for each
    element with a non-empty [attrs], carrying the suggestion computed
    from the value, and one for each element with a non-empty [states],
    carrying the value, each in document order; an attribute that is
    there but empty gives none. *)
Theorem deprecated_attrs_and_states_findings (root : Element)
    (view_type : string) :
  filter (λ f, is_deprecated_attrs f)
    (validate_odoo_view_conventions root view_type)
  = (λ n : Node,
       DeprecatedAttrs (sourceline n.2) (tag n.2)
         (get_attrs_replacement_suggestion (default "" (get n.2 "attrs"))))
    <$> filter (λ n : Node, Py.truthy (get n.2 "attrs")) (all_elements root)
  ∧ filter (λ f, is_deprecated_states f)
      (validate_odoo_view_conventions root view_type)
    = (λ n : Node,
         DeprecatedStates (sourceline n.2) (tag n.2)
           (default "" (get n.2 "states")))
      <$> filter (λ n : Node, Py.truthy (get n.2 "states"))
            (all_elements root).
Proof.
  destruct (attrs_states_of_elements (all_elements root)) as [Ha Hs].
  unfold validate_odoo_view_conventions. rewrite !filter_app, Ha, Hs.
  assert (∀ p : Finding → bool,
            (∀ f, p f → is_deprecated_attrs f ∨ is_deprecated_states f) →
            filter (λ f, p f) (if decide (view_type = "list")
                      then (λ n : Node, DeprecatedTree (sourceline n.2))
                             <$> filter (λ n, has_tag "tree" n)
                                   (all_elements root)
                      else []) = []
            ∧ filter (λ f, p f) (flat_map check_record (view_records root))
              = []
            ∧ filter (λ f, p f) (flat_map check_string
                          (filter (λ n, is_view_element n)
                             (all_elements root))) = []
            ∧ filter (λ f, p f) (flat_map check_field_name
                          (filter (λ n, has_tag "field" n)
                             (all_elements root))) = []) as Hnone.
  { intros p HP. split; [|split; [|split]].
    - case_decide; [|done]. apply filter_none, Forall_fmap, Forall_true.
      intros n [[]|[]]%HP.
    - apply (filter_other_kind _ _ _
               (flat_map_Forall _ _ _ check_record_kinds)).
      intros [] [[]|[]] [[]|[]]%HP.
    - apply (filter_other_kind _ _ _
               (flat_map_Forall _ _ _ check_string_kinds)).
      intros [] [] [[]|[]]%HP.
    - apply (filter_other_kind _ _ _
               (flat_map_Forall _ _ _ check_field_name_kinds)).
      intros f [line ->] [[]|[]]%HP. }
  split.
  - destruct (Hnone is_deprecated_attrs) as (-> & -> & -> & ->);
      [by left|]. by rewrite !app_nil_r.
  - destruct (Hnone is_deprecated_states) as (-> & -> & -> & ->);
      [by right|]. by rewrite !app_nil_r.
Qed.

Lemma string_findings_of_elements (l : list Node) :
  flat_map check_string (filter (λ n, is_view_element n) l)
  = (λ n : Node, MissingString (sourceline n.2) (tag n.2))
    <$> filter (λ n : Node,
                  is_view_element n
                  ∧ ¬ Py.truthy (get n.2 "string")
                  ∧ tag n.2 ≠ "search") l.
Proof.
  induction l as [|n l IH]; [done|].
  destruct (decide (is_view_element n)) as [Hv|Hv].
  - rewrite (filter_cons_True (λ n, is_view_element n)) by done.
    cbn [flat_map]. rewrite IH. unfold check_string.
    destruct (Py.truthy (get n.2 "string")) eqn:Hs,
             (bool_decide (tag n.2 ∈ ["search"])) eqn:Hb; cbn [negb andb].
    + rewrite filter_cons_False; [done|]. rewrite Hs. by intros (_ & ? & _).
    + rewrite filter_cons_False; [done|]. rewrite Hs. by intros (_ & ? & _).
    + apply bool_decide_eq_true in Hb. apply list_elem_of_singleton in Hb.
      rewrite filter_cons_False; [done|]. by intros (_ & _ & ?).
    + apply bool_decide_eq_false in Hb.
      rewrite filter_cons_True; [done|]. rewrite Hs.
      split; [done|]. split; [by intros []|].
      intros Ht. apply Hb. rewrite Ht. by left.
  - rewrite (filter_cons_False (λ n, is_view_element n)) by done.
    rewrite filter_cons_False; [done|]. by intros (? & _).
Qed.

(** X5.  The rule on the [string] attribute: there is one finding for
    each element with one of the nine view tags, [search] excepted,
    whose [string] is absent or empty, in document order, and none
    for any other element. *)
Theorem missing_string_findings (root : Element) (view_type : string) :
  filter (λ f, is_missing_string f)
    (validate_odoo_view_conventions root view_type)
  = (λ n : Node, MissingString (sourceline n.2) (tag n.2))
    <$> filter (λ n : Node,
                  is_view_element n
                  ∧ ¬ Py.truthy (get n.2 "string")
                  ∧ tag n.2 ≠ "search") (all_elements root).
Proof.
  unfold validate_odoo_view_conventions. rewrite !filter_app.
  rewrite (filter_other_kind _ _ (flat_map check_attrs_states _)
             (flat_map_Forall _ _ _ check_attrs_states_kinds))
    by (intros [] [[]|[]] []).
  rewrite (filter_other_kind _ _ (flat_map check_record _)
             (flat_map_Forall _ _ _ check_record_kinds))
    by (intros [] [[]|[]] []).
  rewrite (filter_other_kind _ _ (flat_map check_field_name _)
             (flat_map_Forall _ _ _ check_field_name_kinds))
    by (intros f [line ->] []).
  rewrite (filter_all _ (flat_map check_string _))
    by apply flat_map_Forall, check_string_kinds.
  rewrite app_nil_r, string_findings_of_elements.
  assert (filter (λ f, is_missing_string f)
            (if decide (view_type = "list")
             then (λ n : Node, DeprecatedTree (sourceline n.2))
                    <$> filter (λ n, has_tag "tree" n) (all_elements root)
             else []) = []) as ->; [|done].
  case_decide; [|done]. apply filter_none, Forall_fmap, Forall_true.
  intros n [].
Qed.

(** ** The linter and its state *)

Lemma known_urls_injective (k k' url : string) :
  RNG_SCHEMA_URLS !! k = Some url → RNG_SCHEMA_URLS !! k' = Some url →
  k = k'.
Proof.
  unfold RNG_SCHEMA_URLS.
  intros H1%elem_of_list_to_map_2 H2%elem_of_list_to_map_2.
  rewrite !elem_of_cons, elem_of_nil in H1, H2.
  repeat (destruct H1 as [H1|H1]); try done;
    pose proof (f_equal fst H1) as Hk; pose proof (f_equal snd H1) as Hu;
    cbn [fst snd] in Hk, Hu; subst k url; clear H1;
    repeat (destruct H2 as [H2|H2]); try done;
    pose proof (f_equal fst H2) as Hk; pose proof (f_equal snd H2) as Hu;
    cbn [fst snd] in Hk, Hu; subst k';
    first [done | vm_compute in Hu; discriminate Hu].
Qed.

Section LintMore.

Variable http_get : list string → string → result string.
Variable etree_parse : string → result Element.
Variable etree_fromstring : string → result Element.
Variable etree_tostring : Element → string.
Variable common_schema_path : string.
Variable RelaxNG : string → string → result Validator.

#[local] Abbreviation download := (download_rng_schema http_get).
#[local] Abbreviation validate :=
  (validate_view_with_rng http_get etree_fromstring common_schema_path RelaxNG).
#[local] Abbreviation lint :=
  (lint_xml_file http_get etree_parse etree_fromstring etree_tostring
     common_schema_path RelaxNG).
#[local] Abbreviation run :=
  (lint_loop http_get etree_parse etree_fromstring etree_tostring
     common_schema_path RelaxNG).
#[local] Abbreviation each :=
  (lint_each http_get etree_parse etree_fromstring etree_tostring
     common_schema_path RelaxNG).

(** X6.  When the document has no element of the view type below its
    root, nothing is extracted and, with both schemas there, the
    validation has no finding, whatever the schemas are: the validator
    is not even compiled.  So a document made of [tree] elements, which
    the classifier calls [list], is never checked against the schema. *)
Theorem no_element_no_schema_finding (root : Element) (view_type : string) :
  elements_below view_type ([], root) = [] →
  extract_view_elements_for_rng root view_type = []
  ∧ ∀ xml_content w common_schema view_schema,
      etree_fromstring xml_content = Ok root →
      (download "common" w).1 = Some common_schema →
      (download view_type (download "common" w).2).1 = Some view_schema →
      common_schema ≠ "" → view_schema ≠ "" →
      (validate xml_content view_type w).1 = [].
Proof.
  intros Hnone.
  assert (extract_view_elements_for_rng root view_type = []) as Hextract.
  { destruct (extract_view_elements_for_rng root view_type) as [|n l] eqn:He;
      [done|].
    assert (n ∈ elements_below view_type ([], root)) as Hn
      by (apply extract_elem; rewrite He; by left).
    rewrite Hnone in Hn. by apply elem_of_nil in Hn. }
  split; [done|].
  intros xml_content w common_schema view_schema Hparse Hc Hv Hcne Hvne.
  unfold validate_view_with_rng.
  destruct (download "common" w) as [c w1]. simpl in Hc, Hv. subst c.
  destruct (download view_type w1) as [v w2]. simpl in Hv. subst v.
  destruct common_schema; [done|]. destruct view_schema; [done|].
  cbn [Py.truthy negb orb fst]. by rewrite Hparse, Hextract.
Qed.

(** X7.  The lint of a file leaves the cache and the list of requests
    as they were when the view validation is off, when the schema
    validation is skipped, when the file does not parse, and when the
    document has no type or one of the types [form] and [kanban], for
    which there is no schema. *)
Theorem lint_without_schema_is_offline (file_text : string)
    (validate_views skip_rng : bool) (w : World) :
  validate_views = false
  ∨ skip_rng = true
  ∨ (∀ root, etree_parse file_text = Ok root →
             get_view_type_from_xml root = None
             ∨ get_view_type_from_xml root = Some "form"
             ∨ get_view_type_from_xml root = Some "kanban") →
  (lint file_text validate_views skip_rng w).2 = w.
Proof.
  intros H. unfold lint_xml_file.
  destruct (etree_parse file_text) as [root|e]; [|done].
  destruct validate_views; [|done].
  destruct (get_view_type_from_xml root) as [vt|] eqn:Hvt; [|done].
  destruct skip_rng; [done|].
  destruct H as [H|[H|H]]; [done..|].
  destruct (H root eq_refl) as [H1|[H1|H1]]; rewrite Hvt in H1;
    [done|injection H1 as ->; reflexivity..].
Qed.

Lemma download_extends (k : string) (w : World) :
  (∀ k' text, schema_cache w !! k' = Some text →
              schema_cache (download k w).2 !! k' = Some text)
  ∧ ∃ new, requests (download k w).2 = requests w ++ new ∧ length new ≤ 1.
Proof.
  split.
  - intros k' text. apply download_keeps_entry.
  - unfold download_rng_schema.
    destruct (schema_cache w !! k);
      [exists []; rewrite app_nil_r; simpl; split; [done|lia]|].
    destruct (RNG_SCHEMA_URLS !! k) as [url|];
      [|exists []; rewrite app_nil_r; simpl; split; [done|lia]].
    destruct (http_get (requests w) url); exists [url]; simpl;
      (split; [done|lia]).
Qed.

Lemma validate_extends (xml_content view_type : string) (w : World) :
  (∀ k text, schema_cache w !! k = Some text →
             schema_cache (validate xml_content view_type w).2 !! k
             = Some text)
  ∧ ∃ new, requests (validate xml_content view_type w).2
           = requests w ++ new ∧ length new ≤ 2.
Proof.
  unfold validate_view_with_rng.
  destruct (download_extends "common" w) as [Hc1 (n1 & Hr1 & Hl1)].
  destruct (download "common" w) as [c w1]. cbn [snd] in *.
  destruct (download_extends view_type w1) as [Hc2 (n2 & Hr2 & Hl2)].
  destruct (download view_type w1) as [v w2]. cbn [snd] in *.
  assert ((∀ k text, schema_cache w !! k = Some text →
                     schema_cache w2 !! k = Some text)
          ∧ ∃ new, requests w2 = requests w ++ new ∧ length new ≤ 2) as Hw2.
  { split; [by intros k text ?%Hc1%Hc2|].
    exists (n1 ++ n2). rewrite Hr2, Hr1, app_assoc, length_app.
    split; [done|lia]. }
  by destruct (_ || _).
Qed.

(** X8.  The lint of a file never removes or changes an entry of the
    cache, and it makes at most two requests, which come after those
    made before. *)
Theorem lint_extends_cache_and_requests (file_text : string)
    (validate_views skip_rng : bool) (w : World) :
  let w' := (lint file_text validate_views skip_rng w).2 in
  (∀ k text, schema_cache w !! k = Some text →
             schema_cache w' !! k = Some text)
  ∧ ∃ new, requests w' = requests w ++ new ∧ length new ≤ 2.
Proof.
  assert ((∀ k text, schema_cache w !! k = Some text →
                     schema_cache w !! k = Some text)
          ∧ ∃ new, requests w = requests w ++ new ∧ length new ≤ 2) as Hsame.
  { split; [done|]. exists []. rewrite app_nil_r. simpl. split; [done|lia]. }
  unfold lint_xml_file.
  destruct (etree_parse file_text) as [root|e]; [|done].
  destruct validate_views; [|done].
  destruct (get_view_type_from_xml root) as [vt|]; [|done].
  destruct (negb skip_rng && _); [|done].
  pose proof (validate_extends (etree_tostring root) vt w) as Hv.
  by destruct (validate (etree_tostring root) vt w).
Qed.

Lemma download_fetched_once (k : string) (w : World) :
  reliable http_get → fetched_once w → fetched_once (download k w).2.
Proof.
  intros Hrel [Hnd Hurls]. unfold download_rng_schema.
  destruct (schema_cache w !! k) as [cached|] eqn:Hc; [done|].
  destruct (RNG_SCHEMA_URLS !! k) as [url|] eqn:Hu; [|done].
  destruct (Hrel (requests w) url) as [body Hbody]. rewrite Hbody.
  split; simpl.
  - apply NoDup_app. split; [done|]. split; [|apply NoDup_singleton].
    intros url' Hin ->%list_elem_of_singleton.
    destruct (Hurls url Hin) as (k' & Hk' & [t Ht]).
    rewrite (known_urls_injective k k' url Hu Hk') in Hc. congruence.
  - intros url' [Hin|Hin]%elem_of_app;
      [|apply list_elem_of_singleton in Hin as ->].
    + destruct (Hurls url' Hin) as (k' & Hk' & Hcached).
      exists k'. split; [done|].
      destruct (decide (k = k')) as [->|Hne].
      * rewrite lookup_insert_eq. eauto.
      * by rewrite lookup_insert_ne.
    + exists k. split; [done|]. rewrite lookup_insert_eq. eauto.
Qed.

Lemma lint_fetched_once (file_text : string) (validate_views skip_rng : bool)
    (w : World) :
  reliable http_get → fetched_once w →
  fetched_once (lint file_text validate_views skip_rng w).2.
Proof.
  intros Hrel Hw. unfold lint_xml_file.
  destruct (etree_parse file_text) as [root|e]; [|done].
  destruct validate_views; [|done].
  destruct (get_view_type_from_xml root) as [vt|]; [|done].
  destruct (negb skip_rng && _); [|done].
  assert (fetched_once (validate (etree_tostring root) vt w).2) as Hv.
  { unfold validate_view_with_rng.
    pose proof (download_fetched_once "common" w Hrel Hw) as H1.
    destruct (download "common" w) as [c w1]. cbn [snd] in H1.
    pose proof (download_fetched_once vt w1 Hrel H1) as H2.
    destruct (download vt w1) as [v w2]. cbn [snd] in H2.
    by destruct (_ || _). }
  by destruct (validate (etree_tostring root) vt w).
Qed.

Lemma run_fetched_once (files : list string) (validate_views skip_rng : bool)
    (total with_errors : nat) (w : World) :
  reliable http_get → fetched_once w →
  fetched_once (run files validate_views skip_rng total with_errors w).2.
Proof.
  intros Hrel. revert total with_errors w.
  induction files as [|file files IH]; intros total with_errors w Hw; [done|].
  cbn [lint_loop].
  pose proof (lint_fetched_once file validate_views skip_rng w Hrel Hw) as Hl.
  destruct (lint file validate_views skip_rng w) as [[|e errors] w1];
    by apply IH.
Qed.

(** X9.  On a network where every request succeeds, a whole run of the
    linter that starts with an empty cache asks no address twice:
    each schema is downloaded at most once, however many files are
    linted, so a run makes at most seven requests. *)
Theorem run_downloads_each_schema_once (files : list string)
    (validate_views skip_rng : bool) :
  reliable http_get →
  let w' := (run files validate_views skip_rng 0 0 (mkWorld ∅ [])).2 in
  NoDup (requests w') ∧ length (requests w') ≤ 7.
Proof.
  intros Hrel w'.
  assert (fetched_once w') as [Hnd Hurls].
  { apply run_fetched_once; [done|]. split; [constructor|].
    by intros url ?%elem_of_nil. }
  split; [done|].
  change 7 with (length (map_to_list RNG_SCHEMA_URLS).*2).
  apply submseteq_length, NoDup_submseteq; [done|].
  intros url (k & Hk & _)%Hurls.
  apply list_elem_of_fmap. exists (k, url). split; [done|].
  by apply elem_of_map_to_list.
Qed.

Lemma run_counts (files : list string) (validate_views skip_rng : bool)
    (total with_errors : nat) (w : World) :
  run files validate_views skip_rng total with_errors w
  = (total + sum_list (length <$> (each files validate_views skip_rng w).1),
     with_errors
     + length (filter (λ errors : list Finding, errors ≠ [])
                 (each files validate_views skip_rng w).1),
     (each files validate_views skip_rng w).2).
Proof.
  revert total with_errors w.
  induction files as [|file files IH]; intros total with_errors w.
  - simpl. by rewrite !Nat.add_0_r.
  - cbn [lint_loop lint_each].
    destruct (lint file validate_views skip_rng w) as [errors w1].
    specialize (IH (total + length errors) (with_errors + 1) w1) as IH1.
    specialize (IH total with_errors w1) as IH0.
    destruct (each files validate_views skip_rng w1) as [rest w2].
    cbn [fst snd] in *. destruct errors as [|e errors].
    + rewrite IH0. rewrite filter_cons_False by (by intros H).
      done.
    + rewrite IH1. rewrite filter_cons_True by done.
      rewrite fmap_cons. cbn [sum_list length]. unfold id.
      f_equal. f_equal; lia.
Qed.

Lemma no_findings_iff (l : list (list Finding)) :
  sum_list (length <$> l) = 0 ↔ Forall (λ errors, errors = []) l.
Proof.
  induction l as [|errors l IH]; [done|].
  rewrite fmap_cons, Forall_cons. cbn [sum_list]. rewrite <- IH.
  destruct errors; simpl; unfold id.
  - split; [intros ?; split; [done|lia]|intros [_ ?]; lia].
  - split; [lia|by intros [? _]].
Qed.

(** X10.  The two counters of the loop of [views] and [xml] are the
    number of findings of all the files and the number of files that
    have one; the exit status is 1 exactly when some file has a
    finding, and 0 otherwise. *)
Theorem lint_exit_status_reports_findings (files : list string)
    (validate_views skip_rng : bool) (w : World) :
  let findings := (each files validate_views skip_rng w).1 in
  run files validate_views skip_rng 0 0 w
  = (sum_list (length <$> findings),
     length (filter (λ errors : list Finding, errors ≠ []) findings),
     (each files validate_views skip_rng w).2)
  ∧ (lint_exit_status http_get etree_parse etree_fromstring etree_tostring
       common_schema_path RelaxNG files validate_views skip_rng w).1
    = (if decide (Forall (λ errors, errors = []) findings) then 0 else 1).
Proof.
  intros findings.
  pose proof (run_counts files validate_views skip_rng 0 0 w) as Hrun.
  cbn [Nat.add] in Hrun. fold findings in Hrun. split; [done|].
  unfold lint_exit_status. rewrite Hrun. cbn [fst].
  pose proof (no_findings_iff findings) as Hzero.
  case_decide as Hall.
  - apply (proj2 Hzero) in Hall. rewrite Hall. done.
  - rewrite bool_decide_eq_true_2; [done|].
    destruct (sum_list (length <$> findings)); [|lia].
    destruct Hall. by apply Hzero.
Qed.

End LintMore.

Lemma no_element_no_schema_finding_witness :
  extract_view_elements_for_rng Sample.tree_doc "list" = []
  ∧ (validate_view_with_rng Sample.http_up Sample.fromstring
       "/tmp/common.rng" Sample.relaxng (Sample.write Sample.tree_doc) "list"
       Sample.empty_world).1 = [].
Proof.
  destruct (no_element_no_schema_finding Sample.http_up Sample.fromstring
              "/tmp/common.rng" Sample.relaxng Sample.tree_doc "list")
    as [Hextract Hvalidate].
  - reflexivity.
  - split; [exact Hextract|].
    apply (Hvalidate (Sample.write Sample.tree_doc) Sample.empty_world
             "<grammar/>" "<grammar/>");
      first [discriminate | vm_compute; reflexivity].
Defined.

Lemma lint_without_schema_is_offline_witness :
  (lint_xml_file Sample.http_up Sample.parse Sample.fromstring Sample.write
     "/tmp/common.rng" Sample.relaxng (Sample.write Sample.tree_doc) true true
     Sample.empty_world).2 = Sample.empty_world
  ∧ (lint_xml_file Sample.http_up Sample.parse Sample.fromstring Sample.write
       "/tmp/common.rng" Sample.relaxng
       (Sample.write Sample.bare_record_doc) true false
       Sample.empty_world).2 = Sample.empty_world.
Proof.
  split.
  - apply lint_without_schema_is_offline. right. left. reflexivity.
  - apply lint_without_schema_is_offline. right. right.
    intros root Hroot. vm_compute in Hroot. injection Hroot as <-.
    left. reflexivity.
Defined.

Lemma lint_extends_cache_and_requests_witness :
  let w := (download_rng_schema Sample.http_up "graph" Sample.empty_world).2 in
  let w' :=
    (lint_xml_file Sample.http_up Sample.parse Sample.fromstring Sample.write
       "/tmp/common.rng" Sample.relaxng (Sample.write Sample.tree_doc) true
       false w).2 in
  schema_cache w' !! "graph" = Some "<grammar/>"
  ∧ ∃ new, requests w' = requests w ++ new ∧ length new ≤ 2.
Proof.
  intros w w'.
  destruct (lint_extends_cache_and_requests Sample.http_up Sample.parse
              Sample.fromstring Sample.write "/tmp/common.rng" Sample.relaxng
              (Sample.write Sample.tree_doc) true false w) as [Hcache Hlog].
  split; [|exact Hlog]. apply Hcache. vm_compute. reflexivity.
Defined.

Lemma run_downloads_each_schema_once_witness :
  let w' :=
    (lint_loop Sample.http_up Sample.parse Sample.fromstring Sample.write
       "/tmp/common.rng" Sample.relaxng
       [Sample.write Sample.tree_doc; Sample.write Sample.mixed_doc;
        Sample.write Sample.tree_doc] true false 0 0 (mkWorld ∅ [])).2 in
  NoDup (requests w') ∧ length (requests w') ≤ 7.
Proof.
  apply (run_downloads_each_schema_once Sample.http_up Sample.parse
           Sample.fromstring Sample.write "/tmp/common.rng" Sample.relaxng).
  intros history url. exists "<grammar/>". reflexivity.
Defined.

(** ** The suggestion for [attrs] *)

Lemma startswith_sound (p s : string) :
  Py.startswith p s = true → ∃ b, s = p +:+ b.
Proof.
  revert s. induction p as [|x p IH]; intros s; simpl.
  - intros _. by exists s.
  - destruct s as [|y s]; [done|]. case_decide as Hxy; [|done]. subst y.
    intros (b & ->)%IH. by exists b.
Qed.

Lemma contains_sound (sub s : string) :
  Py.contains sub s = true → ∃ a b, s = a +:+ sub +:+ b.
Proof.
  induction s as [|c s IH]; simpl.
  - rewrite orb_false_r. intros (b & ->)%startswith_sound. by exists "", b.
  - intros [H|H]%orb_true_iff.
    + apply startswith_sound in H as (b & ->). by exists "", b.
    + apply IH in H as (a & b & ->). by exists (String c a), b.
Qed.

Lemma contains_trans (a b c : string) :
  Py.contains a b = true → Py.contains b c = true → Py.contains a c = true.
Proof.
  intros (x & y & ->)%contains_sound (u & v & ->)%contains_sound.
  rewrite !app_assoc_s, <- (app_assoc_s u x). apply contains_app.
Qed.

Lemma suggestion_keeps_direct (attrs_value x : string) :
  x ∈ invisible_block attrs_value ++ readonly_block attrs_value
      ++ required_block attrs_value →
  Py.contains x (get_attrs_replacement_suggestion attrs_value) = true.
Proof.
  intros Hx. unfold get_attrs_replacement_suggestion.
  set (direct := invisible_block attrs_value ++ readonly_block attrs_value
                 ++ required_block attrs_value) in *.
  assert (x ∈ add_note "&" NOTE_AND attrs_value
                (add_note "|" NOTE_OR attrs_value direct)) as Hin
    by (by do 2 apply add_note_keeps).
  destruct (add_note "&" NOTE_AND attrs_value
              (add_note "|" NOTE_OR attrs_value direct)) as [|s l] eqn:Hl;
    [by apply elem_of_nil in Hin|].
  rewrite <- Hl in *. by apply join_contains.
Qed.

(** X11.  A value that gives [invisible], [readonly] or [required] the
    literal 1 or True gets the direct attribute set to True in the
    suggestion, whatever else the value holds, a 0 or False for the
    same key included. *)
Theorem explicit_true_is_suggested (attrs_value : string) :
  (Py.contains "'invisible': 1" attrs_value = true
   ∨ Py.contains "'invisible': True" attrs_value = true →
   Py.contains (direct_attr "invisible" "True")
     (get_attrs_replacement_suggestion attrs_value) = true)
  ∧ (Py.contains "'readonly': 1" attrs_value = true
     ∨ Py.contains "'readonly': True" attrs_value = true →
     Py.contains (direct_attr "readonly" "True")
       (get_attrs_replacement_suggestion attrs_value) = true)
  ∧ (Py.contains "'required': 1" attrs_value = true
     ∨ Py.contains "'required': True" attrs_value = true →
     Py.contains (direct_attr "required" "True")
       (get_attrs_replacement_suggestion attrs_value) = true).
Proof.
  split; [|split]; intros H; apply suggestion_keeps_direct.
  - apply elem_of_app. left. unfold invisible_block.
    assert (Py.contains "invisible" attrs_value = true) as ->
      by (destruct H as [H|H];
          (eapply contains_trans; [|exact H]); reflexivity).
    destruct H as [-> | ->]; rewrite ?orb_true_r; by left.
  - apply elem_of_app. right. apply elem_of_app. left. unfold readonly_block.
    assert (Py.contains "readonly" attrs_value = true) as ->
      by (destruct H as [H|H];
          (eapply contains_trans; [|exact H]); reflexivity).
    destruct H as [-> | ->]; rewrite ?orb_true_r; by left.
  - apply elem_of_app. right. apply elem_of_app. right. unfold required_block.
    assert (Py.contains "required" attrs_value = true) as ->
      by (destruct H as [H|H];
          (eapply contains_trans; [|exact H]); reflexivity).
    destruct H as [-> | ->]; rewrite ?orb_true_r; by left.
Qed.

Lemma explicit_true_is_suggested_witness :
  Py.contains (direct_attr "invisible" "True")
    (get_attrs_replacement_suggestion
       "{'invisible': True, 'readonly': 0, 'required': 1}") = true
  ∧ Py.contains (direct_attr "required" "True")
      (get_attrs_replacement_suggestion
         "{'invisible': True, 'readonly': 0, 'required': 1}") = true.
Proof.
  destruct (explicit_true_is_suggested
              "{'invisible': True, 'readonly': 0, 'required': 1}")
    as (Hi & _ & Hr).
  split; [apply Hi; right; reflexivity|apply Hr; left; reflexivity].
Defined.

(** ** The name of the new file *)

Lemma rev_app_app (a b acc : string) :
  String.rev_app (a +:+ b) acc = String.rev_app b (String.rev_app a acc).
Proof. revert acc. induction a as [|x a IH]; intros acc; simpl; [done|apply IH]. Qed.

Lemma rev_app_acc (a acc : string) :
  String.rev_app a acc = String.rev_app a "" +:+ acc.
Proof.
  revert acc. induction a as [|x a IH]; intros acc; simpl; [done|].
  rewrite (IH (String x acc)), (IH (String x "")), app_assoc_s. done.
Qed.

Lemma endswith_app (p a : string) : Py.endswith p (a +:+ p) = true.
Proof.
  unfold Py.endswith, String.rev.
  rewrite rev_app_app, (rev_app_acc p (String.rev_app a "")).
  apply startswith_app.
Qed.

Lemma split_last_no_separator (c : ascii) (s : string) :
  Py.has_char c (Py.split_last c s) = false.
Proof.
  induction s as [|a s IH]; [done|]. cbn [Py.split_last].
  destruct (Py.has_char c s) eqn:Hs; [done|].
  case_decide as Hac; [done|]. simpl. rewrite Hs.
  by rewrite bool_decide_eq_false_2.
Qed.

Lemma split_last_without_separator (c : ascii) (s : string) :
  Py.has_char c s = false → Py.split_last c s = s.
Proof.
  destruct s as [|a s]; [done|]. simpl.
  intros [Ha Hs]%orb_false_elim. rewrite Hs.
  apply bool_decide_eq_false in Ha. by rewrite decide_False.
Qed.

Lemma split_without_separator (c : ascii) (s : string) :
  Py.has_char c s = false → PyText.split c s = [s].
Proof.
  induction s as [|a s IH]; [done|]. simpl.
  intros [Ha Hs]%orb_false_elim. apply bool_decide_eq_false in Ha.
  by rewrite decide_False, (IH Hs).
Qed.

Lemma split_with_separator (c : ascii) (s : string) :
  Py.has_char c s = true → ∃ seg x segs, PyText.split c s = seg :: x :: segs.
Proof.
  induction s as [|a s IH]; [done|]. simpl.
  destruct (decide (a = c)) as [->|Hac].
  - intros _. destruct (Py.has_char c s) eqn:Hs.
    + destruct (IH eq_refl) as (seg & x & segs & ->). eauto.
    + rewrite (split_without_separator c s Hs). eauto.
  - rewrite bool_decide_eq_false_2 by done. simpl.
    intros (seg & x & segs & ->)%IH. eauto.
Qed.

Lemma inherited_file_name_is_xml (view_name_part : string) :
  Py.endswith ".xml" (view_name_part +:+ "_inherited_views.xml") = true.
Proof.
  change "_inherited_views.xml" with ("_inherited_views" +:+ ".xml").
  rewrite <- app_assoc_s. apply endswith_app.
Qed.

(** X12.  The part of the view id that names the new file and the new
    record is the last of the pieces that [split('.')] gives: it holds
    no dot, it is what follows the last dot of the id, or the whole id
    when the id has no dot, and the name of the new file made from it
    ends in [.xml]. *)
Theorem view_name_part_is_last_segment (view_id : string) :
  let view_name_part := Py.split_last "." view_id in
  last (PyText.split "." view_id) = Some view_name_part
  ∧ Py.has_char "." view_name_part = false
  ∧ (∃ before, view_id = before +:+ view_name_part
               ∧ (before = "" ∨ ∃ b, before = b +:+ "."))
  ∧ Py.endswith ".xml" (view_name_part +:+ "_inherited_views.xml") = true.
Proof.
  cbn zeta. split; [|split; [|split]].
  - induction view_id as [|a s IH]; [done|].
    cbn [PyText.split Py.split_last].
    destruct (Py.has_char "." s) eqn:Hs.
    + destruct (split_with_separator "." s Hs) as (seg & x & segs & Hsplit).
      rewrite Hsplit in *. by case_decide.
    + rewrite (split_without_separator "." s Hs).
      case_decide; [done|]. done.
  - apply split_last_no_separator.
  - induction view_id as [|a s IH]; [exists ""; by split; [|left]|].
    cbn [Py.split_last]. destruct (Py.has_char "." s) eqn:Hs.
    + destruct IH as (before & Heq & Hbefore). exists (String a before).
      split; [simpl; by rewrite <- Heq|]. right.
      destruct Hbefore as [->|(b & ->)].
      * simpl in Heq. pose proof (split_last_no_separator "." s) as Hno.
        rewrite <- Heq, Hs in Hno. done.
      * by exists (String a b).
    + case_decide as Hac.
      * subst a. exists ".". split; [done|]. right. by exists "".
      * exists "". split; [done|by left].
  - apply inherited_file_name_is_xml.
Qed.

(** ** More on the merge engine *)

Lemma find_module_first (module : string) (k : nat) (env : list AddonsPath)
    (i : nat) (views : option ViewsDir) :
  find_module module k env = Some (i, views)
  ↔ ∃ j ap, i = k + j ∧ env !! j = Some ap ∧ ap.2 !! module = Some views
            ∧ ∀ j' ap', j' < j → env !! j' = Some ap' →
                        ap'.2 !! module = None.
Proof.
  revert k. induction env as [|[name dirs] env IH]; intros k; simpl.
  - split; [done|]. by intros (j & ap & _ & ? & _).
  - destruct (dirs !! module) as [v|] eqn:Hd.
    + split.
      * intros [= <- <-]. exists 0, (name, dirs). rewrite Nat.add_0_r.
        split; [done|]. split; [done|]. split; [done|]. lia.
      * intros (j & ap & -> & Hj & Hm & Hbefore). destruct j as [|j].
        -- simpl in Hj. injection Hj as <-. simpl in Hm.
           rewrite Nat.add_0_r. congruence.
        -- specialize (Hbefore 0 (name, dirs)). simpl in Hbefore.
           rewrite Hbefore in Hd; [done|lia|done].
    + rewrite IH. split.
      * intros (j & ap & -> & Hj & Hm & Hbefore). exists (S j), ap.
        split; [lia|]. split; [done|]. split; [done|].
        intros [|j'] ap' Hlt Hj'; simpl in Hj'.
        -- by injection Hj' as <-.
        -- apply (Hbefore j'); [lia|done].
      * intros (j & ap & -> & Hj & Hm & Hbefore). destruct j as [|j].
        -- simpl in Hj. injection Hj as <-. simpl in Hm. congruence.
        -- exists j, ap. split; [lia|]. split; [done|]. split; [done|].
           intros j' ap' Hlt Hj'. apply (Hbefore (S j')); [lia|done].
Qed.


(** X13.  The module is looked up in the addons paths in order and the
    first one that has a directory of that name wins: the index given
    is that of an addons path holding the module, and no addons path
    before it holds it. *)
Theorem find_module_takes_first_addons_path (module : string)
    (env : list AddonsPath) (i : nat) (views : option ViewsDir) :
  find_module module 0 env = Some (i, views)
  ↔ ∃ ap, env !! i = Some ap ∧ ap.2 !! module = Some views
          ∧ ∀ j ap', j < i → env !! j = Some ap' → ap'.2 !! module = None.
Proof.
  rewrite find_module_first. split.
  - intros (j & ap & -> & H). by exists ap.
  - intros (ap & H). by exists i, ap.
Qed.

Lemma find_module_takes_first_addons_path_witness :
  let env : list AddonsPath :=
    [("odoo/addons", {["base" := Some []]});
     ("addons", {["sale_ext" := Some [("a.xml", "<odoo/>")]]});
     ("extra", {["sale_ext" := None]})] in
  ∃ ap, env !! 1 = Some ap
        ∧ ap.2 !! "sale_ext" = Some (Some [("a.xml", "<odoo/>")])
        ∧ ∀ j ap', j < 1 → env !! j = Some ap' → ap'.2 !! "sale_ext" = None.
Proof.
  intros env.
  apply (proj1 (find_module_takes_first_addons_path "sale_ext" env 1
                  (Some [("a.xml", "<odoo/>")]))).
  vm_compute. reflexivity.
Defined.

Section ExtendMore.

Variable etree_parse : string → result Element.
Variable etree_fromstring : string → Fragment.
Variable tree_write : Element → string.
Variable xpath_field_template : string → string → string → string.
Variable inherited_view_template :
  string → string → string → string → string → string.

#[local] Abbreviation find_and_update :=
  (_find_and_update_view_file etree_parse etree_fromstring tree_write).
#[local] Abbreviation extend :=
  (extend_view etree_parse etree_fromstring tree_write xpath_field_template
     inherited_view_template).

Lemma try_file_raises (view_id new_xpath_str file_text e : string) :
  try_file etree_parse etree_fromstring tree_write view_id new_xpath_str
    file_text = Raise e →
  etree_fromstring new_xpath_str = OtherError e.
Proof.
  unfold try_file.
  destruct (etree_parse file_text) as [root|]; [|done].
  destruct (find_match view_id root) as [m|]; [|done].
  destruct (fields_named "arch" m) as [|a l]; [done|].
  destruct (etree_fromstring new_xpath_str); [done|done|].
  by intros [= ->].
Qed.

Lemma update_first_from (view_id new_xpath_str : string) (files : ViewsDir) :
  match
    update_first etree_parse etree_fromstring tree_write view_id
      new_xpath_str files
  with
  | Ok (Some (name, new_text)) => ∃ old_text, (name, old_text) ∈ files
  | Ok None => True
  | Raise e => etree_fromstring new_xpath_str = OtherError e
  end.
Proof.
  induction files as [|[n t] files IH]; [done|]. cbn [update_first].
  destruct (try_file _ _ _ view_id new_xpath_str t) as [[new|]|e] eqn:Htry.
  - exists t. by left.
  - destruct (update_first _ _ _ view_id new_xpath_str files)
      as [[[name new_text]|]|e]; [|done..].
    destruct IH as (old & Hold). exists old. by right.
  - by apply try_file_raises in Htry.
Qed.

(** X14.  The search for an inherited view never creates, deletes or
    renames a file: when there is no [views] directory it returns
    [False]; otherwise either an exception of the fragment parser that
    is not a syntax error leaves the function, which has written
    nothing then, or the directory keeps the same names in the same
    order, is unchanged when [False] is returned, and at most one file,
    whose name ends in [.xml], has another text. *)
Theorem search_changes_one_xml_file_at_most (views : option ViewsDir)
    (view_id new_xpath_str : string) :
  match views with
  | None => find_and_update None view_id new_xpath_str = Ok (false, None)
  | Some dir =>
      (∃ e, etree_fromstring new_xpath_str = OtherError e
            ∧ find_and_update (Some dir) view_id new_xpath_str = Raise e)
      ∨ ∃ updated dir',
          find_and_update (Some dir) view_id new_xpath_str
          = Ok (updated, Some dir')
          ∧ dir'.*1 = dir.*1
          ∧ (updated = false → dir' = dir)
          ∧ ∃ name, Py.endswith ".xml" name = true
                    ∧ ∀ other, other ≠ name →
                               read_file other dir' = read_file other dir
  end.
Proof.
  destruct views as [dir|]; [|done]. unfold _find_and_update_view_file.
  pose proof (update_first_from view_id new_xpath_str (glob_xml dir))
    as Hfrom.
  destruct (update_first _ _ _ view_id new_xpath_str (glob_xml dir))
    as [[[name new_text]|]|e].
  - destruct Hfrom as (old & Hin). right.
    exists true, (write_file name new_text dir). split; [done|].
    pose proof Hin as Hglob. apply glob_xml_subset in Hin.
    apply list_elem_of_filter in Hglob as [Hxml _]. simpl in Hxml.
    split; [|split; [done|]].
    + apply write_file_names, list_elem_of_fmap. by exists (name, old).
    + exists name. split; [by destruct (Py.endswith ".xml" name)|].
      intros other Hother. by apply read_write_other.
  - right. exists false, dir. split; [done|]. split; [done|].
    split; [done|]. exists ".xml". split; [reflexivity|done].
  - left. by exists e.
Qed.





End ExtendMore.


Lemma search_changes_one_xml_file_at_most_witness :
  let dir :=
    [("readme.txt", "hello"); ("broken.xml", "<odoo>");
     ("partner.xml", Sample.write Sample.inheriting_doc)] in
  let fragment :=
    Sample.xpath_field "//field[@name='vat']" "after" "x_ref" in
  ∃ updated dir',
    _find_and_update_view_file Sample.parse Sample.fragment Sample.write
      (Some dir) "base.view_partner_form" fragment
    = Ok (updated, Some dir')
    ∧ dir'.*1 = dir.*1
    ∧ (updated = false → dir' = dir)
    ∧ ∃ name, Py.endswith ".xml" name = true
              ∧ ∀ other, other ≠ name →
                         read_file other dir' = read_file other dir.
Proof.
  intros dir fragment.
  destruct (search_changes_one_xml_file_at_most Sample.parse Sample.fragment
              Sample.write (Some dir) "base.view_partner_form" fragment)
    as [(e & He & _)|Hsearch].
  - exfalso. revert He. vm_compute. discriminate.
  - exact Hsearch.
Defined.


(** ** More on appending to an XML file *)

Lemma has_char_app (c : ascii) (a b : string) :
  Py.has_char c (a +:+ b) = Py.has_char c a || Py.has_char c b.
Proof.
  induction a as [|x a IH]; simpl; [done|]. by rewrite IH, orb_assoc.
Qed.

Lemma contains_sep (m : string) (c : ascii) (a b : string) :
  m ≠ "" → Py.has_char c m = false →
  Py.contains m (a +:+ String c b) = Py.contains m a || Py.contains m b.
Proof.
  intros Hm Hc. induction a as [|x a IH].
  - change ("" +:+ String c b) with (String c b). cbn [Py.contains].
    destruct m as [|y m]; [done|]. simpl in Hc.
    apply orb_false_elim in Hc as [Hy _]. apply bool_decide_eq_false in Hy.
    cbn [Py.startswith]. by rewrite decide_False.
  - change (String x a +:+ String c b) with (String x (a +:+ String c b)).
    cbn [Py.contains]. rewrite IH.
    change (String x (a +:+ String c b)) with (String x a +:+ String c b).
    rewrite (startswith_sep m c (String x a) b Hc).
    by rewrite orb_assoc.
Qed.

Lemma replace_go_marker_first (new pre rest : string) :
  Py.contains "</odoo>" pre = false →
  Py.replace_go "</odoo>" new 0 (pre +:+ "</odoo>" +:+ rest)
  = pre +:+ new +:+ Py.replace_go "</odoo>" new 0 rest.
Proof.
  intros Hpre. induction pre as [|x pre IH].
  - change ("" +:+ "</odoo>" +:+ rest) with ("</odoo>" +:+ rest).
    by rewrite replace_go_here.
  - apply contains_false_cons in Hpre as [Hs Hc].
    change (String x pre +:+ "</odoo>" +:+ rest)
      with (String x (pre +:+ "</odoo>" +:+ rest)).
    cbn [Py.replace_go].
    destruct (Py.startswith "</odoo>" (String x (pre +:+ "</odoo>" +:+ rest)))
      eqn:Hst.
    + apply (marker_no_straddle (String x pre)) in Hst; [congruence|done].
    + rewrite (IH Hc). done.
Qed.

Lemma occurrences_marker_first (pre rest : string) :
  Py.contains "</odoo>" pre = false →
  Py.occurrences "</odoo>" (pre +:+ "</odoo>" +:+ rest)
  = 1 + Py.occurrences "</odoo>" rest.
Proof.
  intros Hpre. induction pre as [|x pre IH].
  - apply occurrences_marker_head.
  - apply contains_false_cons in Hpre as [Hs Hc].
    change (String x pre +:+ "</odoo>" +:+ rest)
      with (String x (pre +:+ "</odoo>" +:+ rest)).
    cbn [Py.occurrences].
    destruct (Py.startswith "</odoo>" (String x (pre +:+ "</odoo>" +:+ rest)))
      eqn:Hst.
    + apply (marker_no_straddle (String x pre)) in Hst; [congruence|done].
    + by rewrite (IH Hc).
Qed.

Lemma replace_join_marker (new : string) (parts : list string) :
  Forall (λ p, Py.contains "</odoo>" p = false) parts →
  Py.replace "</odoo>" new (Py.join "</odoo>" parts) = Py.join new parts
  ∧ Py.occurrences "</odoo>" (Py.join "</odoo>" parts) = length parts - 1.
Proof.
  change (Py.replace "</odoo>" new (Py.join "</odoo>" parts))
    with (Py.replace_go "</odoo>" new 0 (Py.join "</odoo>" parts)).
  induction 1 as [|p parts Hp Hparts [IHr IHo]]; [done|].
  destruct parts as [|q parts].
  - cbn [Py.join length]. split; [by apply replace_go_absent|].
    by apply occurrences_absent.
  - change (Py.join "</odoo>" (p :: q :: parts))
      with (p +:+ "</odoo>" +:+ Py.join "</odoo>" (q :: parts)).
    change (Py.join new (p :: q :: parts))
      with (p +:+ new +:+ Py.join new (q :: parts)).
    rewrite (replace_go_marker_first _ _ _ Hp), IHr.
    rewrite (occurrences_marker_first _ _ Hp), IHo.
    split; [done|]. simpl. lia.
Qed.

Lemma newlines_go_without_cr (s : string) :
  Py.has_char "013" s = false → Py.newlines_go false s = s.
Proof.
  induction s as [|c s IH]; [done|]. cbn [Py.has_char Py.newlines_go].
  intros [Hc Hs]%orb_false_elim. apply bool_decide_eq_false in Hc.
  rewrite decide_False by done. cbn [andb]. by rewrite IH.
Qed.

Lemma universal_newlines_empty (s : string) :
  Py.universal_newlines s = "" → s = "".
Proof.
  unfold Py.universal_newlines. destruct s as [|c s]; [done|].
  cbn [Py.newlines_go]. by case_decide.
Qed.

(** The call on a file that is there and not empty. *)
Lemma append_reads (xml_content stored : string) :
  stored ≠ "" →
  _append_xml_to_file xml_content (Regular stored)
  = Ok (Regular
          (let content := Py.universal_newlines stored in
           if Py.contains "</odoo>" content
           then Py.replace "</odoo>" (xml_content +:+ nl +:+ "</odoo>")
                  content
           else content +:+ xml_content)).
Proof.
  intros Hne. unfold _append_xml_to_file, _ensure_xml_data_wrapper.
  cbn [exists_ negb orb st_size_of].
  rewrite bool_decide_eq_false_2 by (by destruct stored). done.
Qed.

Lemma occurrences_here (sub a b : string) :
  Py.occurrences sub (a +:+ sub +:+ b) ≥ 1.
Proof.
  induction a as [|c a IH].
  - change ("" +:+ sub +:+ b) with (sub +:+ b).
    destruct (sub +:+ b) eqn:Heq; cbn [Py.occurrences];
      rewrite <- Heq, startswith_app; lia.
  - change (String c a +:+ sub +:+ b) with (String c (a +:+ sub +:+ b)).
    cbn [Py.occurrences]. lia.
Qed.

(** X17.  The fragment goes before every closing tag, not only the
    last one: for a file whose text, as it is read, is [parts]
    separated by [</odoo>] (two parts at least, none holding the tag)
    each closing tag gets the fragment and a line feed in front of it
    and the parts stay as they are, so the text written holds the
    fragment.  The text read has one closing tag less than it has
    parts. *)
Theorem fragment_goes_before_every_closing_tag
    (xml_content stored : string) (parts : list string) :
  Forall (λ p, Py.contains "</odoo>" p = false) parts →
  2 ≤ length parts →
  read_text (Regular stored) = Ok (Py.join "</odoo>" parts) →
  _append_xml_to_file xml_content (Regular stored)
  = Ok (Regular (Py.join (xml_content +:+ nl +:+ "</odoo>") parts))
  ∧ Py.occurrences "</odoo>" (Py.join "</odoo>" parts) = length parts - 1
  ∧ Py.occurrences xml_content
      (Py.join (xml_content +:+ nl +:+ "</odoo>") parts)
    ≥ 1.
Proof.
  intros Hparts Hlen [= Hread].
  destruct (replace_join_marker (xml_content +:+ nl +:+ "</odoo>") parts
              Hparts) as [Hreplace Hcount].
  destruct parts as [|p [|q parts]]; [simpl in Hlen; lia..|].
  split; [|split; [done|]].
  - rewrite append_reads.
    + cbn zeta. rewrite Hread.
      change (Py.join "</odoo>" (p :: q :: parts))
        with (p +:+ "</odoo>" +:+ Py.join "</odoo>" (q :: parts)).
      rewrite contains_app.
      change (p +:+ "</odoo>" +:+ Py.join "</odoo>" (q :: parts))
        with (Py.join "</odoo>" (p :: q :: parts)).
      by rewrite Hreplace.
    + intros ->.
      change (Py.join "</odoo>" (p :: q :: parts))
        with (p +:+ "</odoo>" +:+ Py.join "</odoo>" (q :: parts)) in Hread.
      destruct p; discriminate.
  - change (Py.join (xml_content +:+ nl +:+ "</odoo>") (p :: q :: parts))
      with (p +:+ (xml_content +:+ nl +:+ "</odoo>")
            +:+ Py.join (xml_content +:+ nl +:+ "</odoo>") (q :: parts)).
    rewrite app_assoc_s. apply occurrences_here.
Qed.

Lemma fragment_goes_before_every_closing_tag_witness :
  let text :=
    "<odoo><!-- ends with </odoo> --><data/>" +:+ nl +:+ "</odoo>" +:+ nl in
  _append_xml_to_file "<menuitem/>" (Regular text)
  = Ok (Regular
          ("<odoo><!-- ends with <menuitem/>" +:+ nl
           +:+ "</odoo> --><data/>" +:+ nl +:+ "<menuitem/>" +:+ nl
           +:+ "</odoo>" +:+ nl)).
Proof.
  intros text.
  destruct (fragment_goes_before_every_closing_tag "<menuitem/>" text
              ["<odoo><!-- ends with "; " --><data/>" +:+ nl; nl])
    as (Hwritten & _ & _).
  - repeat constructor.
  - simpl. lia.
  - reflexivity.
  - exact Hwritten.
Defined.

Lemma append_all_wrapped (before : string) (fragments : list string) :
  Forall (λ x, Py.contains "</odoo>" x = false
               ∧ Py.has_char "013" x = false) fragments →
  Py.contains "</odoo>" before = false →
  Py.has_char "013" before = false →
  append_all fragments (Regular (before +:+ nl +:+ "</odoo>" +:+ nl))
  = Ok (Regular
          (before +:+ nl +:+ fragment_lines fragments +:+ "</odoo>" +:+ nl))
  ∧ Py.contains "</odoo>" (before +:+ nl +:+ fragment_lines fragments)
    = false.
Proof.
  intros Hfragments. revert before.
  induction Hfragments as [|x fragments [Hx Hcr] _ IH];
    intros before Hbefore Hbcr.
  - cbn [append_all fragment_lines]. split; [done|].
    rewrite app_empty_r_s. unfold nl. rewrite contains_sep by done.
    by rewrite Hbefore.
  - cbn [append_all fragment_lines].
    assert (Py.contains "</odoo>" (before +:+ nl) = false) as Hpre.
    { unfold nl. rewrite contains_sep by done. by rewrite Hbefore. }
    assert (Py.contains "</odoo>" (before +:+ nl +:+ x) = false) as Hnext.
    { unfold nl.
      change (String "010" "" +:+ x) with (String "010" x).
      rewrite contains_sep by done. by rewrite Hbefore, Hx. }
    assert (Py.has_char "013" (before +:+ nl +:+ x) = false) as Hnextcr.
    { by rewrite !has_char_app, Hbcr, Hcr. }
    rewrite append_reads by (by destruct before).
    cbn zeta. unfold Py.universal_newlines.
    rewrite newlines_go_without_cr
      by (by rewrite !has_char_app, Hbcr).
    rewrite <- (app_assoc_s before nl), contains_app.
    rewrite (replace_marker_once _ (before +:+ nl) nl Hpre) by done.
    destruct (IH (before +:+ nl +:+ x) Hnext Hnextcr) as [Hall Hnone].
    split.
    + etrans; [|etrans; [exact Hall|]].
      * do 2 f_equal. by rewrite !app_assoc_s.
      * do 2 f_equal. by rewrite !app_assoc_s.
    + etrans; [|exact Hnone]. f_equal. by rewrite !app_assoc_s.
Qed.

(** X18.  Fragments appended one after the other to a file that is
    empty, or missing where a file can be created, end up in the order
    of the calls, each followed by a line feed, inside a single wrapper:
    when no fragment holds the closing tag or a carriage return, the
    text of the file has the closing tag exactly once, at the end.
    Where no file can be created, as in a directory that is missing,
    the first call raises and nothing is written. *)
Theorem appended_fragments_share_one_wrapper (x : string)
    (fragments : list string) (st : FileState) :
  st = Missing (Ok ()) ∨ st = Regular "" →
  Forall (λ x, Py.contains "</odoo>" x = false
               ∧ Py.has_char "013" x = false) (x :: fragments) →
  let text :=
    "<odoo>" +:+ nl +:+ nl +:+ fragment_lines (x :: fragments)
    +:+ "</odoo>" +:+ nl in
  append_all (x :: fragments) st = Ok (Regular text)
  ∧ Py.occurrences "</odoo>" text = 1
  ∧ ∀ e, append_all (x :: fragments) (Missing (Raise e)) = Raise e.
Proof.
  intros Hfresh Hfragments text.
  assert (append_all (x :: fragments) st
          = append_all (x :: fragments) (Regular EMPTY_WRAPPER)) as Hensure.
  { by destruct Hfresh as [-> | ->]. }
  destruct (append_all_wrapped ("<odoo>" +:+ nl) (x :: fragments) Hfragments)
    as [Hall Hnone]; [done..|].
  split; [|split].
  - rewrite Hensure. unfold EMPTY_WRAPPER.
    rewrite <- (app_assoc_s "<odoo>" nl). rewrite Hall.
    unfold text. by rewrite !app_assoc_s.
  - replace text
      with ((("<odoo>" +:+ nl) +:+ nl +:+ fragment_lines (x :: fragments))
            +:+ "</odoo>" +:+ nl)
      by (unfold text; by rewrite !app_assoc_s).
    by rewrite (occurrences_marker_first _ nl Hnone).
  - done.
Qed.

Lemma appended_fragments_share_one_wrapper_witness :
  let text :=
    "<odoo>" +:+ nl +:+ nl +:+ "<record id='a'/>" +:+ nl
    +:+ "<menuitem id='m'/>" +:+ nl +:+ "</odoo>" +:+ nl in
  append_all ["<record id='a'/>"; "<menuitem id='m'/>"] (Missing (Ok ()))
  = Ok (Regular text)
  ∧ Py.occurrences "</odoo>" text = 1.
Proof.
  intros text.
  destruct (appended_fragments_share_one_wrapper "<record id='a'/>"
              ["<menuitem id='m'/>"] (Missing (Ok ())))
    as (Hwritten & Hone & _).
  - left. reflexivity.
  - repeat constructor.
  - split; [exact Hwritten|exact Hone].
Defined.

(** ** Class names *)

Lemma length_app_s (a b : string) :
  String.length (a +:+ b) = String.length a + String.length b.
Proof. induction a as [|x a IH]; simpl; [done|]. by rewrite IH. Qed.

Lemma join_empty_cons (x : string) (l : list string) :
  Py.join "" (x :: l) = x +:+ Py.join "" l.
Proof. destruct l; [by rewrite app_empty_r_s|done]. Qed.

Lemma upper_keeps_dot (a : ascii) :
  bool_decide (PyText.upper a = "."%char) = bool_decide (a = "."%char).
Proof. by destruct a as [[] [] [] [] [] [] [] []]. Qed.

Lemma lower_keeps_dot (a : ascii) :
  bool_decide (PyText.lower a = "."%char) = bool_decide (a = "."%char).
Proof. by destruct a as [[] [] [] [] [] [] [] []]. Qed.

Lemma capitalize_dots (s : string) :
  Py.has_char "." (PyText.capitalize s) = Py.has_char "." s.
Proof.
  destruct s as [|a s]; [done|]. cbn [PyText.capitalize Py.has_char].
  rewrite upper_keeps_dot. f_equal.
  induction s as [|b s IH]; [done|]. cbn [PyText.lower_all Py.has_char].
  by rewrite lower_keeps_dot, IH.
Qed.

Lemma capitalize_length (s : string) :
  String.length (PyText.capitalize s) = String.length s.
Proof.
  destruct s as [|a s]; [done|]. cbn [PyText.capitalize String.length].
  f_equal. induction s as [|b s IH]; [done|].
  cbn [PyText.lower_all String.length]. by rewrite IH.
Qed.

Lemma split_segments_clean (c : ascii) (s : string) :
  Forall (λ seg, Py.has_char c seg = false) (PyText.split c s).
Proof.
  induction s as [|a s IH]; [by repeat constructor|].
  cbn [PyText.split]. case_decide as Hac; [by constructor|].
  destruct (PyText.split c s) as [|seg segs].
  - constructor; [|done]. simpl. by rewrite bool_decide_eq_false_2.
  - apply Forall_cons_1 in IH as [Hseg Hsegs]. constructor; [|done].
    simpl. by rewrite bool_decide_eq_false_2.
Qed.

Lemma split_join_length (c : ascii) (s : string) :
  String.length (Py.join "" (PyText.split c s)) + count_char c s
  = String.length s.
Proof.
  induction s as [|a s IH]; [done|].
  cbn [PyText.split count_char String.length]. case_decide as Hac.
  - rewrite join_empty_cons. simpl. lia.
  - destruct (PyText.split c s) as [|seg segs].
    + simpl in *. lia.
    + rewrite join_empty_cons in *. simpl. lia.
Qed.

(** X19.  A class name has no dot: the dots of a model name (in ASCII)
    are dropped and nothing else is, so the class name is shorter than
    the model name by the number of its dots. *)
Theorem class_name_drops_the_dots (name : string) :
  Py.has_char "." (_to_class_name name) = false
  ∧ String.length (_to_class_name name) + count_char "." name
    = String.length name.
Proof.
  unfold _to_class_name. split.
  - pose proof (split_segments_clean "." name) as Hclean.
    induction Hclean as [|seg segs Hseg _ IH]; [done|].
    rewrite fmap_cons, join_empty_cons, has_char_app, capitalize_dots.
    by rewrite Hseg, IH.
  - rewrite <- (split_join_length "." name). f_equal.
    induction (PyText.split "." name) as [|seg segs IH]; [done|].
    rewrite fmap_cons, !join_empty_cons, !length_app_s, capitalize_length.
    by rewrite IH.
Qed.

(** ** Finding the project *)

Lemma find_project_root_up_spec (fs : Dir) (up root : list string) :
  find_project_root_up fs up = Some root
  ↔ ∃ k, k < length up ∧ root = reverse (drop k up)
         ∧ is_project_root fs root = true
         ∧ ∀ j, j < k → is_project_root fs (reverse (drop j up)) = false.
Proof.
  induction up as [|x up IH].
  - split; [done|]. intros (k & Hk & _). simpl in Hk. lia.
  - cbn [find_project_root_up].
    destruct (is_project_root fs (reverse (x :: up))) eqn:Hhere.
    + split.
      * intros [= <-]. exists 0. split; [simpl; lia|].
        split; [done|]. split; [done|]. lia.
      * intros (k & Hk & -> & Hroot & Hbelow). destruct k as [|k]; [done|].
        specialize (Hbelow 0). rewrite drop_0 in Hbelow.
        rewrite Hbelow in Hhere by lia. done.
    + rewrite IH. split.
      * intros (k & Hk & -> & Hroot & Hbelow). exists (S k).
        split; [simpl; lia|]. split; [done|]. split; [done|].
        intros [|j] Hj; [by rewrite drop_0|]. apply Hbelow. lia.
      * intros (k & Hk & -> & Hroot & Hbelow). destruct k as [|k].
        -- rewrite drop_0 in Hroot. congruence.
        -- exists k. simpl in Hk. split; [lia|]. split; [done|].
           split; [done|]. intros j Hj. apply (Hbelow (S j)). lia.
Qed.

(** X20.  The project root found is the nearest ancestor of the start
    path, the start path included, that holds a [.git] directory or an
    [odoo.conf] file; the root of the file system is never tested, so
    it is never the answer. *)
Theorem project_root_is_nearest_marked_ancestor (fs : Dir)
    (start_path root : list string) :
  find_project_root fs start_path = Some root
  ↔ ∃ n, 0 < n ≤ length start_path ∧ root = take n start_path
         ∧ is_project_root fs root = true
         ∧ ∀ m, n < m ≤ length start_path →
                is_project_root fs (take m start_path) = false.
Proof.
  unfold find_project_root. rewrite find_project_root_up_spec.
  assert (∀ k, reverse (drop k (reverse start_path))
               = take (length start_path - k) start_path) as Hdrop.
  { intros k. by rewrite drop_reverse, reverse_involutive. }
  rewrite length_reverse. split.
  - intros (k & Hk & -> & Hroot & Hbelow). rewrite Hdrop in *.
    exists (length start_path - k). split; [lia|]. split; [done|].
    split; [done|]. intros m Hm.
    specialize (Hbelow (length start_path - m)). rewrite Hdrop in Hbelow.
    replace (length start_path - (length start_path - m)) with m in Hbelow
      by lia.
    apply Hbelow. lia.
  - intros (n & Hn & -> & Hroot & Habove).
    exists (length start_path - n). rewrite Hdrop.
    replace (length start_path - (length start_path - n)) with n by lia.
    split; [lia|]. split; [done|]. split; [done|].
    intros j Hj. rewrite Hdrop. apply Habove. lia.
Qed.

Lemma project_root_is_nearest_marked_ancestor_witness :
  let start_path := ["home"; "dev"; "project"; "addons"; "sale_ext"] in
  ∃ n, 0 < n ≤ length start_path
       ∧ ["home"; "dev"; "project"] = take n start_path
       ∧ is_project_root Fixture.disk ["home"; "dev"; "project"] = true
       ∧ ∀ m, n < m ≤ length start_path →
              is_project_root Fixture.disk (take m start_path) = false.
Proof.
  intros start_path.
  apply (proj1 (project_root_is_nearest_marked_ancestor Fixture.disk
                  start_path ["home"; "dev"; "project"])).
  vm_compute. reflexivity.
Defined.

Example marked_file_system_root_is_not_found :
  is_project_root Fixture.disk [] = true
  ∧ find_project_root Fixture.disk ["etc"] = None
  ∧ find_project_root Fixture.disk
      ["home"; "dev"; "project"; "addons"; "sale_ext"]
    = Some ["home"; "dev"; "project"].
Proof. vm_compute. done. Qed.

(** ** Finding the addons paths *)

Lemma Dir_induction (P : Dir → Prop) :
  (∀ files subdirs,
     Forall (λ entry, P entry.2) subdirs → P (MkDir files subdirs)) →
  ∀ d, P d.
Proof.
  intros Hstep. fix IH 1. intros [files subdirs]. apply Hstep.
  induction subdirs as [|[name d] subdirs IHsubdirs]; constructor.
  - apply IH.
  - apply IHsubdirs.
Qed.

Lemma os_walk_unfold (path : list string) (d : Dir) :
  os_walk path d = (path, d) :: walk_subdirs os_walk path (dir_subdirs d).
Proof. by destruct d. Qed.

Lemma os_walk_below (d : Dir) (root path : list string) (m : Dir) :
  (path, m) ∈ os_walk root d → ∃ rel, path = root ++ rel.
Proof.
  revert root. induction d as [files subdirs IH] using Dir_induction.
  intros root. rewrite os_walk_unfold. cbn [dir_subdirs].
  intros [Hhere|Hin]%elem_of_cons.
  - injection Hhere as -> _. exists []. by rewrite app_nil_r.
  - induction IH as [|[name d] subdirs IHd _ IHsubdirs]; cbn [walk_subdirs] in Hin.
    + by apply elem_of_nil in Hin.
    + apply elem_of_app in Hin as [Hin|Hin]; [|by apply IHsubdirs].
      apply IHd in Hin as (rel & ->). exists (name :: rel).
      by rewrite <- app_assoc.
Qed.

Lemma os_walk_reaches (rel : list string) (d : Dir) (root : list string)
    (m : Dir) :
  dir_at d rel = Some m → (root ++ rel, m) ∈ os_walk root d.
Proof.
  revert d root. induction rel as [|name rel IH]; intros d root.
  - intros [= ->]. rewrite app_nil_r, os_walk_unfold. by left.
  - cbn [dir_at]. destruct (subdir name (dir_subdirs d)) as [d'|] eqn:Hsub;
      [|done].
    simpl. intros Hat. rewrite os_walk_unfold. right.
    apply (IH d' (root ++ [name])) in Hat. rewrite <- app_assoc in Hat.
    simpl in Hat. revert Hsub. generalize (dir_subdirs d).
    intros subdirs. induction subdirs as [|[n d0] subdirs IHs]; [done|].
    cbn [subdir walk_subdirs]. case_decide as Hn.
    + intros [= ->]. subst n. apply elem_of_app. by left.
    + intros Hsub. apply elem_of_app. right. by apply IHs.
Qed.

Lemma dir_at_app (fs : Dir) (path rel : list string) (m : Dir) :
  dir_at fs (path ++ rel) = Some m
  ↔ ∃ d, dir_at fs path = Some d ∧ dir_at d rel = Some m.
Proof.
  revert fs. induction path as [|name path IH]; intros fs.
  - simpl. split; [by exists fs|]. by intros (d & [= ->] & Hat).
  - cbn [app dir_at]. destruct (subdir name (dir_subdirs fs)) as [d'|];
      simpl; [apply IH|].
    split; [done|]. by intros (d & ? & _).
Qed.

Lemma add_addons_paths_spec (visited : list (list string * Dir))
    (addons_paths : list (list string)) :
  (NoDup addons_paths → NoDup (foldl add_addons_path addons_paths visited))
  ∧ ∀ p, p ∈ foldl add_addons_path addons_paths visited
         ↔ p ∈ addons_paths
           ∨ ∃ v, v ∈ visited ∧ "__manifest__.py" ∈ dir_files v.2
                  ∧ p = parent v.1.
Proof.
  revert addons_paths.
  induction visited as [|v visited IH]; intros addons_paths.
  - cbn [foldl]. split; [done|]. intros p. split; [by left|].
    intros [Hin|(v & Hv & _)]; [done|]. by apply elem_of_nil in Hv.
  - cbn [foldl]. destruct (IH (add_addons_path addons_paths v)) as [Hdup Hin].
    unfold add_addons_path in Hdup, Hin |- *.
    destruct (bool_decide ("__manifest__.py" ∈ dir_files v.2)) eqn:Hmodule.
    + apply bool_decide_eq_true in Hmodule. cbn zeta in *.
      destruct (bool_decide (parent v.1 ∈ addons_paths)) eqn:Hknown.
      * apply bool_decide_eq_true in Hknown. split; [done|].
        intros p. rewrite Hin. split.
        -- intros [Hp|(v' & Hv' & Hrest)]; [by left|].
           right. exists v'. split; [by right|done].
        -- intros [Hp|(v' & [->|Hv']%elem_of_cons & Hm & ->)]; [by left|..].
           ++ by left.
           ++ right. by exists v'.
      * apply bool_decide_eq_false in Hknown. split.
        -- intros Hnodup. apply Hdup. apply NoDup_app.
           split; [done|]. split; [|apply NoDup_singleton].
           intros p Hp ->%list_elem_of_singleton. done.
        -- intros p. rewrite Hin, elem_of_app, list_elem_of_singleton. split.
           ++ intros [[Hp| ->]|(v' & Hv' & Hrest)].
              ** by left.
              ** right. exists v. split; [by left|done].
              ** right. exists v'. split; [by right|done].
           ++ intros [Hp|(v' & [->|Hv']%elem_of_cons & Hm & ->)].
              ** left. by left.
              ** left. by right.
              ** right. by exists v'.
    + apply bool_decide_eq_false in Hmodule. split; [done|].
      intros p. rewrite Hin. split.
      * intros [Hp|(v' & Hv' & Hrest)]; [by left|].
        right. exists v'. split; [by right|done].
      * intros [Hp|(v' & [->|Hv']%elem_of_cons & Hm & ->)]; [by left|done|].
        right. by exists v'.
Qed.

(** X21.  The addons paths found are the parents of the directories
    that the walk from the project root visits and that hold a
    [__manifest__.py], each listed once.  Every module directory that
    can be reached from the project root by its path is visited, so its
    parent is among them; and what is listed is the parent of a
    directory at or below the project root. *)
Theorem addons_paths_are_parents_of_modules (fs : Dir)
    (project_root : list string) :
  NoDup (find_addons_paths fs project_root)
  ∧ (∀ p, p ∈ find_addons_paths fs project_root
          ↔ ∃ d path m,
              dir_at fs project_root = Some d
              ∧ (path, m) ∈ os_walk project_root d
              ∧ "__manifest__.py" ∈ dir_files m
              ∧ p = parent path)
  ∧ (∀ rel m,
       dir_at fs (project_root ++ rel) = Some m →
       "__manifest__.py" ∈ dir_files m →
       parent (project_root ++ rel) ∈ find_addons_paths fs project_root)
  ∧ (∀ p, p ∈ find_addons_paths fs project_root →
          ∃ rel, p = parent (project_root ++ rel)).
Proof.
  assert (∀ p, p ∈ find_addons_paths fs project_root
               ↔ ∃ d path m,
                   dir_at fs project_root = Some d
                   ∧ (path, m) ∈ os_walk project_root d
                   ∧ "__manifest__.py" ∈ dir_files m
                   ∧ p = parent path) as Hspec.
  { intros p. unfold find_addons_paths.
    destruct (dir_at fs project_root) as [d|].
    - rewrite (proj2 (add_addons_paths_spec _ [])). split.
      + intros [Hp|([path m] & Hv & Hm & ->)]; [by apply elem_of_nil in Hp|].
        by exists d, path, m.
      + intros (d' & path & m & [= <-] & Hv & Hm & ->). right.
        by exists (path, m).
    - split; [by intros ?%elem_of_nil|]. by intros (d & path & m & ? & _). }
  split; [|split; [exact Hspec|split]].
  - unfold find_addons_paths. destruct (dir_at fs project_root) as [d|].
    + apply add_addons_paths_spec, NoDup_nil_2.
    + apply NoDup_nil_2.
  - intros rel m (d & Hroot & Hat)%dir_at_app Hmodule. apply Hspec.
    exists d, (project_root ++ rel), m. split; [done|].
    split; [by apply os_walk_reaches|done].
  - intros p (d & path & m & _ & (rel & ->)%os_walk_below & _ & ->)%Hspec.
    by exists rel.
Qed.

Lemma addons_paths_are_parents_of_modules_witness :
  ["home"; "dev"; "project"; "extra"]
  ∈ find_addons_paths Fixture.disk ["home"; "dev"; "project"].
Proof.
  destruct (addons_paths_are_parents_of_modules Fixture.disk
              ["home"; "dev"; "project"]) as (_ & _ & Hreached & _).
  apply (Hreached ["extra"; "crm_ext"] Fixture.module_dir).
  - reflexivity.
  - vm_compute. by left.
Defined.

Lemma add_addons_path_keeps_first (visited : list (list string * Dir))
    (first : list string) (rest : list (list string)) :
  ∃ addons_paths,
    foldl add_addons_path (first :: rest) visited = first :: addons_paths.
Proof.
  induction visited as [|v visited IH] using rev_ind; [by exists rest|].
  rewrite foldl_snoc. destruct IH as (addons_paths & ->).
  unfold add_addons_path. destruct (bool_decide _); [|by eexists].
  cbn zeta. destruct (bool_decide _); by eexists.
Qed.

(** X22.  A project root that is itself a module is answered with its
    parent directory, a directory that is not in the project. *)
Theorem module_as_project_root_gives_its_parent (fs : Dir)
    (project_root : list string) (d : Dir) :
  dir_at fs project_root = Some d →
  "__manifest__.py" ∈ dir_files d →
  project_root ≠ [] →
  ∃ addons_paths,
    find_addons_paths fs project_root = parent project_root :: addons_paths
    ∧ ¬ project_root `prefix_of` parent project_root.
Proof.
  intros Hroot Hmodule Hne. unfold find_addons_paths. rewrite Hroot.
  rewrite os_walk_unfold. cbn [foldl]. unfold add_addons_path at 2.
  cbn [fst snd]. rewrite bool_decide_eq_true_2 by done. cbn zeta.
  rewrite bool_decide_eq_false_2 by (by intros ?%elem_of_nil).
  rewrite app_nil_l.
  destruct (add_addons_path_keeps_first
              (walk_subdirs os_walk project_root (dir_subdirs d))
              (parent project_root) []) as (addons_paths & ->).
  exists addons_paths. split; [done|].
  intros Hprefix%prefix_length. unfold parent in Hprefix.
  destruct project_root as [|x l _] using rev_ind; [done|].
  rewrite removelast_last, length_app in Hprefix. simpl in Hprefix. lia.
Qed.

Lemma module_as_project_root_gives_its_parent_witness :
  find_addons_paths Fixture.disk
    ["home"; "dev"; "project"; "addons"; "sale_ext"]
  = [["home"; "dev"; "project"; "addons"]].
Proof.
  destruct (module_as_project_root_gives_its_parent Fixture.disk
              ["home"; "dev"; "project"; "addons"; "sale_ext"]
              Fixture.module_dir) as (addons_paths & Hfound & _).
  - reflexivity.
  - vm_compute. by left.
  - discriminate.
  - vm_compute. reflexivity.
Defined.
